(** * A shallow embedding of the atomiq-droid-suite backend

    Modelled files:
    - backend/agent/crewai_pipeline.py : _safe_join, _clean_body, the two
      FILE block regexes, _materialize, build_context_bundle, the tail of
      run_crewai_generation;
    - backend/agent/orchestrator.py    : _pick_targets, run_pipeline;
    - backend/main.py                  : to_bool, the flag normalisation of
      build, the _progress callback, the _run_job worker and the endpoints
      get_job and download_artifact;
    - backend/agent/utils/zipper.py    : zip_dir;
    - backend/agent/analyzers/java_parser.py : discover_java_files;
    - backend/agent/repo.py            : _extract_owner_repo;
    - backend/agent/tools/mapper_tools.py : GitChurnTool._run and
      GitBlameTopAuthorsTool._run on the output of git, the validators
      JavaOutlineInput._must_be_java_file and PomInput._must_be_pom.

    Python strings are Rocq [string]s of ASCII characters; POSIX path
    functions (os.path.join, normpath, abspath, relpath) are written out
    following CPython's posixpath module. *)

From Stdlib Require Import Ascii String List Bool Arith ZArith Lia.
From Stdlib Require Import Sorted Permutation DecimalString.
From stdpp Require Import base gmap sets list strings.

Open Scope string_scope.
Open Scope nat_scope.

(* ------------------------------------------------------------------ *)
(** ** Characters and Python string methods *)

Definition code (c : ascii) : nat := nat_of_ascii c.

Definition chr (n : nat) : string := String (ascii_of_nat n) EmptyString.

(** "\n", "\r", "\t" *)
Definition NL : string := chr 10.
Definition CR : string := chr 13.

(** [str.isspace] restricted to ASCII: \t \n \v \f \r, the separators
    \x1c-\x1f and the space. *)
Definition is_space (c : ascii) : bool :=
  ((9 <=? code c) && (code c <=? 13)) || ((28 <=? code c) && (code c <=? 32)).

(** [str.isalnum] or '_' on ASCII: the class [\w] of Python's [re]. *)
Definition is_word (c : ascii) : bool :=
  ((48 <=? code c) && (code c <=? 57)) || ((65 <=? code c) && (code c <=? 90))
  || ((97 <=? code c) && (code c <=? 122)) || (code c =? 95).

Definition slash : ascii := "/"%char.
Definition backslash : ascii := ascii_of_nat 92.

Fixpoint lstrip_by (p : ascii -> bool) (s : string) : string :=
  match s with
  | EmptyString => EmptyString
  | String c s' => if p c then lstrip_by p s' else s
  end.

Fixpoint rev_str (s : string) : string :=
  match s with
  | EmptyString => EmptyString
  | String c s' => (rev_str s' ++ String c EmptyString)%string
  end.

Definition rstrip_by (p : ascii -> bool) (s : string) : string :=
  rev_str (lstrip_by p (rev_str s)).

(** [s.strip()], [s.rstrip()], [s.lstrip(chars)] *)
Definition py_strip (s : string) : string := rstrip_by is_space (lstrip_by is_space s).
Definition py_rstrip (s : string) : string := rstrip_by is_space s.

(** [s.lower()] on ASCII *)
Definition lower_char (c : ascii) : ascii :=
  if (65 <=? code c) && (code c <=? 90) then ascii_of_nat (code c + 32) else c.

Fixpoint py_lower (s : string) : string :=
  match s with
  | EmptyString => EmptyString
  | String c s' => String (lower_char c) (py_lower s')
  end.

(** [s.startswith(p)] and [s.endswith(p)] *)
Definition startswith (s p : string) : bool := String.prefix p s.
Definition endswith (s p : string) : bool := String.prefix (rev_str p) (rev_str s).

(** [sub in s] *)
Fixpoint contains (s sub : string) : bool :=
  String.prefix sub s ||
  match s with
  | EmptyString => false
  | String _ s' => contains s' sub
  end.

(** [s.replace(a, b)] for single characters *)
Fixpoint replace_char (a b : ascii) (s : string) : string :=
  match s with
  | EmptyString => EmptyString
  | String c s' => String (if Ascii.eqb c a then b else c) (replace_char a b s')
  end.

(** [s.split(sep)] for a one-character separator: never empty,
    [""] splits to [[""]]. *)
Fixpoint split_on (sep : ascii) (s : string) : list string :=
  match s with
  | EmptyString => [EmptyString]
  | String c s' =>
      match split_on sep s' with
      | [] => [String c EmptyString] (* unreachable *)
      | w :: ws => if Ascii.eqb c sep then EmptyString :: w :: ws
                   else String c w :: ws
      end
  end.

(** [sep.join(l)] *)
Fixpoint join_with (sep : string) (l : list string) : string :=
  match l with
  | [] => EmptyString
  | [w] => w
  | w :: ws => (w ++ sep ++ join_with sep ws)%string
  end.

(* ------------------------------------------------------------------ *)
(** ** posixpath *)

Definition SEP : string := "/".

(** [os.path.isabs] *)
Definition isabs (p : string) : bool := startswith p "/".

(** [os.path.join(a, b)] *)
Definition path_join (a b : string) : string :=
  if startswith b "/" then b
  else if String.eqb a "" || endswith a "/" then (a ++ b)%string
  else (a ++ "/" ++ b)%string.

(** The component loop of [normpath]; [acc] is [new_comps] reversed. *)
Fixpoint norm_comps (initial : nat) (comps : list string) (acc : list string)
  : list string :=
  match comps with
  | [] => acc
  | comp :: rest =>
      if String.eqb comp "" || String.eqb comp "." then norm_comps initial rest acc
      else if negb (String.eqb comp "..")
              || ((initial =? 0) && match acc with [] => true | _ => false end)
              || match acc with top :: _ => String.eqb top ".." | [] => false end
      then norm_comps initial rest (comp :: acc)
      else match acc with
           | [] => norm_comps initial rest acc
           | _ :: acc' => norm_comps initial rest acc'
           end
  end.

Fixpoint repeat_str (n : nat) (s : string) : string :=
  match n with 0 => EmptyString | S k => (s ++ repeat_str k s)%string end.

(** [os.path.normpath] *)
Definition normpath (path : string) : string :=
  if String.eqb path "" then "."
  else
    let initial :=
      if startswith path "/" then
        if startswith path "//" && negb (startswith path "///") then 2 else 1
      else 0 in
    let comps := rev (norm_comps initial (split_on slash path) []) in
    let p := (repeat_str initial "/" ++ join_with "/" comps)%string in
    if String.eqb p "" then "." else p.

(** [os.path.abspath], relative to the current directory [cwd]. *)
Definition abspath (cwd path : string) : string :=
  normpath (if isabs path then path else path_join cwd path).

(* ------------------------------------------------------------------ *)
(** ** Exceptions *)

Inductive exn :=
| ValueError (msg : string)
| RuntimeError (msg : string)
| FileNotFoundError (msg : string)
| GeneratorError (msg : string)
| OSError (msg : string).

(* ------------------------------------------------------------------ *)
(** ** crewai_pipeline._safe_join *)

Definition safe_join (cwd root rel0 : string) : exn + string :=
  let rel := lstrip_by (fun c => Ascii.eqb c slash || Ascii.eqb c backslash)
                       (py_strip rel0) in
  let full := abspath cwd (path_join root rel) in
  let root_abs := abspath cwd root in
  if negb (String.eqb full root_abs) && negb (startswith full (root_abs ++ SEP))
  then inl (ValueError ("Unsafe path refused: " ++ rel))
  else inr full.

(** The two intermediate values of [_safe_join]: [rel] after stripping
    (line 23) and the resolved [full] (line 24). *)
Definition safe_join_rel (rel0 : string) : string :=
  lstrip_by (fun c => Ascii.eqb c slash || Ascii.eqb c backslash) (py_strip rel0).

Definition safe_join_full (cwd root rel0 : string) : string :=
  abspath cwd (path_join root (safe_join_rel rel0)).

(* ------------------------------------------------------------------ *)
(** ** Python [re]: a backtracking matcher for the two FILE patterns

    The constructs used by FILE_BLOCK_RE_A and FILE_BLOCK_RE_B: literal
    characters, character classes (the DOTALL '.' is the class of every
    character), '^' under MULTILINE, concatenation, alternation (for '?'),
    greedy and lazy repetition, and capturing groups.  Matching is written
    in continuation-passing style and explores alternatives in the order
    of Python's sre engine, so the first match found is Python's. *)

Inductive regex :=
| RChar (c : ascii)
| RClass (p : ascii -> bool)
| RBol
| REps
| RSeq (r1 r2 : regex)
| RAlt (r1 r2 : regex)
| RStar (greedy : bool) (r : regex)
| RGroup (n : nat) (r : regex).

Fixpoint rstr (s : string) : regex :=
  match s with
  | EmptyString => REps
  | String c s' => RSeq (RChar c) (rstr s')
  end.

Definition rplus (r : regex) : regex := RSeq r (RStar true r).
Definition ropt (r : regex) : regex := RAlt r REps.

Fixpoint rseq (rs : list regex) : regex :=
  match rs with
  | [] => REps
  | [r] => r
  | r :: rs' => RSeq r (rseq rs')
  end.

(** group captures, the most recent first *)
Definition caps := list (nat * (nat * nat)).

Section Matcher.
Variable inp : string.

Fixpoint mtch (r : regex) (i : nat) (cs : caps)
  (k : nat -> caps -> option (nat * caps)) {struct r} : option (nat * caps) :=
  match r with
  | RChar c =>
      match String.get i inp with
      | Some d => if Ascii.eqb c d then k (S i) cs else None
      | None => None
      end
  | RClass p =>
      match String.get i inp with
      | Some d => if p d then k (S i) cs else None
      | None => None
      end
  | RBol =>
      if (i =? 0) || match String.get (i - 1) inp with
                     | Some d => Ascii.eqb d (ascii_of_nat 10)
                     | None => false
                     end
      then k i cs else None
  | REps => k i cs
  | RSeq r1 r2 => mtch r1 i cs (fun j cs' => mtch r2 j cs' k)
  | RAlt r1 r2 =>
      match mtch r1 i cs k with
      | Some x => Some x
      | None => mtch r2 i cs k
      end
  | RStar greedy r1 =>
      (* every iteration consumes a character, so [length inp - i + 1]
         rounds are never exhausted *)
      (fix loop (n i : nat) (cs : caps) {struct n} : option (nat * caps) :=
         match n with
         | 0 => k i cs
         | S n' =>
             let more := mtch r1 i cs
                           (fun j cs' => if i <? j then loop n' j cs' else None) in
             if greedy then
               match more with Some x => Some x | None => k i cs end
             else
               match k i cs with Some x => Some x | None => more end
         end) (String.length inp - i + 1) i cs
  | RGroup n r1 => mtch r1 i cs (fun j cs' => k j ((n, (i, j)) :: cs'))
  end.

(** [regex.match(inp, pos)] *)
Definition match_at (r : regex) (pos : nat) : option (nat * caps) :=
  mtch r pos [] (fun j cs => Some (j, cs)).

(** [regex.finditer(inp)]: (start, end, groups) of each match, left to
    right, non-overlapping.  Neither FILE pattern matches the empty
    string, so the scan resumes at the end of each match. *)
Fixpoint finditer_from (fuel : nat) (r : regex) (pos : nat)
  : list (nat * nat * caps) :=
  match fuel with
  | 0 => []
  | S f =>
      if String.length inp <? pos then []
      else match match_at r pos with
           | Some (j, cs) =>
               (pos, j, cs) :: finditer_from f r (if pos <? j then j else S pos)
           | None => finditer_from f r (S pos)
           end
  end.

Definition finditer (r : regex) : list (nat * nat * caps) :=
  finditer_from (String.length inp + 1) r 0.

(** [m.group(n)] *)
Definition group (cs : caps) (n : nat) : string :=
  match list_find (fun '(m, _) => m = n) cs with
  | Some (_, (_, (a, b))) => String.substring a (b - a) inp
  | None => ""
  end.

End Matcher.

Definition any_char : ascii -> bool := fun _ => true.
Definition word_plus_minus (c : ascii) : bool :=
  is_word c || Ascii.eqb c "+"%char || Ascii.eqb c "-"%char.

Definition G_PATH := 1.
Definition G_BODY := 2.

(** FILE_BLOCK_RE_A =
    (?s)<<<FILE:(?P<path>[^>]+)>>>\s*```(?:[\w+-]+)?\s*(?P<body>.*?)```.*?<<<END_FILE>>> *)
Definition FILE_BLOCK_RE_A : regex :=
  rseq [ rstr "<<<FILE:";
         RGroup G_PATH (rplus (RClass (fun c => negb (Ascii.eqb c ">"%char))));
         rstr ">>>";
         RStar true (RClass is_space);
         rstr "```";
         ropt (rplus (RClass word_plus_minus));
         RStar true (RClass is_space);
         RGroup G_BODY (RStar false (RClass any_char));
         rstr "```";
         RStar false (RClass any_char);
         rstr "<<<END_FILE>>>" ].

(** FILE_BLOCK_RE_B = (?m)^FILE:\s*(?P<path>[^\n]+)\n```(?:[\w+-]+)?\n(?P<body>.*?)\n```
    compiled with re.S *)
Definition FILE_BLOCK_RE_B : regex :=
  rseq [ RBol;
         rstr "FILE:";
         RStar true (RClass is_space);
         RGroup G_PATH (rplus (RClass (fun c => negb (Ascii.eqb c (ascii_of_nat 10)))));
         RChar (ascii_of_nat 10);
         rstr "```";
         ropt (rplus (RClass word_plus_minus));
         RChar (ascii_of_nat 10);
         RGroup G_BODY (RStar false (RClass any_char));
         RChar (ascii_of_nat 10);
         rstr "```" ].

(** the (path, body) groups of every match of both patterns, in the
    order [_materialize] visits them: all of A, then all of B *)
Definition file_blocks (text : string) : list (string * string) :=
  flat_map (fun r => map (fun '(_, _, cs) => (group text cs G_PATH, group text cs G_BODY))
                         (finditer text r))
           [FILE_BLOCK_RE_A; FILE_BLOCK_RE_B].

(* ------------------------------------------------------------------ *)
(** ** _clean_body *)

(** [re.sub(r"\r\n?", "\n", text)] *)
Fixpoint norm_newlines (s : string) : string :=
  match s with
  | EmptyString => EmptyString
  | String c s' =>
      if Ascii.eqb c (ascii_of_nat 13) then
        match s' with
        | String d s'' =>
            if Ascii.eqb d (ascii_of_nat 10) then String (ascii_of_nat 10) (norm_newlines s'')
            else String (ascii_of_nat 10) (norm_newlines s')
        | EmptyString => String (ascii_of_nat 10) EmptyString
        end
      else String c (norm_newlines s')
  end.

Definition clean_body (text : string) : string :=
  (py_rstrip (norm_newlines text) ++ NL)%string.

(* ------------------------------------------------------------------ *)
(** ** The file system touched by the materializer

    Paths are normalised absolute paths (what [_safe_join] returns).  A
    path is either a regular file (with its contents) or a directory. *)

Record FS := mkFS { files : gmap string string; dirs : gset string }.

(** [os.path.dirname] *)
Definition dirname (p : string) : string :=
  let head := rev_str (lstrip_by (fun c => negb (Ascii.eqb c slash)) (rev_str p)) in
  if negb (String.eqb head "") && negb (String.eqb (lstrip_by (Ascii.eqb slash) head) "")
  then rstrip_by (Ascii.eqb slash) head
  else head.

(** the directories [os.makedirs(d)] needs: "/", then every prefix of
    [d] ending at a component, [d] last *)
Fixpoint prefixes_from (acc : string) (cs : list string) : list string :=
  match cs with
  | [] => []
  | c :: cs' => let a := (acc ++ "/" ++ c)%string in a :: prefixes_from a cs'
  end.

Definition ancestors (d : string) : list string :=
  "/" :: prefixes_from "" (filter (fun c => negb (String.eqb c "")) (split_on slash d)).

(** [os.makedirs(d, exist_ok=True)]: fails when [d] or one of its
    ancestors exists as a regular file, creates all missing ones
    otherwise. *)
Definition fs_makedirs (d : string) (fs : FS) : exn + FS :=
  if existsb (fun a => bool_decide (a ∈ dom (files fs))) (ancestors d)
  then inl (OSError ("makedirs: not a directory: " ++ d))
  else inr (mkFS (files fs) (dirs fs ∪ list_to_set (ancestors d))).

(** [open(p, "w").write(body)]: fails on a directory, truncates and
    writes otherwise. *)
Definition fs_write (p body : string) (fs : FS) : exn + FS :=
  if bool_decide (p ∈ dirs fs)
  then inl (OSError ("Is a directory: " ++ p))
  else inr (mkFS (<[p := body]> (files fs)) (dirs fs)).

(* ------------------------------------------------------------------ *)
(** ** _materialize *)

Definition ALLOWED_ROOTS : list string := ["unit-tests"; "bdd-tests"].

Definition is_allowed (allowed_roots : list string) (rel : string) : bool :=
  existsb (fun p => String.eqb rel p || startswith rel (p ++ "/")) allowed_roots.

(** [(m.group("path") or "").strip().replace("\\", "/")] *)
Definition block_rel (path : string) : string :=
  replace_char backslash slash (py_strip path).

Section Materialize.
Variables (cwd out_root : string) (allowed_roots : list string).

(** the loop body of [_materialize] over the matches, with [count] *)
Fixpoint write_blocks (bs : list (string * string)) (count : nat) (fs : FS)
  : (exn + nat) * FS :=
  match bs with
  | [] => (inr count, fs)
  | (path, body0) :: bs' =>
      let rel := block_rel path in
      if negb (is_allowed allowed_roots rel) then write_blocks bs' count fs
      else
        let body := clean_body body0 in
        match safe_join cwd out_root rel with
        | inl e => (inl e, fs)
        | inr full =>
            match fs_makedirs (dirname full) fs with
            | inl e => (inl e, fs)
            | inr fs1 =>
                match fs_write full body fs1 with
                | inl e => (inl e, fs1)
                | inr fs2 => write_blocks bs' (S count) fs2
                end
            end
        end
  end.

Definition materialize (text : string) (fs : FS) : (exn + nat) * FS :=
  if String.eqb text "" then (inr 0, fs)
  else write_blocks (file_blocks text) 0 fs.

End Materialize.

Definition empty_fs : FS := mkFS ∅ ∅.

(** the two-block generator output of the materializer's specification:
    one block for unit-tests/Foo.java, one for scripts/evil.sh *)
Definition TWO_BLOCKS : string :=
  ("<<<FILE:unit-tests/Foo.java>>>" ++ NL ++ "```java" ++ NL ++
   "class FooTest {}" ++ NL ++ "```" ++ NL ++ "<<<END_FILE>>>" ++ NL ++
   "<<<FILE:scripts/evil.sh>>>" ++ NL ++ "```sh" ++ NL ++
   "rm -rf /" ++ NL ++ "```" ++ NL ++ "<<<END_FILE>>>" ++ NL)%string.

(* ------------------------------------------------------------------ *)
(** ** run_crewai_generation *)

(** [bool(os.environ.get("OPENAI_API_KEY"))] *)
Definition key_present (env_key : option string) : bool :=
  match env_key with Some k => negb (String.eqb k "") | None => false end.

(** The CrewAI part of [run_crewai_generation] (the imports, the agents,
    the tasks and [crew.kickoff()]) is the external generator: [kickoff]
    is its outcome, an exception or the result ([None] or a value whose
    [str] is given).  The rest of the function is written out. *)
Definition run_crewai_generation (cwd : string) (env_key : option string)
  (kickoff : exn + option string) (provider out_dir : string) (fs : FS)
  : (exn + nat) * FS :=
  if negb (String.eqb (py_lower provider) "openai") then
    (inl (RuntimeError ("Unsupported provider '" ++ provider ++ "'. Only 'openai' is supported.")), fs)
  else if negb (key_present env_key) then
    (inl (RuntimeError "OPENAI_API_KEY not set; cannot run CrewAI with OpenAI provider."), fs)
  else
    match kickoff with
    | inl e => (inl e, fs)
    | inr result =>
        let content := match result with Some r => r | None => "" end in
        match fs_makedirs (abspath cwd out_dir) fs with
        | inl e => (inl e, fs)
        | inr fs1 =>
            let raw_path := abspath cwd (path_join out_dir "_crewai_raw.md") in
            (* a failed write of the raw output is ignored *)
            let fs2 := match fs_write raw_path content fs1 with
                       | inl _ => fs1
                       | inr f => f
                       end in
            match materialize cwd out_dir ALLOWED_ROOTS content fs2 with
            | (inl e, fs3) => (inl e, fs3)
            | (inr written, fs3) =>
                if written =? 0 then
                  (inl (RuntimeError "CrewAI produced no file blocks. Check _crewai_raw.md for the raw output."), fs3)
                else (inr written, fs3)
            end
        end
    end.

(* ------------------------------------------------------------------ *)
(** ** The job record of main.JOBS *)

(** a log entry; its "ts" timestamp is wall-clock time and is left out *)
Record LogEntry := mkLog { log_progress : Z; log_status : string; log_message : string }.

Record Job := mkJob {
  status : string;
  progress : Z;
  message : string;
  logs : list LogEntry;
  artifact : option string
}.

Definition set_status (s : string) (j : Job) : Job :=
  mkJob s (progress j) (message j) (logs j) (artifact j).
Definition set_progress (p : Z) (j : Job) : Job :=
  mkJob (status j) p (message j) (logs j) (artifact j).
Definition set_message (m : string) (j : Job) : Job :=
  mkJob (status j) (progress j) m (logs j) (artifact j).
Definition add_log (e : LogEntry) (j : Job) : Job :=
  mkJob (status j) (progress j) (message j) (logs j ++ [e]) (artifact j).
Definition set_artifact (a : option string) (j : Job) : Job :=
  mkJob (status j) (progress j) (message j) (logs j) a.

(** the record [build] stores in JOBS[job_id] *)
Definition job0 : Job := mkJob "pending" 0 "Queued" [] None.

Definition is_terminal (s : string) : bool :=
  String.eqb s "succeeded" || String.eqb s "failed".

(** [str(e)] *)
Definition exn_msg (e : exn) : string :=
  match e with
  | ValueError m | RuntimeError m | FileNotFoundError m | GeneratorError m | OSError m => m
  end.

(* ------------------------------------------------------------------ *)
(** ** The background worker's state and its state/error monad

    The worker of one job reads and writes the file system and the job's
    own record JOBS[job_id]; [ps_seen] lists every value that record
    takes, one entry per assignment, oldest first: what a poller of
    /api/jobs/{job_id} can observe. *)

Record PState := mkPS { ps_fs : FS; ps_job : Job; ps_seen : list Job }.

Definition M (A : Type) : Type := PState -> (exn + A) * PState.

Definition ret {A} (a : A) : M A := fun st => (inr a, st).
Definition raise {A} (e : exn) : M A := fun st => (inl e, st).
Definition bind {A B} (c : M A) (k : A -> M B) : M B :=
  fun st => match c st with
            | (inl e, st') => (inl e, st')
            | (inr a, st') => k a st'
            end.
(** [try: c except Exception as e: ...]: the outcome as a value *)
Definition try_ {A} (c : M A) : M (exn + A) :=
  fun st => let '(r, st') := c st in (inr r, st').

Notation "x <- c ;; k" := (bind c (fun x => k))
  (at level 100, c at level 99, right associativity).

(** an assignment to the job record *)
Definition update_job (f : Job -> Job) : M unit :=
  fun st => let j := f (ps_job st) in (inr tt, mkPS (ps_fs st) j (ps_seen st ++ [j])).
Definition get_job : M Job := fun st => (inr (ps_job st), st).
Definition read_fs {A} (f : FS -> A) : M A := fun st => (inr (f (ps_fs st)), st).
Definition on_fs {A} (f : FS -> (exn + A) * FS) : M A :=
  fun st => let '(r, fs') := f (ps_fs st) in (r, mkPS fs' (ps_job st) (ps_seen st)).
Definition fs_step (f : FS -> exn + FS) : M unit :=
  on_fs (fun fs => match f fs with inl e => (inl e, fs) | inr fs' => (inr tt, fs') end).

(** [os.makedirs(p, exist_ok=True)] and [Path(p).write_text(text)] *)
Definition makedirs (cwd p : string) : M unit := fs_step (fs_makedirs (abspath cwd p)).
Definition write_text (cwd p text : string) : M unit := fs_step (fs_write (abspath cwd p) text).

(* ------------------------------------------------------------------ *)
(** ** main.build: the progress callback _progress *)

(** [max(0, min(100, int(pct)))] *)
Definition clamp (pct : Z) : Z := Z.max 0 (Z.min 100 pct).

(** [_progress(pct, status, message)]; the Python parameter [status] (a
    stage label) is [label] here. *)
Definition progress_cb (pct : Z) (label message : string) : M unit :=
  let pct := clamp pct in
  _ <- update_job (set_progress pct) ;;
  j <- get_job ;;
  _ <- (if negb (is_terminal (status j)) then
          update_job (set_status (if (pct <? 100)%Z then "running" else status j))
        else ret tt) ;;
  _ <- update_job (set_message (if String.eqb message "" then label else message)) ;;
  update_job (add_log (mkLog pct label message)).

(* ------------------------------------------------------------------ *)
(** ** main.build: flag normalisation, and the radio semantics of
    orchestrator.run_pipeline *)

(** [gen_unit, gen_bdd] after "Exactly one should be true; default to
    Unit when ambiguous" *)
Definition build_flags (gen_unit gen_bdd : bool) : bool * bool :=
  if gen_unit && gen_bdd then (gen_unit, false)
  else if negb gen_unit && negb gen_bdd then (true, gen_bdd)
  else (gen_unit, gen_bdd).

(** [do_unit, do_bdd] of run_pipeline *)
Definition radio (generate_unit generate_bdd : bool) : bool * bool :=
  let do_unit := generate_unit && negb generate_bdd in
  let do_bdd := generate_bdd && negb generate_unit in
  if negb (do_unit || do_bdd) then (true, do_bdd) else (do_unit, do_bdd).

(* ------------------------------------------------------------------ *)
(** ** orchestrator.run_pipeline *)

Record BuildOptions := mkOpts {
  job_id : string;
  github_url : string;
  prompt : string;
  llm_provider : string;
  llm_model : string;
  generate_unit : bool;
  generate_bdd : bool
}.

(** The collaborators run_pipeline calls outside the modelled code: the
    environment variable OPENAI_API_KEY, [shallow_clone(url, work)] (git
    or network), the Java files found in the clone, the (package, class)
    pairs [summarize_java] extracts from them (files it cannot read are
    skipped), and the CrewAI generator. *)
Record Ext := mkExt {
  ext_env_key : option string;
  ext_clone : string -> string -> FS -> (exn + string) * FS;
  ext_java_files : string -> FS -> list string;
  ext_summaries : list string -> FS -> list (option string * option string);
  ext_kickoff : exn + option string
}.

(** [_pick_targets(summaries, limit)] *)
Fixpoint pick_targets_go (limit : nat) (picked : list (string * string))
  (summaries : list (option string * option string)) : list (string * string) :=
  match summaries with
  | [] => picked
  | (pkg, cls) :: rest =>
      let picked' :=
        match cls with
        | Some c => if String.eqb c "" then picked
                    else (picked ++ [(match pkg with Some p => p | None => "" end, c)])%list
        | None => picked
        end in
      if limit <=? length picked' then picked' else pick_targets_go limit picked' rest
  end.

Definition pick_targets (summaries : list (option string * option string)) (limit : nat)
  : list (string * string) :=
  pick_targets_go limit [] summaries.

(** [os.path.join(a, *ps)] *)
Definition join_all (a : string) (ps : list string) : string := fold_left path_join ps a.

Definition pkg_to_path (pkg : string) : string :=
  if String.eqb pkg "" then "" else replace_char "."%char slash pkg.

Definition UNIT_POM : string :=
  "<project xmlns='http://maven.apache.org/POM/4.0.0'><modelVersion>4.0.0</modelVersion><groupId>ai.atomiq</groupId><artifactId>unit-tests</artifactId><version>1.0.0</version></project>".

Definition unit_test_source (pkg cls : string) : string :=
  ((if String.eqb pkg "" then "" else "package " ++ pkg ++ ";" ++ NL ++ NL) ++
   "import org.junit.jupiter.api.*;" ++ NL ++
   "import static org.junit.jupiter.api.Assertions.*;" ++ NL ++ NL ++
   "class " ++ cls ++ "Test {" ++ NL ++
   "  @Test void sanity() { assertTrue(true); }" ++ NL ++ "}" ++ NL)%string.

Definition SAMPLE_FEATURE : string :=
  ("Feature: Sample" ++ NL ++ "  Scenario: Always true" ++ NL ++
   "    Given nothing" ++ NL ++ "    Then it works" ++ NL)%string.

Definition NOTICE_TEXT : string :=
  ("CrewAI not available or failed; using fallback scaffold." ++ NL)%string.

(** the fallback scaffold of run_pipeline *)
Definition fallback_scaffold (cwd out_root : string)
  (summaries : list (option string * option string)) (do_unit do_bdd : bool) : M unit :=
  let targets := match pick_targets summaries 1 with [] => [("", "Sample")] | t => t end in
  _ <- (if do_unit then
          let unit_root := path_join out_root "unit-tests" in
          _ <- makedirs cwd unit_root ;;
          _ <- write_text cwd (path_join unit_root "pom.xml") UNIT_POM ;;
          let '(pkg, cls) := hd ("", "Sample") targets in
          let test_path := join_all unit_root ["src"; "test"; "java"; pkg_to_path pkg;
                                               (cls ++ "Test.java")%string] in
          _ <- makedirs cwd (dirname test_path) ;;
          write_text cwd test_path (unit_test_source pkg cls)
        else ret tt) ;;
  if do_bdd then
    let bdd_root := path_join out_root "bdd-tests" in
    _ <- makedirs cwd bdd_root ;;
    let feat := join_all bdd_root ["src"; "test"; "resources"; "features"; "sample.feature"] in
    _ <- makedirs cwd (dirname feat) ;;
    write_text cwd feat SAMPLE_FEATURE
  else ret tt.

(** the files of the store strictly below [src], as paths relative to it *)
Definition store_entries (src : string) (fs : FS) : list string :=
  omap (fun '(p, _) =>
          if startswith p (src ++ "/") then
            Some (String.substring (String.length src + 1)
                                   (String.length p - String.length src - 1) p)
          else None)
       (map_to_list (files fs)).

(** [zip_dir(src_dir, zip_path)] as run_pipeline uses it: the parent
    directory is created and the archive file written; its contents are
    listed by entry name (zip_dir itself is modelled on a directory tree
    in [zip_entries] below). *)
Definition zip_dir_fs (cwd src_dir zip_path : string) : M unit :=
  _ <- makedirs cwd (dirname zip_path) ;;
  entries <- read_fs (store_entries (abspath cwd src_dir)) ;;
  write_text cwd zip_path (join_with NL entries).

(** run_pipeline up to the generation stage: the work directory, the
    clone, the scan, the radio semantics and the output root *)
Definition fetch_and_scan (cwd base_dir : string) (x : Ext) (opts : BuildOptions)
  : M (string * list (option string * option string) * bool * bool) :=
  let work := path_join (path_join base_dir "work") (job_id opts) in
  _ <- makedirs cwd work ;;
  _ <- progress_cb 5 "Fetching repository" "" ;;
  repo <- on_fs (ext_clone x (github_url opts) work) ;;
  _ <- progress_cb 25 "Scanning Java sources" "" ;;
  files <- read_fs (ext_java_files x repo) ;;
  _ <- (match files with
        | [] => raise (RuntimeError "No Java files found in the repository.")
        | _ => ret tt
        end) ;;
  summaries <- read_fs (ext_summaries x (firstn 200 files)) ;;
  let '(do_unit, do_bdd) := radio (generate_unit opts) (generate_bdd opts) in
  let out_root := path_join work "generated-tests" in
  _ <- makedirs cwd out_root ;;
  ret (out_root, summaries, do_unit, do_bdd).

(** the body of the [try] around CrewAI *)
Definition generation_stage (cwd : string) (x : Ext) (opts : BuildOptions) (out_root : string)
  : M nat :=
  _ <- progress_cb 55 "CrewAI generation" "" ;;
  on_fs (run_crewai_generation cwd (ext_env_key x) (ext_kickoff x)
           (if String.eqb (llm_provider opts) "" then "openai" else llm_provider opts)
           out_root).

(** the [try]/[except] around CrewAI: [used_ai] *)
Definition generate_with_policy (cwd : string) (x : Ext) (opts : BuildOptions) (out_root : string)
  : M bool :=
  let ai_required := key_present (ext_env_key x) in
  r <- try_ (generation_stage cwd x opts out_root) ;;
  match r with
  | inr count => ret (0 <? count)
  | inl e =>
      if ai_required then raise e
      else
        _ <- write_text cwd (path_join out_root "NOTICE.txt") (NOTICE_TEXT ++ exn_msg e) ;;
        ret false
  end.

(** the fallback (when [used_ai] is false) and the packaging stage *)
Definition package (cwd base_dir : string) (opts : BuildOptions) (out_root : string)
  (summaries : list (option string * option string)) (do_unit do_bdd used_ai : bool)
  : M string :=
  _ <- (if used_ai then ret tt else fallback_scaffold cwd out_root summaries do_unit do_bdd) ;;
  _ <- progress_cb 85 "Packaging" "" ;;
  let artifacts := path_join base_dir "artifacts" in
  _ <- makedirs cwd artifacts ;;
  let zip_path := path_join artifacts (job_id opts ++ "-tests.zip") in
  _ <- zip_dir_fs cwd out_root zip_path ;;
  _ <- progress_cb 100 "Complete" "" ;;
  ret zip_path.

Definition run_pipeline (cwd base_dir : string) (x : Ext) (opts : BuildOptions) : M string :=
  v <- fetch_and_scan cwd base_dir x opts ;;
  let '(out_root, summaries, do_unit, do_bdd) := v in
  used_ai <- generate_with_policy cwd x opts out_root ;;
  package cwd base_dir opts out_root summaries do_unit do_bdd used_ai.

(* ------------------------------------------------------------------ *)
(** ** main.build: the background worker _run_job *)

Definition finish_ok (zip_path : string) : M unit :=
  _ <- update_job (set_artifact (Some zip_path)) ;;
  _ <- update_job (set_progress 100) ;;
  _ <- update_job (set_status "succeeded") ;;
  _ <- update_job (set_message "Complete") ;;
  update_job (add_log (mkLog 100 "Complete" "Artifact ready")).

(** [base_dir] is [Path(os.getcwd())] *)
Definition run_job (cwd : string) (x : Ext) (opts : BuildOptions) : M unit :=
  r <- try_ (
    _ <- update_job (set_status "running") ;;
    zip_path <- run_pipeline cwd cwd x opts ;;
    ok <- read_fs (fun fs => negb (String.eqb zip_path "") &&
                             bool_decide (abspath cwd zip_path ∈ dom (files fs))) ;;
    if ok then finish_ok zip_path
    else raise (FileNotFoundError "Artifact ZIP not found after pipeline.")) ;;
  match r with
  | inr _ => ret tt
  | inl e =>
      _ <- update_job (set_status "failed") ;;
      _ <- update_job (set_message ("Error: " ++ exn_msg e)) ;;
      j <- get_job ;;
      update_job (add_log (mkLog (progress j) "Error" (exn_msg e)))
  end.

(** the worker's start: the fresh record of [build], observed once *)
Definition init_state (fs : FS) : PState := mkPS fs job0 [job0].

(** the state in which _run_job calls run_pipeline *)
Definition started (fs : FS) : PState := snd (update_job (set_status "running") (init_state fs)).

(** [j'] observed after [j] keeps the progress order: not lower, and
    equal once [j] is terminal *)
Definition observed_after (j j' : Job) : bool :=
  (progress j <=? progress j')%Z &&
  (negb (is_terminal (status j)) || (progress j' =? progress j)%Z).

(** progress observed non-decreasing, and constant from the first
    terminal observation on *)
Fixpoint progress_ok (l : list Job) : bool :=
  match l with
  | [] => true
  | j :: l' => forallb (observed_after j) l' && progress_ok l'
  end.

(** every observed progress lies in [0, 100] *)
Definition progress_in_range (l : list Job) : bool :=
  forallb (fun j => (0 <=? progress j)%Z && (progress j <=? 100)%Z) l.

(** The invariant of the observations while a job runs: the values seen
    so far are in order and in range, and the current record may follow
    each of them (never lower, equal and terminal after a terminal one). *)
Definition follows (j0 j : Job) : Prop :=
  observed_after j0 j = true /\
  (is_terminal (status j0) = true -> is_terminal (status j) = true).

Definition Inv (st : PState) : Prop :=
  progress_ok (ps_seen st) = true /\
  progress_in_range (ps_seen st) = true /\
  Forall (fun j0 => follows j0 (ps_job st)) (ps_seen st) /\
  (0 <= progress (ps_job st) <= 100)%Z.

(** an assignment that keeps the invariant *)
Definition Step (j j' : Job) : Prop := follows j j' /\ (0 <= progress j' <= 100)%Z.

(** Hoare triples over the worker's monad, with [Inv] built in *)
Definition triple {A} (P : Job -> Prop) (c : M A) (Q : exn + A -> Job -> Prop) : Prop :=
  forall st, Inv st -> P (ps_job st) ->
    Inv (snd (c st)) /\ Q (fst (c st)) (ps_job (snd (c st))).

(** a stage that runs on a job not yet finished whose progress is at most
    [lo], and leaves it not finished with progress at most [hi], whether
    it returns or raises *)
Definition Mono {A} (lo hi : Z) (c : M A) : Prop :=
  triple (fun j => is_terminal (status j) = false /\ (progress j <= lo)%Z) c
         (fun _ j => is_terminal (status j) = false /\ (progress j <= hi)%Z).

(** the exceptions the file system raises *)
Definition os_error (e : exn) : Prop :=
  match e with OSError _ => True | _ => False end.

(** a computation whose only exceptions are file system errors *)
Definition raises_os {A} (c : M A) : Prop :=
  forall st e st', c st = (inl e, st') -> os_error e.

(** a repository with one Java class com.acme.Foo, and a generator
    that fails (an API error) *)
Definition demo_ext (key : option string) : Ext :=
  mkExt key (fun _ work fs => (inr (path_join work "repo"), fs))
        (fun repo _ => [path_join repo "src/main/java/com/acme/Foo.java"])
        (fun _ _ => [(Some "com.acme", Some "Foo")])
        (inl (GeneratorError "rate limited")).

Definition demo_opts : BuildOptions :=
  mkOpts "job1" "https://github.com/acme/shop" "" "" "" true false.

(* ------------------------------------------------------------------ *)
(** ** Directory trees and os.walk *)

(** a directory entry: a regular file or a directory with its entries
    in the order the operating system lists them *)
#[warnings="-register-all"]
Inductive node :=
| FileNode (content : string)
| DirNode (children : list (string * node)).

(** induction on trees, through the lists of entries *)
Section NodeInd.
Variable P : node -> Prop.
Hypothesis HFile : forall c, P (FileNode c).
Hypothesis HDir : forall cs, Forall (fun e => P (snd e)) cs -> P (DirNode cs).

Fixpoint node_ind' (n : node) : P n :=
  match n with
  | FileNode c => HFile c
  | DirNode cs =>
      HDir cs ((fix go (cs : list (string * node)) : Forall (fun e => P (snd e)) cs :=
                  match cs with
                  | [] => List.Forall_nil _
                  | e :: rest => @List.Forall_cons _ _ e rest (node_ind' (snd e)) (go rest)
                  end) cs)
  end.
End NodeInd.

Definition is_dir (n : node) : bool :=
  match n with DirNode _ => true | FileNode _ => false end.

(** [os.walk(top)] (top-down, no error handler, no symlinks) on the
    directory [n] found at [top]: (dirpath, dirnames, filenames) for
    [top], then the walks of its subdirectories in listing order *)
Fixpoint walk (top : string) (n : node) : list (string * list string * list string) :=
  match n with
  | FileNode _ => []
  | DirNode cs =>
      (top, map fst (List.filter (fun e => is_dir (snd e)) cs),
            map fst (List.filter (fun e => negb (is_dir (snd e))) cs))
      :: (fix go (cs : list (string * node)) : list (string * list string * list string) :=
            match cs with
            | [] => []
            | (name, c) :: rest => (walk (path_join top name) c ++ go rest)%list
            end) cs
  end.

(** a file name as the file system allows it: not empty, not "." or
    "..", no "/" *)
Definition valid_name (n : string) : bool :=
  negb (String.eqb n "") && negb (String.eqb n ".") && negb (String.eqb n "..") &&
  negb (contains n "/").

Fixpoint valid_tree (n : node) : bool :=
  match n with
  | FileNode _ => true
  | DirNode cs =>
      (fix go (cs : list (string * node)) : bool :=
         match cs with
         | [] => true
         | (name, c) :: rest => valid_name name && valid_tree c && go rest
         end) cs
  end.

(** the files of a tree as lists of names from its top, in the order
    os.walk reports them: the files of the top directory, then those of
    each subdirectory *)
Fixpoint tree_files (n : node) : list (list string) :=
  match n with
  | FileNode _ => []
  | DirNode cs =>
      (map (fun e => [fst e]) (List.filter (fun e => negb (is_dir (snd e))) cs) ++
       (fix go (cs : list (string * node)) : list (list string) :=
          match cs with
          | [] => []
          | (name, c) :: rest => (map (cons name) (tree_files c) ++ go rest)%list
          end) cs)%list
  end.

(* ------------------------------------------------------------------ *)
(** ** posixpath.relpath and zipfile's arcname *)

(** [[x for x in p.split(sep) if x]] *)
Definition comps (p : string) : list string :=
  List.filter (fun c => negb (String.eqb c "")) (split_on slash p).

(** [len(os.path.commonprefix([l1, l2]))] for two lists *)
Fixpoint common_prefix_len (l1 l2 : list string) : nat :=
  match l1, l2 with
  | a :: r1, b :: r2 => if String.eqb a b then S (common_prefix_len r1 r2) else 0
  | _, _ => 0
  end.

(** [os.path.relpath(path, start)] (for a non-empty [path]) *)
Definition relpath (cwd path start : string) : string :=
  let start_list := comps (abspath cwd start) in
  let path_list := comps (abspath cwd path) in
  let i := common_prefix_len start_list path_list in
  let rel_list := (repeat ".." (length start_list - i) ++ skipn i path_list)%list in
  match rel_list with
  | [] => "."
  | r :: rs => join_all r rs
  end.

(** the entry name [ZipInfo.from_file] stores for [arcname] *)
Definition zip_arcname (arc : string) : string :=
  lstrip_by (Ascii.eqb slash) (normpath arc).

(** the entry names [zip_dir(src_dir, zip_path)] writes, in order, when
    [src_dir] is the directory [n] *)
Definition zip_entries (cwd src_dir : string) (n : node) : list string :=
  concat (map (fun '(folder, _, fns) =>
                 map (fun fn => zip_arcname (relpath cwd (path_join folder fn) src_dir)) fns)
              (walk src_dir n)).

(** a source directory holding a/b.txt and c.txt, listed in both orders *)
Definition AB_TREE : node :=
  DirNode [("a", DirNode [("b.txt", FileNode "b")]); ("c.txt", FileNode "c")].
Definition AB_TREE' : node :=
  DirNode [("c.txt", FileNode "c"); ("a", DirNode [("b.txt", FileNode "b")])].

(* ------------------------------------------------------------------ *)
(** ** java_parser.discover_java_files *)

Definition SKIP_DIRS : list string := ["target"; "build"; "out"; "node_modules"; "generated-sources"].

(** [any(skip in base.lower() for skip in [...])] *)
Definition skip_hit (base : string) : bool :=
  existsb (fun skip => contains (py_lower base) skip) SKIP_DIRS.

Definition discover_java_files (root : string) (n : node) : list string :=
  concat (map (fun '(base, _, names) =>
                 if skip_hit base then []
                 else map (path_join base) (List.filter (fun nm => endswith nm ".java") names))
              (walk root n)).

(** the files of a tree as (directory names from the top, file name),
    in the order os.walk reports them (a proof device) *)
Fixpoint tree_entries (n : node) : list (list string * string) :=
  match n with
  | FileNode _ => []
  | DirNode cs =>
      (map (fun e => ([], fst e)) (List.filter (fun e => negb (is_dir (snd e))) cs) ++
       (fix go (cs : list (string * node)) : list (list string * string) :=
          match cs with
          | [] => []
          | (name, c) :: rest =>
              (map (fun '(ds, nm) => (name :: ds, nm)) (tree_entries c) ++ go rest)%list
          end) cs)%list
  end.

(** a repository holding layout/A.java, B.java and src/C.java *)
Definition LAYOUT_TREE : node :=
  DirNode [("layout", DirNode [("A.java", FileNode "class A {}")]);
           ("B.java", FileNode "class B {}");
           ("src", DirNode [("C.java", FileNode "class C {}")])].

(** the pair [_pick_targets] appends for one summary, if any *)
Definition target_of (s : option string * option string) : option (string * string) :=
  match snd s with
  | Some c => if String.eqb c "" then None
              else Some (match fst s with Some p => p | None => "" end, c)
  | None => None
  end.

(* ------------------------------------------------------------------ *)
(** ** main.to_bool *)

(** the values a form field carries: a bool, None or a string, or a
    list of those ("Some frameworks send lists like ['true']") *)
Inductive form_scalar :=
| FBool (b : bool)
| FNone
| FStr (s : string).

Inductive form_value :=
| FScalar (v : form_scalar)
| FList (l : list form_scalar).

(** [str(v)] *)
Definition py_str_scalar (v : form_scalar) : string :=
  match v with
  | FBool true => "True"
  | FBool false => "False"
  | FNone => "None"
  | FStr s => s
  end.

Definition TRUTHY : list string := ["1"; "true"; "yes"; "on"; "y"; "t"].

(** [str(v).strip().lower() in {...}] *)
Definition truthy_str (s : string) : bool :=
  existsb (String.eqb (py_lower (py_strip s))) TRUTHY.

Definition to_bool (v : form_value) : bool :=
  match v with
  | FScalar (FBool b) => b
  | FScalar FNone => false
  | FScalar (FStr s) => truthy_str s
  | FList [] => truthy_str "[]"
  | FList (x :: _) => truthy_str (py_str_scalar x)
  end.

(* ------------------------------------------------------------------ *)
(** ** The git tools of mapper_tools: GitChurnTool, GitBlameTopAuthorsTool *)

(** [str.splitlines()] on ASCII: \n, \r, \r\n, \v, \f and \x1c-\x1e end
    a line; a final line break gives no empty last line. [cur] holds the
    current line reversed. *)
Definition is_linebreak (c : ascii) : bool :=
  ((10 <=? code c) && (code c <=? 13)) || ((28 <=? code c) && (code c <=? 30)).

Fixpoint splitlines_go (s : string) (cur : string) : list string :=
  match s with
  | EmptyString => if String.eqb cur "" then [] else [rev_str cur]
  | String c s' =>
      if is_linebreak c then
        rev_str cur ::
          (if Ascii.eqb c (ascii_of_nat 13) then
             match s' with
             | String d s'' =>
                 if Ascii.eqb d (ascii_of_nat 10) then splitlines_go s'' ""
                 else splitlines_go s' ""
             | EmptyString => []
             end
           else splitlines_go s' "")
      else splitlines_go s' (String c cur)
  end.

Definition splitlines (s : string) : list string := splitlines_go s "".

(** [s.isdigit()] and [int(s)] on ASCII *)
Definition is_digit (c : ascii) : bool := (48 <=? code c) && (code c <=? 57).

Definition py_isdigit (s : string) : bool :=
  negb (String.eqb s "") && forallb is_digit (list_ascii_of_string s).

Definition py_int (s : string) : nat :=
  fold_left (fun acc c => acc * 10 + (code c - 48)) (list_ascii_of_string s) 0.

(** [str(n)] *)
Definition py_str_nat (n : nat) : string := NilZero.string_of_uint (Nat.to_uint n).

(** a dict from strings to counts in insertion order: [d.get(k, 0)] and
    [d[k] = d.get(k, 0) + n] *)
Fixpoint dict_get (d : list (string * nat)) (k : string) : nat :=
  match d with
  | [] => 0
  | (k', v) :: d' => if String.eqb k' k then v else dict_get d' k
  end.

Fixpoint dict_add (d : list (string * nat)) (k : string) (n : nat) : list (string * nat) :=
  match d with
  | [] => [(k, n)]
  | (k', v) :: d' =>
      if String.eqb k' k then (k', v + n) :: d' else (k', v) :: dict_add d' k n
  end.

(** the loop [for ...: d[k] = d.get(k, 0) + n] from an empty dict *)
Definition tally (kvs : list (string * nat)) : list (string * nat) :=
  fold_left (fun d p => dict_add d (fst p) (snd p)) kvs [].

(** [sorted(d.items(), key=lambda x: -x[1])]: a stable sort by
    descending count (insertion sort; equal counts keep dict order) *)
Fixpoint insert_desc (x : string * nat) (l : list (string * nat)) : list (string * nat) :=
  match l with
  | [] => [x]
  | y :: l' => if snd x <=? snd y then y :: insert_desc x l' else x :: l
  end.

Definition sort_desc (l : list (string * nat)) : list (string * nat) :=
  fold_left (fun acc x => insert_desc x acc) l [].

(** GitChurnTool._run: one line of [git log --numstat] output,
    [Some (file, a + d)] when the loop counts it *)
Definition churn_field (s : string) : nat := if py_isdigit s then py_int s else 0.

Definition churn_line (line : string) : option (string * nat) :=
  if startswith line "--" || String.eqb (py_strip line) "" then None
  else match split_on (ascii_of_nat 9) line with
       | [add; delete; file] => Some (file, churn_field add + churn_field delete)
       | _ => None
       end.

(** [out] is [None] when [subprocess.check_output] raises *)
Definition git_churn_run (out : option string) : list (string * string) :=
  match out with
  | None => []
  | Some o =>
      map (fun fv => (fst fv, py_str_nat (snd fv)))
          (sort_desc (tally (omap churn_line (splitlines o))))
  end.

(** GitBlameTopAuthorsTool._run *)
Definition blame_line (line : string) : option (string * nat) :=
  if startswith line "author "
  then Some (py_strip (substring 7 (String.length line - 7) line), 1)
  else None.

Definition git_blame_run (out : option string) : list (string * string) :=
  match out with
  | None => []
  | Some o =>
      map (fun an => (fst an, py_str_nat (snd an)))
          (sort_desc (tally (omap blame_line (splitlines o))))
  end.

(** the total a list of (key, count) pairs gives to [k] *)
Definition sum_of (k : string) (kvs : list (string * nat)) : nat :=
  list_sum (map snd (List.filter (fun p => String.eqb (fst p) k) kvs)).

(* ------------------------------------------------------------------ *)
(** ** main.py: the job store and the endpoints get_job, download_artifact *)

(** a value of JOBS: the job record of [build], with its [created_at]
    and its [flags] dict (read with [job.get("flags", {})]) *)
Record JobRec := mkJobRec {
  jr_job : Job;
  jr_created_at : string;
  jr_flags : option (list (string * bool))
}.

(** a response, or an [HTTPException(status_code, detail)] *)
Inductive http (A : Type) :=
| HOk (a : A)
| HErr (code : nat) (detail : string).
Arguments HOk {A} a.
Arguments HErr {A} code detail.

(** the JSON body get_job returns *)
Record JobView := mkView {
  v_jobId : string;
  v_status : string;
  v_progress : Z;
  v_message : string;
  v_artifactUrl : option string;
  v_flags : list (string * bool);
  v_createdAt : string;
  v_logs : list LogEntry
}.

(** the truth value of [job.get("artifact")]: None and "" are false *)
Definition artifact_truthy (a : option string) : bool :=
  match a with Some s => negb (String.eqb s "") | None => false end.

Definition artifact_url (job_id : string) : string := "/api/jobs/" ++ job_id ++ "/artifact".

(** [l[-n:]] for [n > 0] *)
Definition last_n {A} (n : nat) (l : list A) : list A := skipn (length l - n) l.

Definition get_job_ep (jobs : gmap string JobRec) (job_id : string) : http JobView :=
  match jobs !! job_id with
  | None => HErr 404 "Job not found"
  | Some r =>
      let j := jr_job r in
      HOk (mkView job_id (status j) (progress j) (message j)
             (if artifact_truthy (artifact j) then Some (artifact_url job_id) else None)
             (match jr_flags r with Some f => f | None => [] end)
             (jr_created_at r) (last_n 200 (logs j)))
  end.

(** [PurePosixPath(p).name]: the last component, empty and "." parts
    dropped *)
Definition path_name (p : string) : string :=
  match last (List.filter (fun c => negb (String.eqb c "") && negb (String.eqb c "."))
                          (split_on slash p)) with
  | Some c => c
  | None => ""
  end.

(** download_artifact: the [FileResponse] as its (path, filename);
    [Path(artifact).is_file()] is a file of the store at the absolute path *)
Definition download_artifact (cwd : string) (fs : FS) (jobs : gmap string JobRec)
  (job_id : string) : http (string * string) :=
  match jobs !! job_id with
  | None => HErr 404 "Job not found"
  | Some r =>
      match artifact (jr_job r) with
      | Some a =>
          if negb (String.eqb a "") && bool_decide (abspath cwd a ∈ dom (files fs))
          then HOk (a, path_name a)
          else HErr 404 "Artifact not found"
      | None => HErr 404 "Artifact not found"
      end
  end.

(** a computation that leaves the job's artifact as it found it *)
Definition keeps_artifact {A} (c : M A) : Prop :=
  forall st, artifact (ps_job (snd (c st))) = artifact (ps_job st).

(* ------------------------------------------------------------------ *)
(** ** crewai_pipeline.build_context_bundle *)

(** a summary as summarize_java returns it; a method by its name *)
Record JavaSummary := mkSummary {
  sm_file : string;
  sm_package : option string;
  sm_class : option string;
  sm_methods : list string;
  sm_snippet : string
}.

(** [x or ""] for an optional string *)
Definition or_empty (o : option string) : string :=
  match o with Some s => s | None => "" end.

(** what the loop body writes for one summary *)
Definition bundle_entry (per_file_chars : nat) (s : JavaSummary) : string :=
  let methods := join_with ", " (firstn 12 (sm_methods s)) in
  let snippet := substring 0 per_file_chars (sm_snippet s) in
  (sm_file s ++ " :: " ++ or_empty (sm_package s) ++ "." ++ or_empty (sm_class s) ++
   " :: methods[" ++ methods ++ "]" ++ NL ++
   (if String.eqb snippet "" then ""
    else "----8<----" ++ NL ++ snippet ++ NL ++ "---->8----" ++ NL ++ NL))%string.

Definition build_context_bundle (summaries : list JavaSummary) (max_files per_file_chars : nat)
  : string :=
  ("# Repository Context" ++ NL ++
   String.concat "" (map (bundle_entry per_file_chars) (firstn max_files summaries)))%string.

(* ------------------------------------------------------------------ *)
(** ** repo._extract_owner_repo *)

(** [re.search(r, inp)]: the first match of the scan *)
Definition search (inp : string) (r : regex) : option (nat * nat * caps) :=
  match finditer inp r with
  | [] => None
  | m :: _ => Some m
  end.

Definition not_slash (c : ascii) : bool := negb (Ascii.eqb c slash).

(** [github\.com/([^/]+)/([^/]+)] *)
Definition OWNER_REPO_RE : regex :=
  rseq [rstr "github.com/"; RGroup 1 (rplus (RClass not_slash)); RChar slash;
        RGroup 2 (rplus (RClass not_slash))].

(** [s.replace(".git", "")]: occurrences removed left to right *)
Fixpoint drop_git (s : string) : string :=
  match s with
  | EmptyString => EmptyString
  | String c1 s1 =>
      match s1 with
      | String c2 (String c3 (String c4 rest)) =>
          if Ascii.eqb c1 "." && Ascii.eqb c2 "g" && Ascii.eqb c3 "i" && Ascii.eqb c4 "t"
          then drop_git rest
          else String c1 (drop_git s1)
      | _ => String c1 (drop_git s1)
      end
  end.

Definition extract_owner_repo (url : string) : option (string * string) :=
  match search url OWNER_REPO_RE with
  | None => None
  | Some (_, _, cs) => Some (group url cs 1, drop_git (group url cs 2))
  end.

(** the loop [mtch] runs for [RStar greedy r1] *)
Definition star_loop (inp : string) (greedy : bool) (r1 : regex)
  (k : nat -> caps -> option (nat * caps)) : nat -> nat -> caps -> option (nat * caps) :=
  fix loop (n i : nat) (cs : caps) {struct n} : option (nat * caps) :=
    match n with
    | 0 => k i cs
    | S n' =>
        let more := mtch inp r1 i cs
                      (fun j cs' => if i <? j then loop n' j cs' else None) in
        if greedy then
          match more with Some x => Some x | None => k i cs end
        else
          match k i cs with Some x => Some x | None => more end
    end.

(* ------------------------------------------------------------------ *)
(** ** mapper_tools: [JavaOutlineInput._must_be_java_file] and
    [PomInput._must_be_pom] *)

(** [s.rfind(c)], with -1 as [None] *)
Fixpoint rfind_go (c : ascii) (s : string) (i : nat) (acc : option nat) : option nat :=
  match s with
  | EmptyString => acc
  | String d s' => rfind_go c s' (S i) (if Ascii.eqb d c then Some i else acc)
  end.

Definition py_rfind (s : string) (c : ascii) : option nat := rfind_go c s 0 None.

(** [PurePath.suffix]: [name[i:]] for [i = name.rfind('.')] when
    [0 < i < len(name) - 1], else [""] *)
Definition path_suffix (p : string) : string :=
  let name := path_name p in
  match py_rfind name "."%char with
  | Some i =>
      if (0 <? i) && (i <? String.length name - 1)
      then substring i (String.length name - i) name else ""
  | None => ""
  end.

(** [Path(v).is_file()] against the file system, relative to [cwd] *)
Definition is_file (cwd : string) (fs : FS) (v : string) : bool :=
  bool_decide (abspath cwd v ∈ dom (files fs)).

Definition must_be_java_file (cwd : string) (fs : FS) (v : string) : exn + string :=
  if negb (is_file cwd fs v) then inl (ValueError ("File not found: " ++ v))
  else if negb (String.eqb (py_lower (path_suffix v)) ".java")
  then inl (ValueError "java_outline only accepts .java files")
  else inr v.

Definition must_be_pom (cwd : string) (fs : FS) (v : string) : exn + string :=
  if negb (is_file cwd fs v) then inl (ValueError ("File not found: " ++ v))
  else if negb (String.eqb (path_name v) "pom.xml")
  then inl (ValueError "maven_coords expects a pom.xml file")
  else inr v.

(** a path component as [comps] keeps it: not empty, no "/" *)
Definition good_comp (c : string) : Prop := c <> "" /\ contains c "/" = false.

(** A file system state is well formed when no path is both a directory
    and a regular file. *)
Definition wf_fs (fs : FS) : Prop := forall p, p ∈ dirs fs -> files fs !! p = None.

(** the paths [write_blocks] writes, in order (a proof device) *)
Fixpoint written (cwd out_root : string) (allowed : list string)
  (bs : list (string * string)) (fs : FS) : list string :=
  match bs with
  | [] => []
  | (path, body0) :: bs' =>
      let rel := block_rel path in
      if negb (is_allowed allowed rel) then written cwd out_root allowed bs' fs
      else
        match safe_join cwd out_root rel with
        | inl _ => []
        | inr full =>
            match fs_makedirs (dirname full) fs with
            | inl _ => []
            | inr fs1 =>
                match fs_write full (clean_body body0) fs1 with
                | inl _ => []
                | inr fs2 => full :: written cwd out_root allowed bs' fs2
                end
            end
        end
  end.

(** two blocks for the same path with different contents *)
Definition SAME_PATH_TWICE : string :=
  ("<<<FILE:unit-tests/X.java>>>" ++ NL ++ "```java" ++ NL ++ "one" ++ NL ++
   "```" ++ NL ++ "<<<END_FILE>>>" ++ NL ++
   "FILE: unit-tests/X.java" ++ NL ++ "```java" ++ NL ++ "two" ++ NL ++ "```" ++ NL)%string.

(* ================================================================== *)
(** * Theorems *)

(* ------------------------------------------------------------------ *)
(** ** _safe_join *)

(** C1 (counterexample): "/etc/passwd" is not refused by [_safe_join]:
    its leading slash is stripped and it resolves under the root. *)
Lemma safe_join_abs_etc_passwd_accepted :
  safe_join "/" "/out" "/etc/passwd" = inr "/out/etc/passwd" /\
  ~ (exists e, safe_join "/" "/out" "/etc/passwd" = inl e).
Proof.
  split; [reflexivity |].
  intros [e He]. vm_compute in He. discriminate.
Qed.

Lemma prefix_ex (p s : string) : String.prefix p s = true -> exists t, s = (p ++ t)%string.
Proof.
  revert s. induction p as [|a p IH]; intros s H; [exists s; reflexivity |].
  destruct s as [|b s]; [discriminate |]. cbn in H.
  destruct (ascii_dec a b) as [<-|]; [| discriminate].
  destruct (IH s H) as [t ->]. exists t. reflexivity.
Qed.

Lemma safe_join_unfold (cwd root rel : string) :
  safe_join cwd root rel =
  let full := safe_join_full cwd root rel in
  let root_abs := abspath cwd root in
  if negb (String.eqb full root_abs) && negb (startswith full (root_abs ++ SEP))
  then inl (ValueError ("Unsafe path refused: " ++ safe_join_rel rel))
  else inr full.
Proof. reflexivity. Qed.

Lemma out2_outside_out (s : string) :
  s = "/out2" \/ startswith s "/out2/" = true ->
  negb (String.eqb s "/out") && negb (startswith s ("/out" ++ SEP)) = true.
Proof.
  intros [-> | H]; [reflexivity |].
  destruct (prefix_ex _ _ H) as [t ->]. reflexivity.
Qed.

(** C1 (amended): with root "/out" and any current directory,
    "a/b.txt" resolves to "/out/a/b.txt"; "../../etc/passwd" is refused
    with the unsafe-path ValueError, and so is every [rel] whose
    resolved path is "/out2" or lies under "/out2/" (the sibling-root
    collision); "/etc/passwd" loses its leading slash and resolves to
    "/out/etc/passwd". *)
Theorem safe_join_out_cases (cwd rel : string)
  (Hsib : safe_join_full cwd "/out" rel = "/out2" \/
          startswith (safe_join_full cwd "/out" rel) "/out2/" = true) :
  safe_join cwd "/out" "a/b.txt" = inr "/out/a/b.txt" /\
  safe_join cwd "/out" "../../etc/passwd"
    = inl (ValueError "Unsafe path refused: ../../etc/passwd") /\
  safe_join cwd "/out" rel
    = inl (ValueError ("Unsafe path refused: " ++ safe_join_rel rel)) /\
  safe_join cwd "/out" "/etc/passwd" = inr "/out/etc/passwd".
Proof.
  split; [reflexivity |]. split; [reflexivity |]. split; [| reflexivity].
  rewrite safe_join_unfold. cbv zeta.
  replace (abspath cwd "/out") with "/out" by reflexivity.
  rewrite (out2_outside_out _ Hsib). reflexivity.
Qed.

(** C1: the sibling-root path "../out2/x" resolves to "/out2/x" and is
    refused. *)
Lemma safe_join_out_cases_witness :
  safe_join_full "/" "/out" "../out2/x" = "/out2/x" /\
  safe_join "/" "/out" "../out2/x" = inl (ValueError "Unsafe path refused: ../out2/x").
Proof.
  split; [reflexivity |].
  destruct (safe_join_out_cases "/" "../out2/x") as (_ & _ & H & _);
    [right; reflexivity | exact H].
Defined.

(* ------------------------------------------------------------------ *)
(** ** _materialize: blocks outside the allow-list *)

Lemma write_blocks_skip cwd out_root allowed bs1 path body bs2 count fs :
  is_allowed allowed (block_rel path) = false ->
  write_blocks cwd out_root allowed (bs1 ++ (path, body) :: bs2) count fs
  = write_blocks cwd out_root allowed (bs1 ++ bs2) count fs.
Proof.
  intros Hna. revert count fs.
  induction bs1 as [| [p b] bs1 IH]; intros count fs; simpl.
  - rewrite Hna. reflexivity.
  - destruct (is_allowed allowed (block_rel p)); simpl; [| apply IH].
    destruct (safe_join _ _ _) as [e | full]; [reflexivity |].
    destruct (fs_makedirs _ _) as [e | fs1]; [reflexivity |].
    destruct (fs_write _ _ _) as [e | fs2]; [reflexivity | apply IH].
Qed.

(** C3: on the two-block text (unit-tests/Foo.java and scripts/evil.sh)
    [_materialize] returns 1 and writes exactly the unit-tests file; in
    general a block whose path is outside the allowed roots is dropped:
    the run is the same as on the matches without it (no error, no
    write). *)
Theorem materialize_allow_list (cwd : string) :
  file_blocks TWO_BLOCKS
    = [("unit-tests/Foo.java", "class FooTest {}" ++ NL);
       ("scripts/evil.sh", "rm -rf /" ++ NL)]%string /\
  materialize cwd "/out" ALLOWED_ROOTS TWO_BLOCKS empty_fs
    = (inr 1, mkFS {[ "/out/unit-tests/Foo.java" := "class FooTest {}" ++ NL ]}%string
                   (list_to_set ["/"; "/out"; "/out/unit-tests"])) /\
  (forall out_root bs1 path body bs2 count fs,
     is_allowed ALLOWED_ROOTS (block_rel path) = false ->
     write_blocks cwd out_root ALLOWED_ROOTS (bs1 ++ (path, body) :: bs2) count fs
     = write_blocks cwd out_root ALLOWED_ROOTS (bs1 ++ bs2) count fs).
Proof.
  split; [vm_compute; reflexivity |].
  split; [| intros; apply write_blocks_skip; assumption].
  unfold materialize. vm_compute. reflexivity.
Qed.

(* ------------------------------------------------------------------ *)
(** ** _materialize: file system steps *)

Lemma fs_ext (g F : FS) : files g = files F -> dirs g = dirs F -> g = F.
Proof. destruct g, F; simpl; intros -> ->; reflexivity. Qed.

Lemma fs_makedirs_inl d s e :
  fs_makedirs d s = inl e ->
  e = OSError ("makedirs: not a directory: " ++ d) /\
  exists a, In a (ancestors d) /\ a ∈ dom (files s).
Proof.
  unfold fs_makedirs. destruct (existsb _ _) eqn:E; [| discriminate].
  intros [= <-]. split; [reflexivity |].
  apply existsb_exists in E as (a & Ha & Hd).
  exists a. split; [exact Ha | exact (bool_decide_eq_true_1 _ Hd)].
Qed.

Lemma fs_makedirs_inr d s s1 :
  fs_makedirs d s = inr s1 ->
  s1 = mkFS (files s) (dirs s ∪ list_to_set (ancestors d)) /\
  forall a, In a (ancestors d) -> a ∉ dom (files s).
Proof.
  unfold fs_makedirs. destruct (existsb _ _) eqn:E; [discriminate |].
  intros [= <-]. split; [reflexivity |].
  intros a Ha Hd. rewrite <- Bool.not_true_iff_false in E. apply E.
  apply existsb_exists. exists a. split; [exact Ha | exact (bool_decide_eq_true_2 _ Hd)].
Qed.

Lemma fs_makedirs_fail d g :
  (exists a, In a (ancestors d) /\ a ∈ dom (files g)) ->
  fs_makedirs d g = inl (OSError ("makedirs: not a directory: " ++ d)).
Proof.
  intros (a & Ha & Hd). unfold fs_makedirs.
  replace (existsb _ _) with true; [reflexivity |].
  symmetry. apply existsb_exists. exists a.
  split; [exact Ha | exact (bool_decide_eq_true_2 _ Hd)].
Qed.

Lemma fs_makedirs_ok d g :
  (forall a, In a (ancestors d) -> a ∉ dom (files g)) ->
  fs_makedirs d g = inr (mkFS (files g) (dirs g ∪ list_to_set (ancestors d))).
Proof.
  intros Hn. unfold fs_makedirs.
  replace (existsb _ _) with false; [reflexivity |].
  symmetry. apply Bool.not_true_iff_false. intros E.
  apply existsb_exists in E as (a & Ha & Hd).
  exact (Hn a Ha (bool_decide_eq_true_1 _ Hd)).
Qed.

Lemma fs_write_inl p b s e :
  fs_write p b s = inl e -> e = OSError ("Is a directory: " ++ p) /\ p ∈ dirs s.
Proof.
  unfold fs_write. case_bool_decide; [| discriminate].
  intros [= <-]. split; [reflexivity | assumption].
Qed.

Lemma fs_write_inr p b s s2 :
  fs_write p b s = inr s2 ->
  s2 = mkFS (<[p := b]> (files s)) (dirs s) /\ p ∉ dirs s.
Proof.
  unfold fs_write. case_bool_decide; [discriminate |].
  intros [= <-]. split; [reflexivity | assumption].
Qed.

Lemma fs_write_fail p b g :
  p ∈ dirs g -> fs_write p b g = inl (OSError ("Is a directory: " ++ p)).
Proof. intros H. unfold fs_write. rewrite bool_decide_eq_true_2 by exact H. reflexivity. Qed.

Lemma fs_write_ok p b g :
  p ∉ dirs g -> fs_write p b g = inr (mkFS (<[p := b]> (files g)) (dirs g)).
Proof. intros H. unfold fs_write. rewrite bool_decide_eq_false_2 by exact H. reflexivity. Qed.

Lemma elem_of_union_list_to_set (q : string) (X : gset string) (l : list string) :
  q ∈ X ∪ list_to_set l -> q ∈ X \/ In q l.
Proof. rewrite elem_of_union, elem_of_list_to_set, list_elem_of_In. tauto. Qed.

(** the case split of one [write_blocks] step, left in the goal *)
Ltac wb_step path body0 :=
  destruct (is_allowed _ (block_rel path)) eqn:Hal; simpl;
  [ destruct (safe_join _ _ (block_rel path)) as [e | full] eqn:Hsj;
    [ | destruct (fs_makedirs (dirname full) _) as [e | s1] eqn:Hmk;
        [ | destruct (fs_write full (clean_body body0) s1) as [e | s2] eqn:Hwr ] ]
  | ].

Section MaterializeProofs.
Variables (cwd out_root : string) (allowed : list string).

Abbreviation wb := (write_blocks cwd out_root allowed).
Abbreviation wr := (written cwd out_root allowed).

Lemma wb_mono bs : forall c s r F,
  wb bs c s = (r, F) -> dirs s ⊆ dirs F /\ dom (files s) ⊆ dom (files F).
Proof.
  induction bs as [| [path body0] bs IH]; intros c s r F; simpl.
  { intros [= _ <-]. split; reflexivity. }
  wb_step path body0.
  - intros [= _ <-]. split; reflexivity.
  - intros [= _ <-]. split; reflexivity.
  - apply fs_makedirs_inr in Hmk as [-> _]. intros [= _ <-]. cbn [files dirs]. set_solver.
  - apply fs_makedirs_inr in Hmk as [-> _]. apply fs_write_inr in Hwr as [-> _].
    intros H. apply IH in H as [H1 H2]. cbn [files dirs] in *.
    rewrite dom_insert_L in H2. set_solver.
  - apply IH.
Qed.

Lemma wf_fs_step s d full b :
  wf_fs s ->
  (forall a, In a (ancestors d) -> a ∉ dom (files s)) ->
  full ∉ dirs s ∪ list_to_set (ancestors d) ->
  wf_fs (mkFS (<[full := b]> (files s)) (dirs s ∪ list_to_set (ancestors d))).
Proof.
  intros Hwf Hn Hd q Hq. cbn [files dirs] in *.
  destruct (String.eq_dec q full) as [-> | Hne]; [contradiction |].
  rewrite lookup_insert_ne by congruence.
  apply (elem_of_union_list_to_set _ _ (ancestors d)) in Hq as [Hq | Hq]; [auto |].
  apply not_elem_of_dom. auto.
Qed.

Lemma wb_wf bs : forall c s r F, wf_fs s -> wb bs c s = (r, F) -> wf_fs F.
Proof.
  induction bs as [| [path body0] bs IH]; intros c s r F Hwf; simpl.
  { intros [= _ <-]. exact Hwf. }
  wb_step path body0.
  - intros [= _ <-]. exact Hwf.
  - intros [= _ <-]. exact Hwf.
  - apply fs_makedirs_inr in Hmk as [-> Hn]. intros [= _ <-].
    intros q Hq. cbn [files dirs] in *.
    apply (elem_of_union_list_to_set _ _ (ancestors (dirname full))) in Hq as [Hq | Hq]; [auto |].
    apply not_elem_of_dom. auto.
  - apply fs_makedirs_inr in Hmk as [-> Hn]. apply fs_write_inr in Hwr as [-> Hd].
    intros H. cbn [files dirs] in *. refine (IH _ _ _ _ _ H). apply wf_fs_step; assumption.
  - apply IH; exact Hwf.
Qed.

Lemma wb_untouched bs : forall c s r F p,
  wb bs c s = (r, F) -> p ∉ wr bs s -> files F !! p = files s !! p.
Proof.
  induction bs as [| [path body0] bs IH]; intros c s r F p; simpl.
  { intros [= _ <-]. reflexivity. }
  wb_step path body0.
  - intros [= _ <-]. reflexivity.
  - intros [= _ <-]. reflexivity.
  - apply fs_makedirs_inr in Hmk as [-> _]. intros [= _ <-]. reflexivity.
  - apply fs_makedirs_inr in Hmk as [-> _]. apply fs_write_inr in Hwr as [-> _].
    intros H Hp. apply not_elem_of_cons in Hp as [Hne Hp].
    rewrite (IH _ _ _ _ _ H Hp). cbn [files]. apply lookup_insert_ne. congruence.
  - apply IH.
Qed.

Lemma written_source bs : forall s p,
  p ∈ wr bs s ->
  exists path body, In (path, body) bs /\ is_allowed allowed (block_rel path) = true /\
                    safe_join cwd out_root (block_rel path) = inr p.
Proof.
  induction bs as [| [path body0] bs IH]; intros s p; simpl.
  { intros H. apply elem_of_nil in H. contradiction. }
  destruct (is_allowed _ (block_rel path)) eqn:Hal; simpl.
  - destruct (safe_join _ _ (block_rel path)) as [e | full] eqn:Hsj;
      [intros H; apply elem_of_nil in H; contradiction |].
    destruct (fs_makedirs (dirname full) s) as [e | s1];
      [intros H; apply elem_of_nil in H; contradiction |].
    destruct (fs_write full (clean_body body0) s1) as [e | s2];
      [intros H; apply elem_of_nil in H; contradiction |].
    intros H. apply elem_of_cons in H as [-> | H].
    + exists path, body0. auto.
    + destruct (IH _ _ H) as (pa & bo & Hin & Ha & Hs). exists pa, bo. auto.
  - intros H. destruct (IH _ _ H) as (pa & bo & Hin & Ha & Hs). exists pa, bo. auto.
Qed.

Lemma fs_eq_agree (g F : FS) :
  dirs g = dirs F -> (forall p, files g !! p = files F !! p) -> g = F.
Proof. intros Hd Ha. apply fs_ext; [apply map_eq; exact Ha | exact Hd]. Qed.

(** Re-running the loop on its own result, or on any state of the same
    shape that differs only at paths the run rewrites, ends in the same
    result and the same state. *)
Lemma wb_again bs : forall c s r F g,
  wf_fs s -> wb bs c s = (r, F) ->
  dirs g = dirs F -> dom (files g) = dom (files F) ->
  (forall p, p ∉ wr bs s -> files g !! p = files F !! p) ->
  wb bs c g = (r, F).
Proof.
  induction bs as [| [path body0] bs IH]; intros c s r F g Hwf H0.
  { simpl in H0. injection H0 as <- <-. intros Hd _ Hag. simpl.
    f_equal. apply fs_eq_agree; [exact Hd |]. intros p. apply Hag, not_elem_of_nil. }
  pose proof (wb_wf _ _ _ _ _ Hwf H0) as HwfF. revert H0. simpl.
  destruct (is_allowed allowed (block_rel path)) eqn:Hal; simpl;
    [| intros H; apply (IH _ _ _ _ _ Hwf H)].
  destruct (safe_join cwd out_root (block_rel path)) as [e | full] eqn:Hsj.
  { intros [= <- <-] Hd _ Hag. f_equal. apply fs_eq_agree; [exact Hd |].
    intros p. apply Hag, not_elem_of_nil. }
  destruct (fs_makedirs (dirname full) s) as [e | s1] eqn:Hmk.
  { apply fs_makedirs_inl in Hmk as [-> Hex]. intros [= <- <-] Hd Hdom Hag.
    rewrite fs_makedirs_fail by (rewrite Hdom; exact Hex).
    f_equal. apply fs_eq_agree; [exact Hd |]. intros p. apply Hag, not_elem_of_nil. }
  apply fs_makedirs_inr in Hmk as [-> Hn].
  destruct (fs_write full (clean_body body0) _) as [e | s2] eqn:Hwr.
  { apply fs_write_inl in Hwr as [-> Hin]. intros [= <- <-] Hd Hdom Hag.
    cbn [files dirs] in *.
    rewrite fs_makedirs_ok by (rewrite Hdom; exact Hn).
    rewrite fs_write_fail by (cbn [dirs]; rewrite Hd; set_solver).
    f_equal. apply fs_eq_agree; cbn [files dirs].
    - rewrite Hd. set_solver.
    - intros p. apply Hag, not_elem_of_nil. }
  apply fs_write_inr in Hwr as [-> Hnd]. intros H Hd Hdom Hag.
  cbn [files dirs] in *.
  destruct (wb_mono _ _ _ _ _ H) as [Hmd Hmf]. cbn [files dirs] in Hmd, Hmf.
  assert (HA : forall a, In a (ancestors (dirname full)) -> a ∈ dirs F).
  { intros a Ha. apply Hmd. apply elem_of_union_r.
    apply elem_of_list_to_set, list_elem_of_In, Ha. }
  assert (HfF : full ∈ dom (files F)).
  { apply Hmf. rewrite dom_insert_L. set_solver. }
  assert (HfD : full ∉ dirs F).
  { intros Hin. apply HwfF in Hin. apply elem_of_dom in HfF.
    rewrite Hin in HfF. destruct HfF as [? ?]; discriminate. }
  rewrite fs_makedirs_ok.
  2:{ rewrite Hdom. intros a Ha Hda. apply elem_of_dom in Hda.
      rewrite (HwfF a (HA a Ha)) in Hda. destruct Hda as [? ?]; discriminate. }
  rewrite fs_write_ok.
  2:{ cbn [dirs]. rewrite Hd. intros Hin.
      apply (elem_of_union_list_to_set _ _ (ancestors (dirname full))) in Hin as [Hin | Hin];
        [exact (HfD Hin) | exact (HfD (HA _ Hin))]. }
  cbn [files dirs].
  refine (IH _ _ _ _ _ (wf_fs_step _ _ _ _ Hwf Hn Hnd) H _ _ _).
  - cbn [dirs]. rewrite Hd. apply set_eq. intros q. rewrite elem_of_union.
    split; [intros [Hq | Hq]; [exact Hq |] | intros Hq; left; exact Hq].
    apply elem_of_list_to_set, list_elem_of_In in Hq. exact (HA _ Hq).
  - cbn [files]. rewrite dom_insert_L, Hdom. set_solver.
  - intros p Hp. cbn [files]. destruct (String.eq_dec p full) as [-> | Hne].
    + rewrite lookup_insert_eq. rewrite (wb_untouched _ _ _ _ _ _ H Hp).
      cbn [files]. rewrite lookup_insert_eq. reflexivity.
    + rewrite lookup_insert_ne by congruence. apply Hag.
      apply not_elem_of_cons. split; [exact Hne |].
      (* [written] of the cons step is [full :: wr bs _] *)
      exact Hp.
Qed.

Lemma wb_app bs1 bs2 : forall c s,
  wb (bs1 ++ bs2) c s =
  match wb bs1 c s with
  | (inl e, s') => (inl e, s')
  | (inr c', s') => wb bs2 c' s'
  end.
Proof.
  induction bs1 as [| [path body0] bs1 IH]; intros c s; simpl; [reflexivity |].
  destruct (is_allowed allowed (block_rel path)); simpl; [| apply IH].
  destruct (safe_join cwd out_root (block_rel path)); [reflexivity |].
  destruct (fs_makedirs _ s) as [e | s1]; [reflexivity |].
  destruct (fs_write _ _ s1) as [e | s2]; [reflexivity | apply IH].
Qed.

Lemma wb_last bs1 path body0 bs2 c s n F p :
  wb (bs1 ++ (path, body0) :: bs2) c s = (inr n, F) ->
  is_allowed allowed (block_rel path) = true ->
  safe_join cwd out_root (block_rel path) = inr p ->
  (forall path' body', In (path', body') bs2 ->
     is_allowed allowed (block_rel path') = true ->
     safe_join cwd out_root (block_rel path') <> inr p) ->
  files F !! p = Some (clean_body body0).
Proof.
  intros H Hal Hsj Hlater. rewrite wb_app in H.
  destruct (wb bs1 c s) as [[e | c'] s'] ; [discriminate |].
  simpl in H. rewrite Hal in H. simpl in H. rewrite Hsj in H.
  destruct (fs_makedirs (dirname p) s') as [e | s1]; [discriminate |].
  destruct (fs_write p (clean_body body0) s1) as [e | s2] eqn:Hwr; [discriminate |].
  apply fs_write_inr in Hwr as [-> _].
  rewrite (wb_untouched _ _ _ _ _ _ H); [apply lookup_insert_eq |].
  intros Hin. apply written_source in Hin as (pa & bo & Hin & Ha & Hs).
  exact (Hlater _ _ Hin Ha Hs).
Qed.

End MaterializeProofs.

(** C6: after a successful [_materialize], a path written by several
    blocks holds the (cleaned) body of the last allowed block resolving
    to it; and re-running [_materialize] on the same text over the file
    tree it produced (from a well-formed tree) returns the same result
    and leaves the tree unchanged, also when the run ended in an error. *)
Theorem materialize_last_wins_idempotent (cwd out_root : string) :
  (forall text fs n F bs1 path body bs2 p,
     materialize cwd out_root ALLOWED_ROOTS text fs = (inr n, F) ->
     file_blocks text = (bs1 ++ (path, body) :: bs2)%list ->
     is_allowed ALLOWED_ROOTS (block_rel path) = true ->
     safe_join cwd out_root (block_rel path) = inr p ->
     (forall path' body', In (path', body') bs2 ->
        is_allowed ALLOWED_ROOTS (block_rel path') = true ->
        safe_join cwd out_root (block_rel path') <> inr p) ->
     files F !! p = Some (clean_body body)) /\
  (forall text fs r F,
     wf_fs fs ->
     materialize cwd out_root ALLOWED_ROOTS text fs = (r, F) ->
     materialize cwd out_root ALLOWED_ROOTS text F = (r, F)).
Proof.
  split.
  - intros text fs n F bs1 path body bs2 p H Hb. unfold materialize in H.
    destruct (String.eqb text "") eqn:Ht.
    + apply String.eqb_eq in Ht. subst text. destruct bs1; discriminate Hb.
    + rewrite Hb in H. apply (wb_last cwd out_root ALLOWED_ROOTS _ _ _ _ _ _ _ _ _ H).
  - intros text fs r F Hwf H. unfold materialize in *.
    destruct (String.eqb text "").
    + injection H as <- <-. reflexivity.
    + apply (wb_again _ _ _ _ _ _ _ _ _ Hwf H); reflexivity.
Qed.

Lemma materialize_last_wins_idempotent_witness :
  let '(r, F) := materialize "/" "/out" ALLOWED_ROOTS SAME_PATH_TWICE empty_fs in
  r = inr 2 /\
  files F !! "/out/unit-tests/X.java" = Some ("two" ++ NL)%string /\
  materialize "/" "/out" ALLOWED_ROOTS SAME_PATH_TWICE F = (r, F).
Proof.
  destruct (materialize "/" "/out" ALLOWED_ROOTS SAME_PATH_TWICE empty_fs) as [r F] eqn:E.
  pose proof E as E'. vm_compute in E'. injection E' as <- EF.
  split; [reflexivity | split].
  - refine (proj1 (materialize_last_wins_idempotent "/" "/out")
              SAME_PATH_TWICE empty_fs 2 F
              [("unit-tests/X.java", "one" ++ NL)%string] "unit-tests/X.java" "two"
              [] "/out/unit-tests/X.java" E _ eq_refl eq_refl _).
    + vm_compute. reflexivity.
    + intros path' body' [].
  - refine (proj2 (materialize_last_wins_idempotent "/" "/out")
              SAME_PATH_TWICE empty_fs (inr 2) F _ E).
    intros q Hq. apply elem_of_empty in Hq. contradiction.
Defined.

(* ------------------------------------------------------------------ *)
(** ** run_crewai_generation *)

(** C5: when [run_crewai_generation] returns a count, that count is what
    [_materialize] returned on the generator output and it is positive: a
    zero count raises instead. *)
Theorem run_crewai_generation_positive cwd env_key kickoff provider out_dir fs n fs' :
  run_crewai_generation cwd env_key kickoff provider out_dir fs = (inr n, fs') ->
  0 < n /\
  exists content fs2, materialize cwd out_dir ALLOWED_ROOTS content fs2 = (inr n, fs').
Proof.
  unfold run_crewai_generation.
  destruct (negb (String.eqb (py_lower provider) "openai")); [discriminate |].
  destruct (negb (key_present env_key)); [discriminate |].
  destruct kickoff as [e | result]; [discriminate |].
  destruct (fs_makedirs _ fs) as [e | fs1]; [discriminate |].
  match goal with
  | |- context [materialize ?c ?o ?a ?t ?f] =>
      destruct (materialize c o a t f) as [[e | w] fs3] eqn:Hm
  end; [discriminate |].
  destruct (Nat.eqb_spec w 0) as [-> | Hw]; [discriminate |].
  intros [= <- <-]. split; [lia |]. eexists _, _. exact Hm.
Qed.

Lemma run_crewai_generation_positive_witness :
  run_crewai_generation "/" (Some "sk-test") (inr (Some TWO_BLOCKS)) "openai" "/out" empty_fs
    = (inr 1, snd (run_crewai_generation "/" (Some "sk-test") (inr (Some TWO_BLOCKS)) "openai" "/out" empty_fs)) /\
  0 < 1.
Proof.
  assert (H : run_crewai_generation "/" (Some "sk-test") (inr (Some TWO_BLOCKS)) "openai" "/out" empty_fs
    = (inr 1, snd (run_crewai_generation "/" (Some "sk-test") (inr (Some TWO_BLOCKS)) "openai" "/out" empty_fs)))
    by (vm_compute; reflexivity).
  split; [exact H |].
  exact (proj1 (run_crewai_generation_positive _ _ _ _ _ _ _ _ H)).
Defined.

(* ------------------------------------------------------------------ *)
(** ** The mode flags *)

(** Claim C8: for all four combinations of the request flags, the
    normalisation of [build] and the radio semantics of run_pipeline give
    the same pair; exactly one of unit and BDD is selected; unit is
    selected when both or neither flag is set; and run_pipeline's
    re-derivation leaves the flags [build] passes on unchanged. *)
Theorem build_flags_radio_agree :
  forall gen_unit gen_bdd : bool,
    radio gen_unit gen_bdd = build_flags gen_unit gen_bdd /\
    (let '(u, b) := build_flags gen_unit gen_bdd in xorb u b = true) /\
    (gen_unit = gen_bdd -> build_flags gen_unit gen_bdd = (true, false)) /\
    (let '(u, b) := build_flags gen_unit gen_bdd in radio u b = (u, b)).
Proof.
  intros [|] [|]; repeat split; try reflexivity; discriminate.
Qed.

(* ------------------------------------------------------------------ *)
(** ** The progress callback on a finished job *)

Definition finished_job : Job :=
  mkJob "succeeded" 100 "Complete" [mkLog 100 "Complete" "Artifact ready"] (Some "/srv/artifacts/j-tests.zip").

(** Claim C2 (counterexample): a late callback on a succeeded job with
    progress 100 sets its progress to 5 and its message to the stage
    label: only the status is protected. *)
Lemma progress_cb_terminal_changes_progress :
  let st' := snd (progress_cb 5 "Fetching repository" "" (mkPS empty_fs finished_job [finished_job])) in
  status (ps_job st') = "succeeded" /\ progress (ps_job st') = 5%Z /\
  progress finished_job = 100%Z /\ message (ps_job st') = "Fetching repository".
Proof. vm_compute. repeat split. Qed.

(** Claim C2 (amended): on a job whose status is terminal, the callback
    leaves the status, the artifact and the file system unchanged, sets
    the progress to the clamped percent and the message to [message] (or
    the stage label when it is empty), and appends exactly one log entry. *)
Theorem progress_cb_terminal :
  forall (pct : Z) (label msg : string) (st : PState),
    is_terminal (status (ps_job st)) = true ->
    let st' := snd (progress_cb pct label msg st) in
    fst (progress_cb pct label msg st) = inr tt /\
    status (ps_job st') = status (ps_job st) /\
    artifact (ps_job st') = artifact (ps_job st) /\
    progress (ps_job st') = clamp pct /\
    message (ps_job st') = (if String.eqb msg "" then label else msg) /\
    logs (ps_job st') = (logs (ps_job st) ++ [mkLog (clamp pct) label msg])%list /\
    ps_fs st' = ps_fs st.
Proof.
  intros pct label msg [fs j seen] H. cbn in H.
  unfold progress_cb, bind, update_job, get_job, ret. cbn.
  rewrite H. cbn. repeat split.
Qed.

Lemma progress_cb_terminal_witness :
  is_terminal (status finished_job) = true /\
  progress (ps_job (snd (progress_cb 5 "Fetching repository" "" (mkPS empty_fs finished_job [finished_job])))) = clamp 5.
Proof.
  split; [reflexivity |].
  exact (proj1 (proj2 (proj2 (proj2 (progress_cb_terminal 5 "Fetching repository" "" (mkPS empty_fs finished_job [finished_job]) eq_refl))))).
Defined.

(* ------------------------------------------------------------------ *)
(** ** Observations of a running job *)

Lemma progress_ok_snoc (l : list Job) (j' : Job) :
  progress_ok l = true -> Forall (fun j0 => observed_after j0 j' = true) l ->
  progress_ok (l ++ [j'])%list = true.
Proof.
  induction l as [|j l IH]; intros Hok Hall; [reflexivity |].
  cbn in Hok |- *. apply andb_true_iff in Hok as [Hf Hok].
  inversion Hall as [|? ? Hj Hl]; subst.
  rewrite forallb_app, Hf, IH by assumption. cbn. rewrite Hj. reflexivity.
Qed.

Lemma follows_trans (j0 j j' : Job) : follows j0 j -> follows j j' -> follows j0 j'.
Proof.
  unfold follows, observed_after.
  intros [H1 T1] [H2 T2].
  apply andb_true_iff in H1 as [L1 E1]. apply andb_true_iff in H2 as [L2 E2].
  apply Z.leb_le in L1, L2. split.
  - apply andb_true_iff. split; [apply Z.leb_le; lia |].
    destruct (is_terminal (status j0)) eqn:Hj0; [| reflexivity].
    specialize (T1 eq_refl). rewrite T1 in E2. cbn in E1, E2 |- *.
    apply Z.eqb_eq in E1, E2. apply Z.eqb_eq. lia.
  - auto.
Qed.

Lemma follows_refl (j : Job) : follows j j.
Proof.
  unfold follows, observed_after. split; [| auto].
  rewrite Z.leb_refl, Z.eqb_refl, orb_true_r. reflexivity.
Qed.

Lemma inv_update (f : Job -> Job) (st : PState) :
  Inv st -> Step (ps_job st) (f (ps_job st)) -> Inv (snd (update_job f st)).
Proof.
  destruct st as [fs j seen]. unfold Inv, Step, update_job. cbn.
  intros (Hok & Hr & Hall & _) (Hf & R).
  assert (Hall' : Forall (fun j0 => follows j0 (f j)) seen).
  { eapply Forall_impl; [exact Hall |]. intros j0 H. exact (follows_trans _ _ _ H Hf). }
  split; [| split; [| split]].
  - apply progress_ok_snoc; [exact Hok |].
    eapply Forall_impl; [exact Hall' |]. intros j0 [H _]. exact H.
  - unfold progress_in_range in *. rewrite forallb_app, Hr. cbn.
    destruct R as [R1 R2]. apply Z.leb_le in R1, R2. rewrite R1, R2. reflexivity.
  - apply Forall_app. split; [exact Hall' |]. constructor; [apply follows_refl | constructor].
  - exact R.
Qed.

Lemma triple_conseq {A} (P P' : Job -> Prop) (Q Q' : exn + A -> Job -> Prop) (c : M A) :
  triple P c Q -> (forall j, P' j -> P j) -> (forall r j, Q r j -> Q' r j) -> triple P' c Q'.
Proof. intros H HP HQ st Hi Hp. destruct (H st Hi (HP _ Hp)). auto. Qed.

Lemma triple_ret {A} (P : Job -> Prop) (Q : exn + A -> Job -> Prop) (a : A) :
  (forall j, P j -> Q (inr a) j) -> triple P (ret a) Q.
Proof. intros H st Hi Hp. cbn. auto. Qed.

Lemma triple_raise {A} (P : Job -> Prop) (Q : exn + A -> Job -> Prop) (e : exn) :
  (forall j, P j -> Q (inl e) j) -> triple P (raise e) Q.
Proof. intros H st Hi Hp. cbn. auto. Qed.

Lemma triple_bind {A B} (P : Job -> Prop) (Q : exn + A -> Job -> Prop)
  (R : exn + B -> Job -> Prop) (c : M A) (k : A -> M B) :
  triple P c Q -> (forall a, triple (Q (inr a)) (k a) R) ->
  (forall e j, Q (inl e) j -> R (inl e) j) -> triple P (bind c k) R.
Proof.
  intros Hc Hk He st Hi Hp. unfold bind.
  destruct (Hc st Hi Hp) as [Hi1 Hq1].
  destruct (c st) as [[e|a] st1]; cbn in *; [auto |].
  exact (Hk a st1 Hi1 Hq1).
Qed.

Lemma triple_try {A} (P : Job -> Prop) (Q : exn + A -> Job -> Prop) (c : M A) :
  triple P c Q ->
  triple P (try_ c) (fun r j => match r with inr r' => Q r' j | inl _ => False end).
Proof.
  intros H st Hi Hp. unfold try_.
  destruct (H st Hi Hp) as [Hi1 Hq1]. destruct (c st) as [r st1]. cbn. auto.
Qed.

Lemma triple_on_fs {A} (P : Job -> Prop) (Q : exn + A -> Job -> Prop) (f : FS -> (exn + A) * FS) :
  (forall r j, P j -> Q r j) -> triple P (on_fs f) Q.
Proof.
  intros H [fs j seen] Hi Hp. unfold on_fs. cbn in *.
  destruct (f fs) as [r fs']. cbn. split; [exact Hi | auto].
Qed.

Lemma triple_update (P : Job -> Prop) (Q : exn + unit -> Job -> Prop) (f : Job -> Job) :
  (forall j, (0 <= progress j <= 100)%Z -> P j -> Step j (f j) /\ Q (inr tt) (f j)) ->
  triple P (update_job f) Q.
Proof.
  intros H st Hi Hp. destruct (H _ (proj2 (proj2 (proj2 Hi))) Hp) as [Hs Hq].
  split; [exact (inv_update f st Hi Hs) | exact Hq].
Qed.

Lemma triple_get_job (P : Job -> Prop) (Q : exn + Job -> Job -> Prop) :
  (forall j, P j -> Q (inr j) j) -> triple P get_job Q.
Proof. intros H st Hi Hp. cbn. auto. Qed.

Lemma mono_fs {A} (lo : Z) (f : FS -> (exn + A) * FS) : Mono lo lo (on_fs f).
Proof. apply triple_on_fs. auto. Qed.

Lemma mono_read_fs {A} (lo : Z) (f : FS -> A) : Mono lo lo (read_fs f).
Proof. intros st Hi Hp. cbn. auto. Qed.

Lemma mono_makedirs (lo : Z) (cwd p : string) : Mono lo lo (makedirs cwd p).
Proof. apply mono_fs. Qed.

Lemma mono_write_text (lo : Z) (cwd p t : string) : Mono lo lo (write_text cwd p t).
Proof. apply mono_fs. Qed.

Lemma mono_ret {A} (lo hi : Z) (a : A) : (lo <= hi)%Z -> Mono lo hi (ret a).
Proof. intros H. apply triple_ret. intros j [? ?]. split; [assumption | lia]. Qed.

Lemma mono_raise {A} (lo hi : Z) (e : exn) : (lo <= hi)%Z -> Mono (A := A) lo hi (raise e).
Proof. intros H. apply triple_raise. intros j [? ?]. split; [assumption | lia]. Qed.

Lemma mono_bind {A B} (lo mid hi : Z) (c : M A) (k : A -> M B) :
  Mono lo mid c -> (forall a, Mono mid hi (k a)) -> (mid <= hi)%Z -> Mono lo hi (bind c k).
Proof.
  intros Hc Hk Hle. eapply triple_bind; [exact Hc | exact Hk |].
  intros e j [? ?]. split; [assumption | lia].
Qed.

Lemma mono_try {A} (lo hi : Z) (c : M A) : Mono lo hi c -> Mono lo hi (try_ c).
Proof.
  intros H. eapply triple_conseq; [apply triple_try; exact H | auto |].
  intros [e|a] j Hq; [destruct Hq | exact Hq].
Qed.

Lemma clamp_range (pct : Z) : (0 <= clamp pct <= 100)%Z.
Proof. unfold clamp. lia. Qed.

Ltac step_solve :=
  repeat split; try lia; try discriminate; try (apply Z.leb_le; lia); auto.

Lemma mono_progress_cb (lo pct : Z) (label msg : string) :
  (lo <= clamp pct)%Z -> Mono lo (clamp pct) (progress_cb pct label msg).
Proof.
  intros Hle. unfold progress_cb.
  pose proof (clamp_range pct) as Hr.
  eapply triple_bind.
  { apply triple_update with
      (Q := fun _ j => is_terminal (status j) = false /\ progress j = clamp pct).
    intros j _ [Ht Hp]. unfold Step, follows, observed_after. cbn. rewrite Ht. cbn.
    step_solve. }
  2: { intros e j [? ?]. split; [assumption | lia]. }
  intros []. eapply triple_bind.
  { apply triple_get_job with
      (Q := fun r j => r = inr j /\ is_terminal (status j) = false /\ progress j = clamp pct).
    auto. }
  2: { intros e j [H _]. discriminate. }
  intros j0. eapply triple_bind.
  { instantiate (1 := fun _ j => is_terminal (status j) = false /\ progress j = clamp pct).
    destruct (negb (is_terminal (status j0))) eqn:Hn.
    - apply triple_update. intros j _ [Hj [Ht Hp]]. injection Hj as <-.
      unfold Step, follows, observed_after. cbn. rewrite Ht, Hp. cbn.
      destruct (clamp pct <? 100)%Z; cbn; step_solve.
    - apply triple_ret. intros j [Hj [Ht Hp]]. auto. }
  2: { intros e j [? ?]. split; [assumption | lia]. }
  intros []. eapply triple_bind.
  { apply triple_update with
      (Q := fun _ j => is_terminal (status j) = false /\ progress j = clamp pct).
    intros j _ [Ht Hp]. unfold Step, follows, observed_after. cbn. rewrite Ht, Hp.
    cbn. step_solve. }
  2: { intros e j [? ?]. split; [assumption | lia]. }
  intros []. apply triple_update.
  intros j _ [Ht Hp]. unfold Step, follows, observed_after. cbn. rewrite Ht, Hp.
  cbn. step_solve.
Qed.

Lemma mono_ret_eq {A} (lo : Z) (a : A) : Mono lo lo (ret a).
Proof. apply mono_ret. lia. Qed.

Lemma mono_raise_eq {A} (lo : Z) (e : exn) : Mono (A := A) lo lo (raise e).
Proof. apply mono_raise. lia. Qed.

Lemma mono_weaken {A} (lo mid hi : Z) (c : M A) : Mono lo mid c -> (mid <= hi)%Z -> Mono lo hi c.
Proof.
  intros H Hle. eapply triple_conseq; [exact H | auto |].
  intros r j [? ?]. split; [assumption | lia].
Qed.

Ltac mono_leaf :=
  first [ apply mono_makedirs | apply mono_write_text | apply mono_read_fs
        | apply mono_fs | apply mono_ret_eq | apply mono_raise_eq
        | apply mono_progress_cb; unfold clamp; lia ].

Ltac mono_tac :=
  repeat first
  [ progress cbv beta iota zeta
  | match goal with
    | |- Mono _ _ (bind (match ?x with _ => _ end) _) => destruct x
    | |- Mono _ _ (match ?x with _ => _ end) => destruct x
    | |- Mono _ _ (bind _ _) => eapply mono_bind; [mono_leaf | intros ? | unfold clamp; lia]
    | |- Mono ?lo _ (bind _ _) => apply (mono_bind lo lo); [| intros ? | unfold clamp; lia]
    | |- Mono _ _ (ret _) => apply mono_ret; unfold clamp; lia
    | |- Mono _ _ (raise _) => apply mono_raise; unfold clamp; lia
    | |- Mono _ _ (progress_cb _ _ _) => apply mono_progress_cb; unfold clamp; lia
    | |- Mono _ _ (makedirs _ _) => apply mono_makedirs
    | |- Mono _ _ (write_text _ _ _) => apply mono_write_text
    | |- Mono _ _ _ => eapply mono_weaken; [mono_leaf | unfold clamp; lia]
    end ].

Lemma mono_fallback_scaffold (lo : Z) cwd out_root summaries do_unit do_bdd :
  Mono lo lo (fallback_scaffold cwd out_root summaries do_unit do_bdd).
Proof. unfold fallback_scaffold. mono_tac. Qed.

Lemma mono_zip_dir_fs (lo : Z) cwd src zip : Mono lo lo (zip_dir_fs cwd src zip).
Proof. unfold zip_dir_fs. mono_tac. Qed.

Lemma mono_fetch_and_scan cwd base_dir x opts : Mono 0 25 (fetch_and_scan cwd base_dir x opts).
Proof. unfold fetch_and_scan. mono_tac. Qed.

Lemma mono_generation_stage cwd x opts out_root : Mono 25 55 (generation_stage cwd x opts out_root).
Proof. unfold generation_stage. mono_tac. Qed.

Lemma mono_generate_with_policy cwd x opts out_root :
  Mono 25 55 (generate_with_policy cwd x opts out_root).
Proof.
  unfold generate_with_policy. cbv zeta.
  eapply mono_bind; [apply mono_try, mono_generation_stage | intros r | lia].
  mono_tac.
Qed.

Lemma mono_package cwd base_dir opts out_root summaries do_unit do_bdd used_ai :
  Mono 55 100 (package cwd base_dir opts out_root summaries do_unit do_bdd used_ai).
Proof.
  unfold package.
  apply (mono_bind 55 55); [| intros [] | lia].
  { destruct used_ai; [apply mono_ret_eq | apply mono_fallback_scaffold]. }
  cbv zeta.
  eapply mono_bind; [apply mono_progress_cb; unfold clamp; lia | intros [] | unfold clamp; lia].
  eapply mono_bind; [apply mono_makedirs | intros [] | unfold clamp; lia].
  eapply mono_bind; [apply mono_zip_dir_fs | intros [] | unfold clamp; lia].
  mono_tac.
Qed.

Lemma mono_run_pipeline cwd base_dir x opts : Mono 0 100 (run_pipeline cwd base_dir x opts).
Proof.
  unfold run_pipeline.
  eapply mono_bind; [apply mono_fetch_and_scan | intros [[[out_root sums] du] db] | lia].
  cbv beta iota.
  eapply mono_bind; [apply mono_generate_with_policy | intros used_ai | lia].
  apply mono_package.
Qed.

Lemma step_same (f : Job -> Job) (j : Job) :
  status (f j) = status j -> progress (f j) = progress j -> (0 <= progress j <= 100)%Z ->
  Step j (f j).
Proof.
  intros Hs Hp Hr. unfold Step, follows, observed_after. rewrite Hs, Hp.
  rewrite Z.leb_refl, Z.eqb_refl, orb_true_r. auto.
Qed.

Lemma step_finish (s : string) (j : Job) :
  is_terminal s = true -> (0 <= progress j <= 100)%Z -> Step j (set_status s j).
Proof.
  intros Ht Hr. unfold Step, follows, observed_after. cbn.
  rewrite Z.leb_refl, Z.eqb_refl, orb_true_r. auto.
Qed.

Lemma step_status (s : string) (j : Job) :
  is_terminal (status j) = false -> (0 <= progress j <= 100)%Z -> Step j (set_status s j).
Proof.
  intros Ht Hr. unfold Step, follows, observed_after. cbn.
  rewrite Z.leb_refl, Z.eqb_refl, orb_true_r. rewrite Ht. split; [split |]; auto.
  intros H. discriminate H.
Qed.

Lemma triple_finish_ok (zp : string) :
  triple (fun j => is_terminal (status j) = false /\ (progress j <= 100)%Z)
         (finish_ok zp) (fun _ _ => True).
Proof.
  unfold finish_ok.
  eapply triple_bind; [| intros [] | auto].
  { apply triple_update with
      (Q := fun _ j => is_terminal (status j) = false /\ (progress j <= 100)%Z).
    intros j Hr [Ht Hp]. split; [apply step_same; auto | auto]. }
  eapply triple_bind; [| intros [] | auto].
  { apply triple_update with (Q := fun _ _ => True).
    intros j Hr [Ht Hp]. unfold Step, follows, observed_after. cbn. rewrite Ht.
    split; [| exact I]. split; [split |].
    - apply andb_true_iff. split; [apply Z.leb_le; lia | reflexivity].
    - intros H. discriminate H.
    - cbn. lia. }
  eapply triple_bind; [| intros [] | auto].
  { apply triple_update with (Q := fun _ _ => True).
    intros j Hr _. split; [apply step_finish; auto | auto]. }
  eapply triple_bind; [| intros [] | auto].
  { apply triple_update with (Q := fun _ _ => True).
    intros j Hr _. split; [apply step_same; auto | auto]. }
  apply triple_update. intros j Hr _. split; [apply step_same; auto | auto].
Qed.

Lemma triple_run_job (cwd : string) (x : Ext) (opts : BuildOptions) :
  triple (fun j => is_terminal (status j) = false /\ progress j = 0%Z)
         (run_job cwd x opts) (fun _ _ => True).
Proof.
  unfold run_job.
  eapply triple_bind; [apply triple_try | | auto].
  - eapply triple_bind; [| intros [] | auto].
    { apply triple_update with
        (Q := fun _ j => is_terminal (status j) = false /\ (progress j <= 0)%Z).
      intros j Hr [Ht Hp]. split; [apply step_status; auto | cbn; split; [reflexivity | lia]]. }
    eapply triple_bind; [apply mono_run_pipeline | intros zp | auto].
    eapply triple_bind; [apply mono_read_fs | intros ok | auto].
    destruct ok; [apply triple_finish_ok | apply triple_raise; auto].
    all: intros; exact I.
  - intros [e | []].
    2: { apply triple_ret. auto. }
    eapply triple_bind; [| intros [] | auto].
    { apply triple_update with (Q := fun _ _ => True).
      intros j Hr _. split; [apply step_finish; auto | auto]. }
    eapply triple_bind; [| intros [] | auto].
    { apply triple_update with (Q := fun _ _ => True).
      intros j Hr _. split; [apply step_same; auto | auto]. }
    eapply triple_bind; [apply triple_get_job with (Q := fun r j => r = inr j) | intros j0 | ].
    { auto. }
    2: { intros e' j H. discriminate. }
    apply triple_update. intros j Hr H. split; [apply step_same; auto | auto].
Qed.

(** Claim C7: the callback stores the clamped percent, which lies in
    [0, 100], and appends exactly one log entry; and over a whole run of
    the worker, whatever the repository, the generator and the file
    system do, the progress values of the successive observations of the
    job record lie in [0, 100], never decrease, and stay constant from
    the first observation of a terminal status on. *)
Theorem progress_monotone_clamped :
  (forall (pct : Z) (label msg : string) (st : PState),
     let j' := ps_job (snd (progress_cb pct label msg st)) in
     progress j' = clamp pct /\ (0 <= clamp pct <= 100)%Z /\
     logs j' = (logs (ps_job st) ++ [mkLog (clamp pct) label msg])%list) /\
  (forall (cwd : string) (x : Ext) (opts : BuildOptions) (fs : FS),
     let seen := ps_seen (snd (run_job cwd x opts (init_state fs))) in
     progress_ok seen = true /\ progress_in_range seen = true).
Proof.
  split.
  - intros pct label msg [fs j seen]. unfold progress_cb, bind, update_job, get_job, ret. cbn.
    destruct (negb (is_terminal (status j))); cbn; repeat split; apply clamp_range.
  - intros cwd x opts fs.
    assert (Hi : Inv (init_state fs)).
    { unfold Inv, init_state. cbn. repeat split; try lia.
      repeat constructor; apply follows_refl. }
    destruct (triple_run_job cwd x opts (init_state fs) Hi (conj eq_refl eq_refl)) as [(H1 & H2 & _) _].
    split; assumption.
Qed.

Lemma materialize_allow_list_witness :
  is_allowed ALLOWED_ROOTS (block_rel "scripts/evil.sh") = false /\
  write_blocks "/" "/out" ALLOWED_ROOTS ([("unit-tests/A.java", "a")] ++ ("scripts/evil.sh", "x") :: [])%list 0 empty_fs
  = write_blocks "/" "/out" ALLOWED_ROOTS ([("unit-tests/A.java", "a")] ++ [])%list 0 empty_fs.
Proof.
  assert (H : is_allowed ALLOWED_ROOTS (block_rel "scripts/evil.sh") = false) by (vm_compute; reflexivity).
  split; [exact H |].
  exact (proj2 (proj2 (materialize_allow_list "/")) "/out" [("unit-tests/A.java", "a")]
           "scripts/evil.sh" "x" [] 0 empty_fs H).
Defined.

Lemma build_flags_radio_agree_witness :
  true = true /\ build_flags true true = (true, false).
Proof.
  split; [reflexivity |].
  exact (proj1 (proj2 (proj2 (build_flags_radio_agree true true))) eq_refl).
Defined.

(* ------------------------------------------------------------------ *)
(** ** The generation policy of run_pipeline *)

Lemma bind_inr {A B} (c : M A) (k : A -> M B) st a st' :
  c st = (inr a, st') -> bind c k st = k a st'.
Proof. intros H. unfold bind. rewrite H. reflexivity. Qed.

Lemma bind_inl {A B} (c : M A) (k : A -> M B) st e st' :
  c st = (inl e, st') -> bind c k st = (inl e, st').
Proof. intros H. unfold bind. rewrite H. reflexivity. Qed.

Lemma bind_inr_inv {A B} (c : M A) (k : A -> M B) st b st'' :
  bind c k st = (inr b, st'') -> exists a st', c st = (inr a, st') /\ k a st' = (inr b, st'').
Proof.
  unfold bind. destruct (c st) as [[e|a] st'] eqn:E; [discriminate |]. eauto.
Qed.

Lemma try_eq {A} (c : M A) st r st' : c st = (r, st') -> try_ c st = (inr r, st').
Proof. intros H. unfold try_. rewrite H. reflexivity. Qed.

Lemma progress_cb_fs (pct : Z) (label msg : string) (st : PState) :
  exists st', progress_cb pct label msg st = (inr tt, st') /\ ps_fs st' = ps_fs st.
Proof.
  destruct st as [fs j seen]. unfold progress_cb, bind, update_job, get_job, ret. cbn.
  destruct (negb (is_terminal (status j))); cbn; eexists; split; reflexivity.
Qed.

Lemma raises_os_ret {A} (a : A) : raises_os (ret a).
Proof. intros st e st' H. discriminate. Qed.

Lemma raises_os_read_fs {A} (f : FS -> A) : raises_os (read_fs f).
Proof. intros st e st' H. discriminate. Qed.

Lemma raises_os_update_job (f : Job -> Job) : raises_os (update_job f).
Proof. intros st e st' H. discriminate. Qed.

Lemma raises_os_get_job : raises_os get_job.
Proof. intros st e st' H. discriminate. Qed.

Lemma raises_os_makedirs (cwd p : string) : raises_os (makedirs cwd p).
Proof.
  intros [fs j seen] e st' H. unfold makedirs, fs_step, on_fs in H. cbn in H.
  destruct (fs_makedirs _ fs) as [e' | fs'] eqn:E; cbn in H; [| discriminate].
  injection H as <- _. apply fs_makedirs_inl in E as [-> _]. exact I.
Qed.

Lemma raises_os_write_text (cwd p t : string) : raises_os (write_text cwd p t).
Proof.
  intros [fs j seen] e st' H. unfold write_text, fs_step, on_fs in H. cbn in H.
  destruct (fs_write _ _ fs) as [e' | fs'] eqn:E; cbn in H; [| discriminate].
  injection H as <- _. apply fs_write_inl in E as [-> _]. exact I.
Qed.

Lemma raises_os_bind {A B} (c : M A) (k : A -> M B) :
  raises_os c -> (forall a, raises_os (k a)) -> raises_os (bind c k).
Proof.
  intros Hc Hk st e st' H. unfold bind in H.
  destruct (c st) as [[e'|a] st1] eqn:E.
  - injection H as <- _. exact (Hc _ _ _ E).
  - exact (Hk a _ _ _ H).
Qed.

Lemma raises_os_progress_cb (pct : Z) (label msg : string) : raises_os (progress_cb pct label msg).
Proof.
  intros st e st' H. destruct (progress_cb_fs pct label msg st) as (st1 & E & _).
  rewrite E in H. discriminate.
Qed.

Ltac os_tac :=
  repeat first
  [ progress cbv beta iota zeta
  | match goal with
    | |- raises_os (bind _ _) => apply raises_os_bind; [| intros ?]
    | |- raises_os (match ?x with _ => _ end) => destruct x
    | |- raises_os (ret _) => apply raises_os_ret
    | |- raises_os (read_fs _) => apply raises_os_read_fs
    | |- raises_os (update_job _) => apply raises_os_update_job
    | |- raises_os get_job => apply raises_os_get_job
    | |- raises_os (makedirs _ _) => apply raises_os_makedirs
    | |- raises_os (write_text _ _ _) => apply raises_os_write_text
    | |- raises_os (progress_cb _ _ _) => apply raises_os_progress_cb
    end ].

Lemma raises_os_package cwd base_dir opts out_root summaries do_unit do_bdd used_ai :
  raises_os (package cwd base_dir opts out_root summaries do_unit do_bdd used_ai).
Proof. unfold package, fallback_scaffold, zip_dir_fs. os_tac. Qed.

Lemma write_text_present cwd p t st u st' :
  write_text cwd p t st = (inr u, st') -> files (ps_fs st') !! abspath cwd p = Some t.
Proof.
  destruct st as [fs j seen]. unfold write_text, fs_step, on_fs. cbn.
  destruct (fs_write _ _ fs) as [e | fs'] eqn:E; cbn; [discriminate |].
  intros H. injection H as _ <-. cbn.
  apply fs_write_inr in E as [-> _]. cbn. apply lookup_insert_eq.
Qed.

Lemma progress_cb_inr_fs (pct : Z) (label msg : string) st u st' :
  progress_cb pct label msg st = (inr u, st') -> ps_fs st' = ps_fs st.
Proof.
  intros H. destruct (progress_cb_fs pct label msg st) as (st1 & E & Hf).
  rewrite E in H. injection H as _ <-. exact Hf.
Qed.

Lemma zip_dir_fs_present cwd src zip st u st' :
  zip_dir_fs cwd src zip st = (inr u, st') -> abspath cwd zip ∈ dom (files (ps_fs st')).
Proof.
  unfold zip_dir_fs. intros H.
  apply bind_inr_inv in H as (u1 & s1 & _ & H).
  apply bind_inr_inv in H as (es & s2 & _ & H).
  apply write_text_present in H. apply elem_of_dom. rewrite H. eexists. reflexivity.
Qed.

Lemma path_join_nonempty (a b : string) : b <> "" -> path_join a b <> "".
Proof.
  intros Hb. unfold path_join.
  destruct (startswith b "/"); [exact Hb |].
  destruct (String.eqb a "" || endswith a "/"); destruct a; cbn; try discriminate; exact Hb.
Qed.

Lemma package_ok cwd base_dir opts out_root summaries do_unit do_bdd used_ai st zp st' :
  package cwd base_dir opts out_root summaries do_unit do_bdd used_ai st = (inr zp, st') ->
  zp = path_join (path_join base_dir "artifacts") (job_id opts ++ "-tests.zip") /\
  zp <> "" /\ abspath cwd zp ∈ dom (files (ps_fs st')).
Proof.
  unfold package. intros H.
  apply bind_inr_inv in H as (u1 & s1 & _ & H). cbv beta zeta in H.
  apply bind_inr_inv in H as (u2 & s2 & _ & H).
  apply bind_inr_inv in H as (u3 & s3 & _ & H).
  apply bind_inr_inv in H as (u4 & s4 & Hz & H).
  apply bind_inr_inv in H as (u5 & s5 & Hp & H).
  injection H as <- <-.
  apply zip_dir_fs_present in Hz. apply progress_cb_inr_fs in Hp.
  split; [reflexivity |]. split.
  - apply path_join_nonempty. destruct (job_id opts); discriminate.
  - rewrite Hp. exact Hz.
Qed.

(** with no key, the generation stage fails and leaves the files alone *)
Lemma generation_stage_no_key cwd x opts out_root st :
  key_present (ext_env_key x) = false ->
  exists e st', generation_stage cwd x opts out_root st = (inl e, st') /\ ps_fs st' = ps_fs st.
Proof.
  intros Hk. unfold generation_stage.
  destruct (progress_cb_fs 55 "CrewAI generation" "" st) as (s1 & E & Hf).
  rewrite (bind_inr _ _ _ _ _ E).
  unfold on_fs, run_crewai_generation. rewrite Hk. cbn.
  destruct s1 as [fs1 j1 seen1]. cbn in Hf |- *.
  destruct (negb (String.eqb (py_lower _) "openai")); cbn;
    eexists; eexists; split; try reflexivity; exact Hf.
Qed.

Lemma run_job_pipeline_err cwd x opts fs e st' :
  run_pipeline cwd cwd x opts (started fs) = (inl e, st') ->
  status (ps_job (snd (run_job cwd x opts (init_state fs)))) = "failed" /\
  message (ps_job (snd (run_job cwd x opts (init_state fs)))) = ("Error: " ++ exn_msg e)%string /\
  ps_fs (snd (run_job cwd x opts (init_state fs))) = ps_fs st'.
Proof.
  intros H. unfold run_job.
  remember (run_pipeline cwd cwd x opts) as rp eqn:Hrp.
  unfold started in H.
  unfold bind, try_, update_job, init_state, ret, get_job, read_fs, raise, finish_ok in *.
  cbn in H |- *. rewrite H. cbn. auto.
Qed.

Lemma run_job_pipeline_ok cwd x opts fs zp st' :
  run_pipeline cwd cwd x opts (started fs) = (inr zp, st') ->
  zp <> "" -> abspath cwd zp ∈ dom (files (ps_fs st')) ->
  status (ps_job (snd (run_job cwd x opts (init_state fs)))) = "succeeded" /\
  artifact (ps_job (snd (run_job cwd x opts (init_state fs)))) = Some zp /\
  ps_fs (snd (run_job cwd x opts (init_state fs))) = ps_fs st'.
Proof.
  intros H Hne Hin. unfold run_job.
  remember (run_pipeline cwd cwd x opts) as rp eqn:Hrp.
  unfold started in H.
  unfold bind, try_, update_job, init_state, ret, get_job, read_fs, raise, finish_ok in *.
  cbn in H |- *. rewrite H. cbn.
  apply String.eqb_neq in Hne. rewrite Hne. rewrite bool_decide_eq_true_2 by exact Hin.
  cbn. auto.
Qed.

Lemma run_pipeline_after_fetch cwd base_dir x opts st0 out_root sums du db st1 :
  fetch_and_scan cwd base_dir x opts st0 = (inr (out_root, sums, du, db), st1) ->
  run_pipeline cwd base_dir x opts st0
  = bind (generate_with_policy cwd x opts out_root)
         (fun used_ai => package cwd base_dir opts out_root sums du db used_ai) st1.
Proof. intros H. unfold run_pipeline. rewrite (bind_inr _ _ _ _ _ H). reflexivity. Qed.

Lemma generate_with_policy_failed cwd x opts out_root st1 e st2 :
  generation_stage cwd x opts out_root st1 = (inl e, st2) ->
  generate_with_policy cwd x opts out_root st1
  = (if key_present (ext_env_key x) then raise e
     else _ <- write_text cwd (path_join out_root "NOTICE.txt") (NOTICE_TEXT ++ exn_msg e) ;;
          ret false) st2.
Proof.
  intros H. unfold generate_with_policy. cbv zeta.
  rewrite (bind_inr _ _ _ _ _ (try_eq _ _ _ _ H)). reflexivity.
Qed.

(** Claim C4: once the repository is fetched and scanned (from the
    worker's start, with output root [out_root]),
    (a) when OPENAI_API_KEY is set, a failure of the generation stage with
    exception [e] ends the job failed with message "Error: " ++ str(e),
    and the files are those the generation stage left: no NOTICE.txt, no
    scaffold, no archive;
    (b) when it is not set, the generation stage fails without touching
    the files; the policy step either writes NOTICE.txt with the notice
    and str(e) and returns [used_ai = False] (so the fallback scaffold
    runs), or raises the error of that write; and the job ends either
    succeeded, with the archive artifacts/<job id>-tests.zip as artifact
    and present on disk, or failed on a file system error (a path of
    the scaffold or the archive that is taken by a file or a directory). *)
Theorem generation_policy (cwd : string) (x : Ext) (opts : BuildOptions) (fs : FS)
  (out_root : string) (sums : list (option string * option string)) (du db : bool) (st1 : PState) :
  fetch_and_scan cwd cwd x opts (started fs) = (inr (out_root, sums, du, db), st1) ->
  let final := snd (run_job cwd x opts (init_state fs)) in
  (key_present (ext_env_key x) = true ->
   forall e st2, generation_stage cwd x opts out_root st1 = (inl e, st2) ->
   status (ps_job final) = "failed" /\
   message (ps_job final) = ("Error: " ++ exn_msg e)%string /\
   ps_fs final = ps_fs st2) /\
  (key_present (ext_env_key x) = false ->
   exists e st2,
   generation_stage cwd x opts out_root st1 = (inl e, st2) /\ ps_fs st2 = ps_fs st1 /\
   ((exists st3, generate_with_policy cwd x opts out_root st1 = (inr false, st3) /\
       files (ps_fs st3) !! abspath cwd (path_join out_root "NOTICE.txt")
       = Some (NOTICE_TEXT ++ exn_msg e)%string) \/
    (exists m st3, generate_with_policy cwd x opts out_root st1 = (inl (OSError m), st3))) /\
   ((status (ps_job final) = "succeeded" /\
     artifact (ps_job final)
     = Some (path_join (path_join cwd "artifacts") (job_id opts ++ "-tests.zip")) /\
     abspath cwd (path_join (path_join cwd "artifacts") (job_id opts ++ "-tests.zip"))
       ∈ dom (files (ps_fs final))) \/
    (status (ps_job final) = "failed" /\
     exists e', os_error e' /\ message (ps_job final) = ("Error: " ++ exn_msg e')%string))).
Proof.
  intros Hfetch final. split.
  - intros Hk e st2 Hg.
    assert (Hp : run_pipeline cwd cwd x opts (started fs) = (inl e, st2)).
    { rewrite (run_pipeline_after_fetch _ _ _ _ _ _ _ _ _ _ Hfetch).
      apply bind_inl. rewrite (generate_with_policy_failed _ _ _ _ _ _ _ Hg), Hk. reflexivity. }
    exact (run_job_pipeline_err _ _ _ _ _ _ Hp).
  - intros Hk.
    destruct (generation_stage_no_key cwd x opts out_root st1 Hk) as (e & st2 & Hg & Hf).
    exists e, st2. split; [exact Hg |]. split; [exact Hf |].
    pose proof (generate_with_policy_failed _ _ _ _ _ _ _ Hg) as Hpol. rewrite Hk in Hpol.
    destruct (write_text cwd (path_join out_root "NOTICE.txt") (NOTICE_TEXT ++ exn_msg e) st2)
      as [[e' | u] st3] eqn:Hw.
    + pose proof (raises_os_write_text _ _ _ _ _ _ Hw) as Hos.
      rewrite (bind_inl _ _ _ _ _ Hw) in Hpol.
      assert (Hp : run_pipeline cwd cwd x opts (started fs) = (inl e', st3)).
      { rewrite (run_pipeline_after_fetch _ _ _ _ _ _ _ _ _ _ Hfetch).
        apply bind_inl. exact Hpol. }
      destruct (run_job_pipeline_err _ _ _ _ _ _ Hp) as (Hs & Hm & _).
      split.
      * right. destruct e'; try contradiction. eauto.
      * right. split; [exact Hs |]. exists e'. split; [exact Hos | exact Hm].
    + rewrite (bind_inr _ _ _ _ _ Hw) in Hpol. cbn in Hpol.
      split.
      { left. exists st3. split; [exact Hpol |]. exact (write_text_present _ _ _ _ _ _ Hw). }
      assert (Hp : run_pipeline cwd cwd x opts (started fs)
                   = package cwd cwd opts out_root sums du db false st3).
      { rewrite (run_pipeline_after_fetch _ _ _ _ _ _ _ _ _ _ Hfetch).
        apply bind_inr. exact Hpol. }
      destruct (package cwd cwd opts out_root sums du db false st3) as [[e' | zp] st4] eqn:Hpk.
      * pose proof (raises_os_package _ _ _ _ _ _ _ _ _ _ _ Hpk) as Hos.
        destruct (run_job_pipeline_err _ _ _ _ _ _ Hp) as (Hs & Hm & _).
        right. split; [exact Hs |]. exists e'. split; [exact Hos | exact Hm].
      * destruct (package_ok _ _ _ _ _ _ _ _ _ _ _ Hpk) as (-> & Hne & Hin).
        destruct (run_job_pipeline_ok _ _ _ _ _ _ Hp Hne Hin) as (Hs & Ha & Hfs).
        left. split; [exact Hs |]. split; [exact Ha |]. unfold final. rewrite Hfs. exact Hin.
Qed.

Lemma generation_policy_witness :
  status (ps_job (snd (run_job "/srv" (demo_ext (Some "sk-test")) demo_opts (init_state empty_fs))))
    = "failed" /\
  (status (ps_job (snd (run_job "/srv" (demo_ext None) demo_opts (init_state empty_fs)))) = "succeeded" \/
   status (ps_job (snd (run_job "/srv" (demo_ext None) demo_opts (init_state empty_fs)))) = "failed") /\
  status (ps_job (snd (run_job "/srv" (demo_ext None) demo_opts (init_state empty_fs)))) = "succeeded".
Proof.
  split; [| split].
  - assert (Hf : fetch_and_scan "/srv" "/srv" (demo_ext (Some "sk-test")) demo_opts (started empty_fs)
                 = (inr ("/srv/work/job1/generated-tests", [(Some "com.acme", Some "Foo")], true, false),
                    snd (fetch_and_scan "/srv" "/srv" (demo_ext (Some "sk-test")) demo_opts (started empty_fs))))
      by (vm_compute; reflexivity).
    assert (Hg : generation_stage "/srv" (demo_ext (Some "sk-test")) demo_opts "/srv/work/job1/generated-tests"
                   (snd (fetch_and_scan "/srv" "/srv" (demo_ext (Some "sk-test")) demo_opts (started empty_fs)))
                 = (inl (GeneratorError "rate limited"),
                    snd (generation_stage "/srv" (demo_ext (Some "sk-test")) demo_opts "/srv/work/job1/generated-tests"
                          (snd (fetch_and_scan "/srv" "/srv" (demo_ext (Some "sk-test")) demo_opts (started empty_fs))))))
      by (vm_compute; reflexivity).
    exact (proj1 (proj1 (generation_policy _ _ _ _ _ _ _ _ _ Hf) eq_refl _ _ Hg)).
  - assert (Hf : fetch_and_scan "/srv" "/srv" (demo_ext None) demo_opts (started empty_fs)
                 = (inr ("/srv/work/job1/generated-tests", [(Some "com.acme", Some "Foo")], true, false),
                    snd (fetch_and_scan "/srv" "/srv" (demo_ext None) demo_opts (started empty_fs))))
      by (vm_compute; reflexivity).
    destruct (proj2 (generation_policy _ _ _ _ _ _ _ _ _ Hf) eq_refl)
      as (e & st2 & _ & _ & _ & [[Hs _] | [Hs _]]); [left | right]; exact Hs.
  - vm_compute. reflexivity.
Defined.

(* ------------------------------------------------------------------ *)
(** ** Paths as lists of components *)

Lemma split_on_nonempty (c : ascii) (s : string) : split_on c s <> [].
Proof.
  induction s as [|a s IH]; cbn; [discriminate |].
  destruct (split_on c s); [contradiction |].
  destruct (Ascii.eqb a c); discriminate.
Qed.

Lemma split_app_slash (s1 s2 : string) :
  split_on slash (s1 ++ String slash s2) = (split_on slash s1 ++ split_on slash s2)%list.
Proof.
  induction s1 as [|a s1 IH]; simpl.
  - destruct (split_on slash s2) eqn:E; [exact (False_rect _ (split_on_nonempty _ _ E)) |].
    reflexivity.
  - rewrite IH. destruct (split_on slash s1) as [|w ws] eqn:E.
    + exact (False_rect _ (split_on_nonempty _ _ E)).
    + cbn. destruct (Ascii.eqb a slash); reflexivity.
Qed.

Lemma prefix_slash (a : ascii) (s : string) : String.prefix "/" (String a s) = Ascii.eqb a slash.
Proof. destruct a as [[] [] [] [] [] [] [] []]; destruct s; reflexivity. Qed.

Lemma contains_slash_eq (a : ascii) (s : string) :
  contains (String a s) "/" = Ascii.eqb a slash || contains s "/".
Proof.
  change (contains (String a s) "/") with (String.prefix "/" (String a s) || contains s "/").
  rewrite prefix_slash. reflexivity.
Qed.

Lemma contains_slash_cons (a : ascii) (s : string) :
  contains (String a s) "/" = false -> a <> slash /\ contains s "/" = false.
Proof.
  rewrite contains_slash_eq. intros H. apply orb_false_iff in H as [Ha Hs].
  split; [apply Ascii.eqb_neq; exact Ha | exact Hs].
Qed.

Lemma split_no_slash (s : string) : contains s "/" = false -> split_on slash s = [s].
Proof.
  induction s as [|a s IH]; [reflexivity |].
  intros H. apply contains_slash_cons in H as [Ha Hs].
  cbn. rewrite (IH Hs). apply Ascii.eqb_neq in Ha. rewrite Ha. reflexivity.
Qed.

Lemma split_no_slash_elems (s : string) :
  Forall (fun w => contains w "/" = false) (split_on slash s).
Proof.
  induction s as [|a s IH]; cbn; [repeat constructor |].
  destruct (split_on slash s) as [|w ws] eqn:E; [exact (False_rect _ (split_on_nonempty _ _ E)) |].
  inversion IH as [|? ? Hw Hws]; subst.
  destruct (Ascii.eqb a slash) eqn:Ha; constructor; try assumption.
  - constructor; assumption.
  - rewrite contains_slash_eq, Ha. exact Hw.
Qed.

Lemma split_join (l : list string) :
  Forall good_comp l -> l <> [] -> split_on slash (join_with "/" l) = l.
Proof.
  induction l as [|w ws IH]; intros Hl Hne; [contradiction |].
  inversion Hl as [|? ? [Hw1 Hw2] Hws]; subst.
  destruct ws as [|w' ws'].
  - exact (split_no_slash _ Hw2).
  - change (join_with "/" (w :: w' :: ws')) with (w ++ String slash (join_with "/" (w' :: ws')))%string.
    rewrite split_app_slash, (split_no_slash _ Hw2), IH; [reflexivity | exact Hws | discriminate].
Qed.

Lemma comps_join (l : list string) : Forall good_comp l -> comps (join_with "/" l) = l.
Proof.
  intros Hl. destruct l as [|w ws]; [reflexivity |].
  unfold comps. rewrite split_join by (assumption || discriminate).
  induction Hl as [|x l [Hx _] _ IH]; [reflexivity |].
  cbn. apply String.eqb_neq in Hx. rewrite Hx. cbn. f_equal. exact IH.
Qed.

Lemma norm_comps_app (i : nat) (l1 l2 acc : list string) :
  norm_comps i (l1 ++ l2) acc = norm_comps i l2 (norm_comps i l1 acc).
Proof.
  revert acc. induction l1 as [|c l1 IH]; intros acc; [reflexivity |].
  cbn [app norm_comps].
  destruct (String.eqb c "" || String.eqb c "."); [apply IH |].
  destruct (_ || _ || _); [apply IH |].
  destruct acc; apply IH.
Qed.

Lemma norm_comps_empties (i : nat) (l acc : list string) :
  Forall (fun c => c = "") l -> norm_comps i l acc = acc.
Proof.
  intros H. revert acc. induction H as [|c l Hc _ IH]; intros acc; [reflexivity |].
  subst c. cbn. apply IH.
Qed.

Lemma valid_name_good (n : string) : valid_name n = true -> good_comp n.
Proof.
  unfold valid_name. intros H.
  apply andb_true_iff in H as [H H4]. apply andb_true_iff in H as [H _].
  apply andb_true_iff in H as [H1 _].
  apply negb_true_iff in H1, H4. apply String.eqb_neq in H1. split; assumption.
Qed.

Lemma norm_comps_name (i : nat) (n : string) (acc : list string) :
  valid_name n = true -> norm_comps i [n] acc = n :: acc.
Proof.
  unfold valid_name. intros H.
  apply andb_true_iff in H as [H _]. apply andb_true_iff in H as [H H3].
  apply andb_true_iff in H as [H1 H2].
  apply negb_true_iff in H1, H2, H3. cbn [norm_comps].
  rewrite H1, H2, H3. reflexivity.
Qed.

Lemma norm_comps_initial (i j : nat) (l acc : list string) :
  i <> 0 -> j <> 0 -> norm_comps i l acc = norm_comps j l acc.
Proof.
  intros Hi Hj. apply Nat.eqb_neq in Hi, Hj.
  revert acc. induction l as [|c l IH]; intros acc; [reflexivity |].
  cbn [norm_comps]. rewrite Hi, Hj.
  destruct (_ || _); [apply IH |].
  destruct (_ || _ || _); [apply IH |]. destruct acc; apply IH.
Qed.

Lemma norm_comps_good (i : nat) (l acc : list string) :
  Forall good_comp acc -> Forall (fun w => contains w "/" = false) l ->
  Forall good_comp (norm_comps i l acc).
Proof.
  intros Hacc Hl. revert acc Hacc. induction Hl as [|c l Hc _ IH]; intros acc Hacc; [exact Hacc |].
  cbn [norm_comps].
  destruct (String.eqb c "" || String.eqb c ".") eqn:E; [apply IH, Hacc |].
  apply orb_false_iff in E as [E _]. apply String.eqb_neq in E.
  destruct (_ || _ || _); [apply IH; constructor; [split |]; assumption |].
  destruct acc as [|a acc]; apply IH; [constructor | inversion Hacc; assumption].
Qed.

Lemma comps_slash (s : string) : comps (String slash s) = comps s.
Proof.
  unfold comps. change (String slash s) with ("" ++ String slash s)%string.
  rewrite split_app_slash. reflexivity.
Qed.

Lemma comps_repeat_slash (k : nat) (s : string) : comps (repeat_str k "/" ++ s) = comps s.
Proof.
  induction k as [|k IH]; [reflexivity |].
  change (repeat_str (S k) "/" ++ s)%string with (String slash (repeat_str k "/" ++ s)).
  rewrite comps_slash. exact IH.
Qed.

Lemma startswith_slash (x : string) : startswith x "/" = true -> exists s, x = String slash s.
Proof.
  destruct x as [|a s]; [discriminate |]. unfold startswith. rewrite prefix_slash.
  intros H. apply Ascii.eqb_eq in H. subst a. eauto.
Qed.

Lemma comps_normpath_abs (x : string) :
  startswith x "/" = true -> comps (normpath x) = rev (norm_comps 1 (split_on slash x) []).
Proof.
  intros Hx. destruct (startswith_slash x Hx) as [s ->].
  unfold normpath. cbn [String.eqb]. rewrite Hx.
  set (initial := if (startswith (String slash s) "//" && negb (startswith (String slash s) "///"))%bool
                  then 2 else 1).
  assert (Hi : initial <> 0) by (unfold initial; destruct (_ && _); discriminate).
  destruct initial as [|k] eqn:Ei; [contradiction |].
  assert (Hr : forall r, (("/" ++ repeat_str k "/") ++ r)%string = String slash (repeat_str k "/" ++ r))
    by reflexivity.
  change (repeat_str (S k) "/") with ("/" ++ repeat_str k "/")%string.
  rewrite Hr. change (String.eqb (String slash _) "") with false. cbv iota.
  rewrite comps_slash, comps_repeat_slash, comps_join.
  - f_equal. apply norm_comps_initial; [exact Hi | discriminate].
  - apply Forall_rev. apply norm_comps_good; [constructor | apply split_no_slash_elems].
Qed.

Lemma str_app_cons (x : ascii) (a b : string) : (String x a ++ b)%string = String x (a ++ b).
Proof. reflexivity. Qed.

Lemma str_app_assoc (a b c : string) : ((a ++ b) ++ c)%string = (a ++ b ++ c)%string.
Proof. induction a as [|x a IH]; [reflexivity | exact (f_equal (String x) IH)]. Qed.

Lemma str_app_nil (a : string) : (a ++ "")%string = a.
Proof. induction a as [|x a IH]; [reflexivity | exact (f_equal (String x) IH)]. Qed.

Lemma rev_str_app (a b : string) : rev_str (a ++ b) = (rev_str b ++ rev_str a)%string.
Proof.
  induction a as [|x a IH].
  - change (rev_str ("" ++ b)) with (rev_str b). change (rev_str "") with "".
    rewrite str_app_nil. reflexivity.
  - rewrite str_app_cons. change (rev_str (String x (a ++ b))) with (rev_str (a ++ b) ++ String x "")%string.
    change (rev_str (String x a)) with (rev_str a ++ String x "")%string.
    rewrite IH, str_app_assoc. reflexivity.
Qed.

Lemma rev_str_involutive (s : string) : rev_str (rev_str s) = s.
Proof.
  induction s as [|x s IH]; [reflexivity |].
  change (rev_str (String x s)) with (rev_str s ++ String x "")%string.
  rewrite rev_str_app, IH. reflexivity.
Qed.

Lemma rev_str_nonempty (s : string) : s <> "" -> rev_str s <> "".
Proof. intros H E. apply H. rewrite <- (rev_str_involutive s), E. reflexivity. Qed.

Lemma startswith_app (p x : string) : p <> "" -> startswith (p ++ x) "/" = startswith p "/".
Proof.
  destruct p as [|a p]; [contradiction |]. intros _. unfold startswith.
  change (String a p ++ x)%string with (String a (p ++ x)). rewrite !prefix_slash. reflexivity.
Qed.

Lemma endswith_app (a b : string) : b <> "" -> endswith (a ++ b) "/" = endswith b "/".
Proof.
  intros Hb. unfold endswith. rewrite rev_str_app.
  destruct (rev_str b) as [|c r] eqn:E; [exact (False_rect _ (rev_str_nonempty b Hb E)) |].
  change (rev_str "/") with "/".
  change (String c r ++ rev_str a)%string with (String c (r ++ rev_str a)).
  rewrite !prefix_slash. reflexivity.
Qed.

Lemma endswith_decomp (s : string) : endswith s "/" = true -> exists s0, s = (s0 ++ "/")%string.
Proof.
  unfold endswith. change (rev_str "/") with "/". intros H.
  destruct (startswith_slash (rev_str s) H) as [r Hr].
  exists (rev_str r). rewrite <- (rev_str_involutive s), Hr. reflexivity.
Qed.

Lemma valid_name_no_lead (n : string) : valid_name n = true -> startswith n "/" = false /\ n <> "".
Proof.
  intros H. destruct (valid_name_good n H) as [Hne Hs]. split; [| exact Hne].
  destruct n as [|a n]; [contradiction |]. unfold startswith. rewrite prefix_slash.
  apply contains_slash_cons in Hs as [Ha _]. apply Ascii.eqb_neq. exact Ha.
Qed.

Lemma path_join_valid (p n : string) :
  valid_name n = true -> p <> "" ->
  path_join p n = (if endswith p "/" then p ++ n else p ++ "/" ++ n)%string.
Proof.
  intros Hn Hp. destruct (valid_name_no_lead n Hn) as [Hl _].
  unfold path_join. rewrite Hl. apply String.eqb_neq in Hp. rewrite Hp. reflexivity.
Qed.

Lemma isabs_nonempty (p : string) : isabs p = true -> p <> "".
Proof. intros H ->. discriminate. Qed.

Lemma abs_base_join (cwd p n : string) :
  isabs cwd = true -> p <> "" -> valid_name n = true ->
  (if isabs (path_join p n) then path_join p n else path_join cwd (path_join p n))
  = path_join (if isabs p then p else path_join cwd p) n.
Proof.
  intros Hc Hp Hn. pose proof (isabs_nonempty _ Hc) as Hc'.
  destruct (valid_name_no_lead n Hn) as [_ Hn'].
  assert (Habs : isabs (path_join p n) = isabs p).
  { rewrite path_join_valid by assumption. unfold isabs.
    destruct (endswith p "/"); apply startswith_app; exact Hp. }
  rewrite Habs. destruct (isabs p) eqn:Ep; [reflexivity |].
  assert (Hpj : path_join cwd p = (if endswith cwd "/" then cwd ++ p else cwd ++ "/" ++ p)%string).
  { unfold path_join. unfold isabs in Ep. rewrite Ep. apply String.eqb_neq in Hc'. rewrite Hc'. reflexivity. }
  assert (Hpjn_ne : path_join cwd p <> "").
  { rewrite Hpj. destruct (endswith cwd "/"); destruct cwd; try contradiction; discriminate. }
  assert (He : endswith (path_join cwd p) "/" = endswith p "/").
  { rewrite Hpj. destruct (endswith cwd "/"); [apply endswith_app; exact Hp |].
    rewrite endswith_app by discriminate. change ("/" ++ p)%string with ("/" ++ p)%string.
    rewrite endswith_app by exact Hp. reflexivity. }
  rewrite (path_join_valid (path_join cwd p) n Hn Hpjn_ne), He.
  rewrite (path_join_valid p n Hn Hp).
  unfold path_join at 1.
  assert (Hl : startswith (if endswith p "/" then p ++ n else p ++ "/" ++ n)%string "/" = false).
  { destruct (endswith p "/"); rewrite startswith_app by exact Hp; exact Ep. }
  rewrite Hl. apply String.eqb_neq in Hc'. rewrite Hc'. cbn [orb].
  rewrite Hpj.
  destruct (endswith cwd "/"); destruct (endswith p "/"); rewrite ?str_app_assoc; reflexivity.
Qed.

Lemma comps_abspath_join (cwd p n : string) :
  isabs cwd = true -> p <> "" -> valid_name n = true ->
  comps (abspath cwd (path_join p n)) = (comps (abspath cwd p) ++ [n])%list.
Proof.
  intros Hc Hp Hn. unfold abspath. rewrite abs_base_join by assumption.
  set (x := if isabs p then p else path_join cwd p).
  assert (Hx : startswith x "/" = true).
  { unfold x. destruct (isabs p) eqn:E; [exact E |].
    unfold path_join. unfold isabs in E. rewrite E.
    pose proof (isabs_nonempty _ Hc) as Hc'. apply String.eqb_neq in Hc'. rewrite Hc'. cbn [orb].
    destruct (endswith cwd "/"); rewrite startswith_app by exact (isabs_nonempty _ Hc); exact Hc. }
  assert (Hxne : x <> "") by (intros E; rewrite E in Hx; discriminate).
  assert (Hxn : startswith (path_join x n) "/" = true).
  { rewrite path_join_valid by assumption.
    destruct (endswith x "/"); rewrite startswith_app by exact Hxne; exact Hx. }
  rewrite (comps_normpath_abs _ Hxn), (comps_normpath_abs _ Hx).
  rewrite path_join_valid by assumption.
  destruct (endswith x "/") eqn:Ee.
  - destruct (endswith_decomp x Ee) as [s0 Hs0]. rewrite Hs0.
    rewrite str_app_assoc.
    change ("/" ++ n)%string with (String slash n).
    change ("/")%string with (String slash "").
    rewrite !split_app_slash, !norm_comps_app.
    rewrite (split_no_slash n) by exact (proj2 (valid_name_good n Hn)).
    rewrite norm_comps_name by exact Hn.
    rewrite (norm_comps_empties 1 (split_on slash "")) by (repeat constructor).
    reflexivity.
  - change ("/" ++ n)%string with (String slash n).
    rewrite split_app_slash, norm_comps_app.
    rewrite (split_no_slash n) by exact (proj2 (valid_name_good n Hn)).
    rewrite norm_comps_name by exact Hn. reflexivity.
Qed.

Lemma contains_app_slash (s : string) : contains (s ++ "/") "/" = true.
Proof.
  induction s as [|a s IH]; [reflexivity |].
  rewrite str_app_cons, contains_slash_eq, IH. apply orb_true_r.
Qed.

Lemma good_comp_ends (x : string) : good_comp x -> endswith x "/" = false.
Proof.
  intros [_ Hx]. destruct (endswith x "/") eqn:E; [| reflexivity].
  destruct (endswith_decomp x E) as [s0 ->]. rewrite contains_app_slash in Hx. discriminate.
Qed.

Lemma good_comp_no_lead (x : string) : good_comp x -> startswith x "/" = false.
Proof.
  intros [Hne Hs]. destruct x as [|a x]; [contradiction |]. unfold startswith. rewrite prefix_slash.
  apply contains_slash_cons in Hs as [Ha _]. apply Ascii.eqb_neq. exact Ha.
Qed.

Lemma join_with_cons2 (r x : string) (xs : list string) :
  join_with "/" (r :: x :: xs) = (r ++ "/" ++ join_with "/" (x :: xs))%string.
Proof. reflexivity. Qed.

Lemma join_with_head (r x : string) (xs : list string) :
  join_with "/" ((r ++ "/" ++ x)%string :: xs) = (r ++ "/" ++ join_with "/" (x :: xs))%string.
Proof.
  destruct xs as [|y ys]; [reflexivity |].
  rewrite !join_with_cons2, !str_app_assoc. reflexivity.
Qed.

Lemma join_all_acc (r : string) (rs : list string) :
  r <> "" -> endswith r "/" = false -> Forall good_comp rs ->
  fold_left path_join rs r = join_with "/" (r :: rs).
Proof.
  intros Hr He Hrs. revert r Hr He.
  induction Hrs as [|x xs Hx _ IH]; intros r Hr He; [reflexivity |].
  assert (Hacc : path_join r x = (r ++ "/" ++ x)%string).
  { unfold path_join. rewrite (good_comp_no_lead x Hx), He.
    apply String.eqb_neq in Hr. rewrite Hr. reflexivity. }
  cbn [fold_left]. rewrite Hacc, IH, join_with_head; [reflexivity | |].
  - destruct r; [contradiction | discriminate].
  - assert (Hx1 : x <> "") by apply Hx.
    rewrite endswith_app by discriminate.
    rewrite endswith_app by exact Hx1. apply good_comp_ends, Hx.
Qed.

Lemma join_all_good (r : string) (rs : list string) :
  good_comp r -> Forall good_comp rs -> join_all r rs = join_with "/" (r :: rs).
Proof.
  intros Hr Hrs. apply join_all_acc; [apply Hr | apply good_comp_ends, Hr | exact Hrs].
Qed.

Lemma norm_comps_names (i : nat) (l acc : list string) :
  Forall (fun c => valid_name c = true) l -> norm_comps i l acc = (rev l ++ acc)%list.
Proof.
  intros Hl. revert acc. induction Hl as [|x xs Hx _ IH]; intros acc; [reflexivity |].
  change (x :: xs) with ([x] ++ xs)%list. rewrite norm_comps_app, norm_comps_name by exact Hx.
  rewrite IH. change ([x] ++ xs)%list with (x :: xs). cbn [rev]. rewrite <- List.app_assoc. reflexivity.
Qed.

Lemma valid_good_all (l : list string) :
  Forall (fun c => valid_name c = true) l -> Forall good_comp l.
Proof. intros H. induction H; constructor; [apply valid_name_good |]; assumption. Qed.

Lemma join_with_lead (r : string) (rs : list string) :
  good_comp r -> join_with "/" (r :: rs) <> "" /\ startswith (join_with "/" (r :: rs)) "/" = false.
Proof.
  intros Hr. pose proof (good_comp_no_lead r Hr) as Hl. destruct Hr as [Hne _].
  destruct rs as [|x xs]; [split; assumption |].
  rewrite join_with_cons2. split.
  - destruct r; [contradiction | discriminate].
  - rewrite startswith_app by exact Hne. exact Hl.
Qed.

Lemma zip_arcname_join (l : list string) :
  l <> [] -> Forall (fun c => valid_name c = true) l -> zip_arcname (join_with "/" l) = join_with "/" l.
Proof.
  intros Hne Hl. pose proof (valid_good_all l Hl) as Hg.
  destruct l as [|r rs]; [contradiction |].
  assert (Hr : good_comp r) by (inversion Hg; assumption).
  destruct (join_with_lead r rs Hr) as [HJ HJs].
  pose proof (split_join (r :: rs) Hg Hne) as Hsplit.
  set (J := join_with "/" (r :: rs)) in *.
  unfold zip_arcname, normpath. apply String.eqb_neq in HJ. rewrite HJ, HJs.
  rewrite Hsplit, norm_comps_names, app_nil_r, rev_involutive by exact Hl.
  change (repeat_str 0 "/" ++ join_with "/" (r :: rs))%string with J. rewrite HJ.
  apply String.eqb_neq in HJ. fold J in HJs.
  destruct J as [|a J']; [contradiction |]. cbn [lstrip_by].
  unfold startswith in HJs. rewrite prefix_slash in HJs. rewrite Ascii.eqb_sym, HJs. reflexivity.
Qed.

Lemma common_prefix_self (s x : list string) : common_prefix_len s (s ++ x) = length s.
Proof.
  induction s as [|a s IH].
  - destruct x; reflexivity.
  - cbn [app common_prefix_len length]. rewrite String.eqb_refl, IH. reflexivity.
Qed.

Lemma skipn_app_length {A} (s x : list A) : skipn (length s) (s ++ x) = x.
Proof. induction s as [|a s IH]; [reflexivity | exact IH]. Qed.

Lemma relpath_below (cwd src f fn : string) (pre : list string) :
  isabs cwd = true -> f <> "" -> valid_name fn = true ->
  Forall (fun c => valid_name c = true) pre ->
  comps (abspath cwd f) = (comps (abspath cwd src) ++ pre)%list ->
  relpath cwd (path_join f fn) src = join_with "/" (pre ++ [fn]).
Proof.
  intros Hc Hf Hn Hpre Hcomps. unfold relpath.
  rewrite comps_abspath_join, Hcomps, <- app_assoc by assumption.
  rewrite common_prefix_self, Nat.sub_diag, skipn_app_length. cbn [repeat app].
  assert (Hall : Forall good_comp (pre ++ [fn])).
  { apply valid_good_all, Forall_app. split; [exact Hpre | constructor; [exact Hn | constructor]]. }
  destruct (pre ++ [fn])%list as [|r rs] eqn:E; [destruct pre; discriminate |].
  inversion Hall; subst. apply join_all_good; assumption.
Qed.

Lemma walk_dir (top : string) (cs : list (string * node)) :
  walk top (DirNode cs) =
  (top, map fst (List.filter (fun e => is_dir (snd e)) cs),
        map fst (List.filter (fun e => negb (is_dir (snd e))) cs))
  :: flat_map (fun e => walk (path_join top (fst e)) (snd e)) cs.
Proof.
  cbn [walk]. f_equal. induction cs as [|[nm c] rest IH]; [reflexivity |].
  cbn [flat_map fst snd]. rewrite <- IH. reflexivity.
Qed.

Lemma tree_files_dir (cs : list (string * node)) :
  tree_files (DirNode cs) =
  (map (fun e => [fst e]) (List.filter (fun e => negb (is_dir (snd e))) cs) ++
   flat_map (fun e => map (cons (fst e)) (tree_files (snd e))) cs)%list.
Proof.
  cbn [tree_files]. f_equal. induction cs as [|[nm c] rest IH]; [reflexivity |].
  cbn [flat_map fst snd]. rewrite <- IH. reflexivity.
Qed.

Lemma valid_tree_dir (cs : list (string * node)) :
  valid_tree (DirNode cs) = forallb (fun e => valid_name (fst e) && valid_tree (snd e)) cs.
Proof.
  cbn [valid_tree]. induction cs as [|[nm c] rest IH]; [reflexivity |].
  cbn [forallb fst snd]. rewrite <- IH. reflexivity.
Qed.

Section ZipWalk.
Variables cwd src : string.
Hypothesis Hcwd : isabs cwd = true.

Lemma walk_entries (n : node) :
  valid_tree n = true ->
  forall top pre, top <> "" -> Forall (fun c => valid_name c = true) pre ->
  comps (abspath cwd top) = (comps (abspath cwd src) ++ pre)%list ->
  concat (map (fun '(folder, _, fns) =>
                 map (fun fn => zip_arcname (relpath cwd (path_join folder fn) src)) fns)
              (walk top n)) =
  map (fun rel => join_with "/" (pre ++ rel)) (tree_files n).
Proof.
  induction n as [c | cs IHcs] using node_ind'; [reflexivity |].
  intros Hv top pre Htop Hpre Hcomps.
  rewrite valid_tree_dir in Hv. pose proof (proj1 (List.forallb_forall _ _) Hv) as Hv1. clear Hv. rename Hv1 into Hv.
  rewrite walk_dir, tree_files_dir. cbn [map concat]. rewrite List.map_app.
  f_equal.
  - cbn beta iota. rewrite !List.map_map. apply List.map_ext_in.
    intros [nm c] Hin. apply filter_In in Hin as [Hin _].
    pose proof (Hv _ Hin) as Hnc. apply andb_true_iff in Hnc as [Hnm _].
    cbn [fst]. rewrite (relpath_below cwd src top nm pre); try assumption.
    apply zip_arcname_join; [destruct pre; discriminate |].
    apply Forall_app. split; [exact Hpre | constructor; [exact Hnm | constructor]].
  - revert Hv. induction IHcs as [|[nm c] rest IHc _ IHrest]; intros Hv; [reflexivity |].
    cbn [flat_map fst snd] in *. rewrite List.map_app, List.concat_app, List.map_app.
    pose proof (Hv (nm, c) (or_introl eq_refl)) as Hnc. apply andb_true_iff in Hnc as [Hnm Hc].
    f_equal.
    + rewrite (IHc Hc (path_join top nm) (pre ++ [nm])%list).
      * rewrite List.map_map. apply List.map_ext. intros rel. rewrite <- List.app_assoc. reflexivity.
      * rewrite path_join_valid by assumption. destruct (endswith top "/");
          destruct top; try contradiction; discriminate.
      * apply Forall_app. split; [exact Hpre | constructor; [exact Hnm | constructor]].
      * rewrite comps_abspath_join, Hcomps, List.app_assoc by assumption. reflexivity.
    + apply IHrest. intros e He. apply Hv. right. exact He.
Qed.
End ZipWalk.

(** C9: with the worker's (absolute) current directory, zip_dir stores
    every regular file of a well-formed source directory under its path
    relative to the source directory, with "/" between the names and no
    segment of the source directory's own path; in particular a source
    directory holding a/b.txt and c.txt, listed in either order, gives
    exactly the entries "c.txt" and "a/b.txt". *)
Theorem zip_dir_relative_names (cwd src : string) :
  isabs cwd = true -> src <> "" ->
  (forall n, valid_tree n = true -> zip_entries cwd src n = map (join_with "/") (tree_files n)) /\
  zip_entries cwd src AB_TREE = ["c.txt"; "a/b.txt"] /\
  zip_entries cwd src AB_TREE' = ["c.txt"; "a/b.txt"].
Proof.
  intros Hc Hs.
  assert (Hgen : forall n, valid_tree n = true ->
                 zip_entries cwd src n = map (join_with "/") (tree_files n)).
  { intros n Hn. unfold zip_entries.
    rewrite (walk_entries cwd src Hc n Hn src []); [| exact Hs | exact (List.Forall_nil _) | symmetry; apply app_nil_r].
    apply List.map_ext. reflexivity. }
  split; [exact Hgen |].
  split; rewrite Hgen by reflexivity; reflexivity.
Qed.

Lemma zip_dir_relative_names_witness :
  isabs "/srv" = true /\ "out" <> "" /\
  zip_entries "/srv" "out" AB_TREE = ["c.txt"; "a/b.txt"].
Proof.
  split; [reflexivity |]. split; [discriminate |].
  exact (proj1 (proj2 (zip_dir_relative_names "/srv" "out" eq_refl ltac:(discriminate)))).
Defined.

(* ------------------------------------------------------------------ *)
(** ** discover_java_files over the walked paths *)

Lemma tree_entries_dir (cs : list (string * node)) :
  tree_entries (DirNode cs) =
  (map (fun e => ([], fst e)) (List.filter (fun e => negb (is_dir (snd e))) cs) ++
   flat_map (fun e => map (fun '(ds, nm) => (fst e :: ds, nm)) (tree_entries (snd e))) cs)%list.
Proof.
  cbn [tree_entries]. f_equal. induction cs as [|[nm c] rest IH]; [reflexivity |].
  cbn [flat_map fst snd]. rewrite <- IH. reflexivity.
Qed.

Lemma flat_map_map_comp {A B C} (f : B -> list C) (g : A -> B) (l : list A) :
  flat_map f (map g l) = flat_map (fun a => f (g a)) l.
Proof. induction l as [|a l IH]; [reflexivity |]. cbn. rewrite IH. reflexivity. Qed.

Lemma java_files_of (top : string) (b : bool) (l : list string) :
  (if b then [] else map (path_join top) (List.filter (fun nm => endswith nm ".java") l)) =
  flat_map (fun nm => if endswith nm ".java" && negb b then [path_join top nm] else []) l.
Proof.
  induction l as [|nm l IH]; [destruct b; reflexivity |].
  cbn [flat_map List.filter]. rewrite <- IH.
  destruct b, (endswith nm ".java"); reflexivity.
Qed.

Lemma discover_walk (n : node) :
  forall top,
  concat (map (fun '(base, _, names) =>
                 if skip_hit base then []
                 else map (path_join base) (List.filter (fun nm => endswith nm ".java") names))
              (walk top n)) =
  flat_map (fun '(ds, nm) =>
              if endswith nm ".java" && negb (skip_hit (join_all top ds))
              then [path_join (join_all top ds) nm] else []) (tree_entries n).
Proof.
  induction n as [c | cs IHcs] using node_ind'; intros top; [reflexivity |].
  rewrite walk_dir, tree_entries_dir. cbn [map concat]. rewrite List.flat_map_app.
  f_equal.
  - cbn beta iota. rewrite java_files_of, !flat_map_map_comp.
    apply List.flat_map_ext. intros e. reflexivity.
  - induction IHcs as [|[nm c] rest IHc _ IHrest]; [reflexivity |].
    cbn [flat_map fst snd] in *. rewrite List.map_app, List.concat_app, List.flat_map_app.
    f_equal; [| exact IHrest].
    rewrite (IHc (path_join top nm)), flat_map_map_comp.
    apply List.flat_map_ext. intros [ds x]. reflexivity.
Qed.

Lemma prefix_app (sub s t : string) : String.prefix sub s = true -> String.prefix sub (s ++ t) = true.
Proof.
  revert s. induction sub as [|a sub IH]; intros s H; [destruct (s ++ t)%string; reflexivity |].
  destruct s as [|b s]; [discriminate |].
  rewrite str_app_cons. cbn [String.prefix] in *.
  destruct (ascii_dec a b); [apply IH; exact H | discriminate].
Qed.

Lemma contains_of_prefix (sub s : string) : String.prefix sub s = true -> contains s sub = true.
Proof. intros H. destruct s; cbn [contains]; rewrite H; reflexivity. Qed.

Lemma contains_app_l (s t sub : string) : contains s sub = true -> contains (s ++ t) sub = true.
Proof.
  induction s as [|a s IH]; intros H.
  - cbn [contains] in H. rewrite orb_false_r in H.
    apply contains_of_prefix. exact (prefix_app sub "" t H).
  - rewrite str_app_cons. cbn [contains] in *.
    apply orb_true_iff in H as [H | H].
    + pose proof (prefix_app sub (String a s) t H) as H'. rewrite str_app_cons in H'.
      rewrite H'. reflexivity.
    + rewrite (IH H). apply orb_true_r.
Qed.

Lemma py_lower_app (s t : string) : py_lower (s ++ t) = (py_lower s ++ py_lower t)%string.
Proof. induction s as [|a s IH]; [reflexivity |]. exact (f_equal (String (lower_char a)) IH). Qed.

Lemma skip_hit_app (s t : string) : skip_hit s = true -> skip_hit (s ++ t) = true.
Proof.
  unfold skip_hit. intros H. apply existsb_exists in H as [sk [Hin Hc]].
  apply existsb_exists. exists sk. split; [exact Hin |].
  rewrite py_lower_app. apply contains_app_l. exact Hc.
Qed.

Lemma path_join_extends (a b : string) : startswith b "/" = false -> exists t, path_join a b = (a ++ t)%string.
Proof.
  intros Hb. unfold path_join. rewrite Hb.
  destruct (String.eqb a "" || endswith a "/"); eauto.
Qed.

Lemma join_all_extends (a : string) (ds : list string) :
  Forall good_comp ds -> exists t, join_all a ds = (a ++ t)%string.
Proof.
  unfold join_all. intros H. revert a. induction H as [|d ds Hd _ IH]; intros a.
  - exists "". symmetry. apply str_app_nil.
  - cbn [fold_left]. destruct (path_join_extends a d (good_comp_no_lead d Hd)) as [t1 Ht1].
    destruct (IH (path_join a d)) as [t2 Ht2]. exists (t1 ++ t2)%string.
    rewrite Ht2, Ht1, str_app_assoc. reflexivity.
Qed.

Lemma join_all_app (a : string) (ds ds' : list string) :
  join_all a (ds ++ ds') = join_all (join_all a ds) ds'.
Proof. unfold join_all. apply fold_left_app. Qed.

Lemma tree_entries_valid (n : node) :
  valid_tree n = true -> Forall (fun e => Forall good_comp (fst e) /\ good_comp (snd e)) (tree_entries n).
Proof.
  induction n as [c | cs IHcs] using node_ind'; intros Hv; [constructor |].
  rewrite valid_tree_dir in Hv. pose proof (proj1 (List.forallb_forall _ _) Hv) as Hv1. clear Hv.
  rewrite tree_entries_dir. apply Forall_app. split.
  - apply List.Forall_forall. intros x Hx. apply in_map_iff in Hx as [e [<- He]].
    apply filter_In in He as [He _]. pose proof (Hv1 e He) as Hn. apply andb_true_iff in Hn.
    split; [constructor | apply valid_name_good, Hn].
  - apply List.Forall_forall. intros x Hx. apply in_flat_map in Hx as [e [He Hx]].
    apply in_map_iff in Hx as [[ds nm] [<- Hx]].
    pose proof (Hv1 e He) as Hn. apply andb_true_iff in Hn as [Hn Hc].
    rewrite List.Forall_forall in IHcs. specialize (IHcs e He Hc).
    rewrite List.Forall_forall in IHcs. destruct (IHcs _ Hx) as [Hds Hnm].
    split; [constructor; [apply valid_name_good, Hn | exact Hds] | exact Hnm].
Qed.

(** C10, counterexample: the folder test reads the path as os.walk
    produces it from [root], not the absolute path.  Run from /srv/build
    with the relative root "repo", the file repo/A.java lies in the
    directory /srv/build/repo, whose absolute path contains "build", and
    it is still returned. *)
Lemma discover_java_files_relative_root :
  discover_java_files "repo" (DirNode [("A.java", FileNode "class A {}")]) = ["repo/A.java"] /\
  abspath "/srv/build" "repo/A.java" = "/srv/build/repo/A.java" /\
  skip_hit (abspath "/srv/build" "repo") = true.
Proof. vm_compute. repeat split. Qed.

(** C10, amended: discover_java_files returns, in os.walk order, the
    path joined from the walked folder and the name of every file whose
    name ends in ".java" and whose walked folder (root joined with the
    directory names below it), lowercased, contains none of "target",
    "build", "out", "node_modules", "generated-sources"; a file below a
    folder whose walked path contains one of them is never returned,
    whatever its own directory; the match is on substrings, so a folder
    named "layout" is skipped as well. *)
Theorem discover_java_files_walked (root : string) (n : node) :
  discover_java_files root n =
    flat_map (fun '(ds, nm) =>
                if endswith nm ".java" && negb (skip_hit (join_all root ds))
                then [path_join (join_all root ds) nm] else []) (tree_entries n) /\
  (forall ds ds' nm, valid_tree n = true -> In ((ds ++ ds')%list, nm) (tree_entries n) ->
     skip_hit (join_all root ds) = true -> skip_hit (join_all root (ds ++ ds')) = true) /\
  In (["layout"], "A.java") (tree_entries LAYOUT_TREE) /\
  discover_java_files "/repo" LAYOUT_TREE = ["/repo/B.java"; "/repo/src/C.java"].
Proof.
  split; [apply discover_walk |].
  split.
  - intros ds ds' nm Hv Hin Hs.
    pose proof (proj1 (List.Forall_forall _ _) (tree_entries_valid n Hv) _ Hin) as [Hds _].
    cbn [fst] in Hds. apply Forall_app in Hds as [_ Hds'].
    rewrite join_all_app. destruct (join_all_extends (join_all root ds) ds' Hds') as [t ->].
    apply skip_hit_app. exact Hs.
  - split; [right; left; reflexivity | vm_compute; reflexivity].
Qed.

Lemma discover_java_files_walked_witness :
  valid_tree LAYOUT_TREE = true /\
  In ((["layout"] ++ [])%list, "A.java") (tree_entries LAYOUT_TREE) /\
  skip_hit (join_all "/repo" ["layout"]) = true /\
  skip_hit (join_all "/repo" (["layout"] ++ [])) = true.
Proof.
  split; [reflexivity |]. split; [right; left; reflexivity |].
  assert (Hs : skip_hit (join_all "/repo" ["layout"]) = true) by reflexivity.
  split; [exact Hs |].
  exact (proj1 (proj2 (discover_java_files_walked "/repo" LAYOUT_TREE)) ["layout"] [] "A.java"
           eq_refl (or_intror (or_introl eq_refl)) Hs).
Defined.

(* ------------------------------------------------------------------ *)
(** ** How a job ends *)

(** X1: _run_job always leaves the job terminal: either succeeded, with
    the artifact set to a non-empty path that is a file, progress 100 and
    message "Complete", or failed, with message "Error: " followed by the
    exception text and a last log entry recording it. *)
Theorem run_job_outcome (cwd : string) (x : Ext) (opts : BuildOptions) (fs : FS) :
  let st := snd (run_job cwd x opts (init_state fs)) in
  (status (ps_job st) = "succeeded" /\
   (exists zp, artifact (ps_job st) = Some zp /\ zp <> "" /\
               abspath cwd zp ∈ dom (files (ps_fs st))) /\
   progress (ps_job st) = 100%Z /\ message (ps_job st) = "Complete") \/
  (status (ps_job st) = "failed" /\
   exists e, message (ps_job st) = ("Error: " ++ exn_msg e)%string /\
             last (logs (ps_job st)) = Some (mkLog (progress (ps_job st)) "Error" (exn_msg e))).
Proof.
  cbv zeta. unfold run_job.
  remember (run_pipeline cwd cwd x opts) as rp eqn:Hrp.
  unfold bind, try_, update_job, init_state, ret, get_job, read_fs, raise, finish_ok.
  cbn. destruct (rp _) as [[e | zp] st'].
  - right. cbn. split; [reflexivity |]. exists e. split; [reflexivity |].
    rewrite last_snoc. reflexivity.
  - cbn. destruct (negb (String.eqb zp "") && bool_decide (abspath cwd zp ∈ dom (files (ps_fs st'))))
      eqn:Hok; cbn.
    + left. apply andb_true_iff in Hok as [Hne Hin].
      apply negb_true_iff, String.eqb_neq in Hne. apply bool_decide_eq_true_1 in Hin.
      repeat split; try reflexivity. exists zp. auto.
    + right. split; [reflexivity |]. exists (FileNotFoundError "Artifact ZIP not found after pipeline.").
      split; [reflexivity |].
      rewrite last_snoc. reflexivity.
Qed.


Lemma makedirs_inr (cwd p : string) (st : PState) (fs' : FS) :
  fs_makedirs (abspath cwd p) (ps_fs st) = inr fs' ->
  makedirs cwd p st = (inr tt, mkPS fs' (ps_job st) (ps_seen st)).
Proof. intros H. unfold makedirs, fs_step, on_fs. rewrite H. reflexivity. Qed.

Lemma on_fs_eq {A} (f : FS -> (exn + A) * FS) (st : PState) r fs' :
  f (ps_fs st) = (r, fs') -> on_fs f st = (r, mkPS fs' (ps_job st) (ps_seen st)).
Proof. intros H. unfold on_fs. rewrite H. reflexivity. Qed.

Lemma progress_cb_info (pct : Z) (label msg : string) (st : PState) :
  exists st', progress_cb pct label msg st = (inr tt, st') /\ ps_fs st' = ps_fs st /\
              progress (ps_job st') = clamp pct /\ artifact (ps_job st') = artifact (ps_job st).
Proof.
  destruct st as [fs j seen]. unfold progress_cb, bind, update_job, get_job, ret. cbn.
  destruct (negb (is_terminal (status j))); cbn; eexists; repeat split; reflexivity.
Qed.

Lemma fetch_no_java (cwd base_dir : string) (x : Ext) (opts : BuildOptions) (st : PState)
  (fs1 fs2 : FS) (repo : string) :
  fs_makedirs (abspath cwd (path_join (path_join base_dir "work") (job_id opts))) (ps_fs st) = inr fs1 ->
  ext_clone x (github_url opts) (path_join (path_join base_dir "work") (job_id opts)) fs1
    = (inr repo, fs2) ->
  ext_java_files x repo fs2 = [] ->
  exists st', fetch_and_scan cwd base_dir x opts st
              = (inl (RuntimeError "No Java files found in the repository."), st') /\
              ps_fs st' = fs2 /\ progress (ps_job st') = 25%Z /\ artifact (ps_job st') = artifact (ps_job st).
Proof.
  intros Hmk Hclone Hfiles. unfold fetch_and_scan. cbv zeta.
  rewrite (bind_inr _ _ _ _ _ (makedirs_inr _ _ _ _ Hmk)).
  destruct (progress_cb_info 5 "Fetching repository" "" (mkPS fs1 (ps_job st) (ps_seen st)))
    as (st2 & H2 & Hf2 & _ & Ha2).
  rewrite (bind_inr _ _ _ _ _ H2).
  cbn [ps_fs ps_job] in Hf2, Ha2. rewrite <- Hf2 in Hclone. rewrite (bind_inr _ _ _ _ _ (on_fs_eq _ _ _ _ Hclone)).
  destruct (progress_cb_info 25 "Scanning Java sources" "" (mkPS fs2 (ps_job st2) (ps_seen st2)))
    as (st3 & H3 & Hf3 & Hp3 & Ha3).
  cbn [ps_fs ps_job] in Hf3, Ha3. rewrite (bind_inr _ _ _ _ _ H3).
  unfold bind at 1, read_fs at 1. rewrite Hf3. cbn [ps_fs]. rewrite Hfiles.
  unfold bind at 1, raise. eexists. split; [reflexivity |].
  split; [exact Hf3 |]. split; [exact Hp3 |]. rewrite Ha3. exact Ha2.
Qed.

Lemma run_job_pipeline_err_job cwd x opts fs e st' :
  run_pipeline cwd cwd x opts (started fs) = (inl e, st') ->
  snd (run_job cwd x opts (init_state fs)) =
  let j := set_message ("Error: " ++ exn_msg e) (set_status "failed" (ps_job st')) in
  let j' := add_log (mkLog (progress j) "Error" (exn_msg e)) j in
  mkPS (ps_fs st') j' (ps_seen st' ++ [set_status "failed" (ps_job st'); j; j']).
Proof.
  intros H. unfold run_job.
  remember (run_pipeline cwd cwd x opts) as rp eqn:Hrp.
  unfold started in H.
  unfold bind, try_, update_job, init_state, ret, get_job, read_fs, raise, finish_ok in *.
  cbn in H |- *. rewrite H. cbn. rewrite <- !app_assoc. reflexivity.
Qed.

(** X2: when the clone succeeds but holds no Java file, the job fails
    with the message "Error: No Java files found in the repository." at
    progress 25, without an artifact, and nothing is written after the
    clone. *)
Theorem run_job_no_java_files (cwd : string) (x : Ext) (opts : BuildOptions) (fs fs1 fs2 : FS)
  (repo : string) :
  fs_makedirs (abspath cwd (path_join (path_join cwd "work") (job_id opts))) fs = inr fs1 ->
  ext_clone x (github_url opts) (path_join (path_join cwd "work") (job_id opts)) fs1 = (inr repo, fs2) ->
  ext_java_files x repo fs2 = [] ->
  let st := snd (run_job cwd x opts (init_state fs)) in
  status (ps_job st) = "failed" /\
  message (ps_job st) = "Error: No Java files found in the repository." /\
  progress (ps_job st) = 25%Z /\ artifact (ps_job st) = None /\ ps_fs st = fs2.
Proof.
  intros Hmk Hclone Hfiles. cbv zeta.
  destruct (fetch_no_java cwd cwd x opts (started fs) fs1 fs2 repo Hmk Hclone Hfiles)
    as (st' & Hf & Hfs & Hp & Ha).
  assert (Hrp : run_pipeline cwd cwd x opts (started fs)
                = (inl (RuntimeError "No Java files found in the repository."), st'))
    by (unfold run_pipeline; rewrite (bind_inl _ _ _ _ _ Hf); reflexivity).
  rewrite (run_job_pipeline_err_job _ _ _ _ _ _ Hrp). cbn.
  repeat split; [exact Hp | exact Ha | exact Hfs].
Qed.

Lemma run_job_no_java_files_witness :
  let x := mkExt None (fun _ work fs => (inr (path_join work "repo"), fs))
                 (fun _ _ => []) (fun _ _ => []) (inr None) in
  let fs1 := mkFS ∅ {[ "/srv/work/job1"; "/srv/work"; "/srv"; "/" ]} in
  fs_makedirs (abspath "/srv" (path_join (path_join "/srv" "work") (job_id demo_opts))) empty_fs
    = inr fs1 /\
  ext_clone x (github_url demo_opts) (path_join (path_join "/srv" "work") (job_id demo_opts)) fs1
    = (inr "/srv/work/job1/repo", fs1) /\
  ext_java_files x "/srv/work/job1/repo" fs1 = [] /\
  status (ps_job (snd (run_job "/srv" x demo_opts (init_state empty_fs)))) = "failed".
Proof.
  cbv zeta.
  assert (Hmk : fs_makedirs (abspath "/srv" (path_join (path_join "/srv" "work") (job_id demo_opts)))
                  empty_fs = inr (mkFS ∅ {[ "/srv/work/job1"; "/srv/work"; "/srv"; "/" ]}))
    by (vm_compute; reflexivity).
  split; [exact Hmk |]. split; [reflexivity |]. split; [reflexivity |].
  exact (proj1 (run_job_no_java_files "/srv"
    (mkExt None (fun _ work fs => (inr (path_join work "repo"), fs))
           (fun _ _ => []) (fun _ _ => []) (inr None)) demo_opts empty_fs _ _ _ Hmk eq_refl eq_refl)).
Defined.

(* ------------------------------------------------------------------ *)
(** ** _pick_targets *)

Lemma pick_targets_go_step (limit : nat) (picked : list (string * string))
  (s : option string * option string) (rest : list (option string * option string)) :
  pick_targets_go limit picked (s :: rest) =
  let picked' := (picked ++ option_list (target_of s))%list in
  if limit <=? length picked' then picked' else pick_targets_go limit picked' rest.
Proof.
  destruct s as [pkg [c|]]; cbn [pick_targets_go target_of fst snd].
  - destruct (String.eqb c ""); cbn [option_list]; rewrite ?app_nil_r; reflexivity.
  - rewrite app_nil_r. reflexivity.
Qed.

Lemma pick_targets_go_below (limit : nat) (s : list (option string * option string)) :
  forall picked, length picked < limit ->
  pick_targets_go limit picked s = firstn limit (picked ++ omap target_of s).
Proof.
  induction s as [|x rest IH]; intros picked Hlt.
  - cbn. rewrite app_nil_r, firstn_all2 by lia. reflexivity.
  - rewrite pick_targets_go_step. cbv zeta.
    assert (Ho : omap target_of (x :: rest) = (option_list (target_of x) ++ omap target_of rest)%list)
      by (cbn; destruct (target_of x); reflexivity).
    rewrite Ho, app_assoc.
    destruct (limit <=? length (picked ++ option_list (target_of x))) eqn:E.
    + apply Nat.leb_le in E.
      assert (Hlen : length (picked ++ option_list (target_of x)) = limit).
      { rewrite length_app in *. destruct (target_of x); cbn in *; lia. }
      rewrite firstn_app, Hlen, Nat.sub_diag, firstn_O, app_nil_r, <- Hlen, firstn_all.
      reflexivity.
    + apply Nat.leb_gt in E. apply IH. exact E.
Qed.

(** X3: _pick_targets keeps, in order, the (package or "", class) pair of
    every summary with a non-empty class, up to [limit] pairs; its length
    test runs after each summary, so with limit 0 it still returns the
    pair of the first summary when that one has a class. *)
Theorem pick_targets_prefix (s : list (option string * option string)) (limit : nat) :
  pick_targets s limit =
  if limit =? 0 then omap target_of (firstn 1 s) else firstn limit (omap target_of s).
Proof.
  unfold pick_targets. destruct limit as [|l].
  - destruct s as [|x rest]; [reflexivity |]. rewrite pick_targets_go_step. cbn.
    destruct (target_of x); reflexivity.
  - apply (pick_targets_go_below (S l) s []). cbn. lia.
Qed.

(* ------------------------------------------------------------------ *)
(** ** _clean_body *)

Lemma las_app (a b : string) :
  list_ascii_of_string (a ++ b) = (list_ascii_of_string a ++ list_ascii_of_string b)%list.
Proof.
  induction a as [|c a IH]; [reflexivity |].
  rewrite str_app_cons. cbn [list_ascii_of_string]. rewrite IH. reflexivity.
Qed.

Lemma lstrip_suffix (p : ascii -> bool) (u : string) : exists w, u = (w ++ lstrip_by p u)%string.
Proof.
  induction u as [|c u [w Hw]]; [exists ""; reflexivity |].
  cbn [lstrip_by]. destruct (p c).
  - exists (String c w). rewrite str_app_cons, <- Hw. reflexivity.
  - exists "". reflexivity.
Qed.

Lemma lstrip_idem (p : ascii -> bool) (u : string) : lstrip_by p (lstrip_by p u) = lstrip_by p u.
Proof.
  induction u as [|c u IH]; [reflexivity |]. cbn [lstrip_by].
  destruct (p c) eqn:E; [exact IH |]. cbn [lstrip_by]. rewrite E. reflexivity.
Qed.

Lemma rstrip_prefix (p : ascii -> bool) (s : string) : exists w, s = (rstrip_by p s ++ w)%string.
Proof.
  destruct (lstrip_suffix p (rev_str s)) as [w Hw]. exists (rev_str w).
  unfold rstrip_by. rewrite <- rev_str_app, <- Hw, rev_str_involutive. reflexivity.
Qed.

Lemma rstrip_idem (p : ascii -> bool) (s : string) : rstrip_by p (rstrip_by p s) = rstrip_by p s.
Proof. unfold rstrip_by. rewrite rev_str_involutive, lstrip_idem. reflexivity. Qed.

Lemma rstrip_snoc (p : ascii -> bool) (s : string) (c : ascii) :
  p c = true -> rstrip_by p (s ++ String c "") = rstrip_by p s.
Proof.
  intros Hc. unfold rstrip_by. rewrite rev_str_app.
  change (rev_str (String c "")) with (String c "").
  change (String c "" ++ rev_str s)%string with (String c (rev_str s)).
  cbn [lstrip_by]. rewrite Hc. reflexivity.
Qed.

Lemma norm_newlines_no_cr : forall s, ~ In (ascii_of_nat 13) (list_ascii_of_string (norm_newlines s)).
Proof.
  fix IH 1. intros [|c s]; [intros [] |].
  pose proof (IH s) as IHs. cbn [norm_newlines].
  destruct (Ascii.eqb c (ascii_of_nat 13)) eqn:Ec.
  - destruct s as [|d s'']; [intros [H | []]; discriminate H |].
    destruct (Ascii.eqb d (ascii_of_nat 10)).
    + intros [H | H]; [discriminate H | exact (IH s'' H)].
    + intros [H | H]; [discriminate H | exact (IHs H)].
  - intros [H | H]; [| exact (IHs H)].
    subst c. rewrite Ascii.eqb_refl in Ec. discriminate.
Qed.

Lemma norm_newlines_id (s : string) :
  ~ In (ascii_of_nat 13) (list_ascii_of_string s) -> norm_newlines s = s.
Proof.
  induction s as [|c s IH]; intros H; [reflexivity |].
  cbn [norm_newlines]. destruct (Ascii.eqb c (ascii_of_nat 13)) eqn:Ec.
  - apply Ascii.eqb_eq in Ec. subst c. exfalso. apply H. left. reflexivity.
  - rewrite IH; [reflexivity |]. intros H'. apply H. right. exact H'.
Qed.

(** X4: _clean_body returns text without any carriage return that ends
    in exactly one newline with no whitespace before it, and cleaning a
    cleaned body changes nothing. *)
Theorem clean_body_normal (t : string) :
  ~ In (ascii_of_nat 13) (list_ascii_of_string (clean_body t)) /\
  (exists r, clean_body t = (r ++ NL)%string /\ py_rstrip r = r) /\
  clean_body (clean_body t) = clean_body t.
Proof.
  set (r := py_rstrip (norm_newlines t)).
  assert (Hr : ~ In (ascii_of_nat 13) (list_ascii_of_string r)).
  { destruct (rstrip_prefix is_space (norm_newlines t)) as [w Hw].
    intros H. apply (norm_newlines_no_cr t). rewrite Hw, las_app. apply in_or_app. left. exact H. }
  assert (Hc : ~ In (ascii_of_nat 13) (list_ascii_of_string (r ++ NL))).
  { rewrite las_app. intros H. apply in_app_or in H as [H | [H | []]]; [exact (Hr H) | discriminate H]. }
  unfold clean_body at 1 2. fold r.
  split; [exact Hc |]. split.
  - exists r. split; [reflexivity |]. unfold r, py_rstrip. apply rstrip_idem.
  - unfold clean_body. fold r. rewrite (norm_newlines_id _ Hc).
    unfold py_rstrip, NL, chr. rewrite rstrip_snoc by reflexivity.
    unfold r, py_rstrip. rewrite rstrip_idem. reflexivity.
Qed.

(* ------------------------------------------------------------------ *)
(** ** to_bool *)

Lemma lstrip_spaces_app (w y : string) :
  Forall (fun c => is_space c = true) (list_ascii_of_string w) ->
  lstrip_by is_space (w ++ y) = lstrip_by is_space y.
Proof.
  induction w as [|a w IH]; intros H; [reflexivity |].
  inversion H as [|? ? Ha Hw]; subst.
  rewrite str_app_cons. cbn [lstrip_by]. rewrite Ha. exact (IH Hw).
Qed.

Lemma las_rev (s : string) : list_ascii_of_string (rev_str s) = rev (list_ascii_of_string s).
Proof.
  induction s as [|c s IH]; [reflexivity |].
  change (rev_str (String c s)) with (rev_str s ++ String c "")%string.
  rewrite las_app, IH. reflexivity.
Qed.

Lemma lstrip_app (p : ascii -> bool) (s w : string) :
  lstrip_by p (s ++ w) =
  match lstrip_by p s with "" => lstrip_by p w | _ => (lstrip_by p s ++ w)%string end.
Proof.
  induction s as [|a s IH]; [reflexivity |].
  rewrite str_app_cons. cbn [lstrip_by]. destruct (p a); [exact IH | reflexivity].
Qed.

Lemma rstrip_spaces_app (x w : string) :
  Forall (fun c => is_space c = true) (list_ascii_of_string w) ->
  rstrip_by is_space (x ++ w) = rstrip_by is_space x.
Proof.
  intros H. unfold rstrip_by. rewrite rev_str_app, lstrip_spaces_app; [reflexivity |].
  rewrite las_rev. apply List.Forall_rev. exact H.
Qed.

Lemma strip_spaces (w1 s w2 : string) :
  Forall (fun c => is_space c = true) (list_ascii_of_string w1) ->
  Forall (fun c => is_space c = true) (list_ascii_of_string w2) ->
  py_strip (w1 ++ s ++ w2) = py_strip s.
Proof.
  intros H1 H2. unfold py_strip. rewrite lstrip_spaces_app by exact H1.
  rewrite lstrip_app. destruct (lstrip_by is_space s) as [|a s0] eqn:E.
  - pose proof (lstrip_spaces_app w2 "" H2) as Hw. rewrite str_app_nil in Hw.
    rewrite Hw. reflexivity.
  - apply rstrip_spaces_app. exact H2.
Qed.

Lemma is_space_lower (c : ascii) : is_space (lower_char c) = is_space c.
Proof.
  unfold lower_char. destruct ((65 <=? code c) && (code c <=? 90)) eqn:E; [| reflexivity].
  apply andb_true_iff in E. destruct E as [E1 E2]. apply Nat.leb_le in E1, E2.
  assert (Hl : forall n, 65 <= n -> ((9 <=? n) && (n <=? 13)) || ((28 <=? n) && (n <=? 32)) = false).
  { intros n Hn. rewrite (proj2 (Nat.leb_gt n 13)), (proj2 (Nat.leb_gt n 32)) by lia.
    rewrite !andb_false_r. reflexivity. }
  unfold is_space. rewrite (Hl (code c)) by exact E1.
  assert (Hc : code (ascii_of_nat (code c + 32)) = code c + 32).
  { unfold code in *. apply nat_ascii_embedding. lia. }
  rewrite Hc. apply Hl. lia.
Qed.

Lemma lower_lstrip (s : string) :
  py_lower (lstrip_by is_space s) = lstrip_by is_space (py_lower s).
Proof.
  induction s as [|a s IH]; [reflexivity |]. cbn [lstrip_by py_lower].
  rewrite is_space_lower. destruct (is_space a); [exact IH | reflexivity].
Qed.

Lemma lower_rev (s : string) : py_lower (rev_str s) = rev_str (py_lower s).
Proof.
  induction s as [|a s IH]; [reflexivity |].
  change (rev_str (String a s)) with (rev_str s ++ String a "")%string.
  rewrite py_lower_app, IH. reflexivity.
Qed.

Lemma lower_strip (s : string) : py_lower (py_strip s) = py_strip (py_lower s).
Proof.
  unfold py_strip, rstrip_by. rewrite lower_rev, lower_lstrip, lower_rev, lower_lstrip.
  reflexivity.
Qed.

(** X5: [to_bool] ignores whitespace around a string value and its letter
    case; a list counts by its first element exactly as that element alone
    would (a bool inside a list by its [str], "True" or "False"); an empty
    list and None are false. *)
Theorem to_bool_lenient :
  (forall s w1 w2,
     Forall (fun c => is_space c = true) (list_ascii_of_string w1) ->
     Forall (fun c => is_space c = true) (list_ascii_of_string w2) ->
     to_bool (FScalar (FStr (w1 ++ s ++ w2))) = to_bool (FScalar (FStr s))) /\
  (forall s t, py_lower s = py_lower t ->
     to_bool (FScalar (FStr s)) = to_bool (FScalar (FStr t))) /\
  (forall x rest, to_bool (FList (x :: rest)) = to_bool (FScalar x)) /\
  to_bool (FList []) = false /\
  to_bool (FScalar FNone) = false.
Proof.
  split; [| split; [| split; [| split]]].
  - intros s w1 w2 H1 H2. cbv beta iota delta [to_bool truthy_str].
    rewrite strip_spaces by assumption. reflexivity.
  - intros s t H. cbv beta iota delta [to_bool truthy_str].
    rewrite !lower_strip, H. reflexivity.
  - intros [[|] | | s] rest; reflexivity.
  - reflexivity.
  - reflexivity.
Qed.

Lemma to_bool_lenient_witness :
  to_bool (FScalar (FStr (" " ++ "Yes" ++ NL))) = to_bool (FScalar (FStr "Yes")) /\
  to_bool (FScalar (FStr "Yes")) = true.
Proof.
  split; [| reflexivity].
  apply (proj1 to_bool_lenient); cbv; repeat constructor.
Defined.

(* ------------------------------------------------------------------ *)
(** ** The count dicts of GitChurnTool and GitBlameTopAuthorsTool *)

Lemma dict_get_add (d : list (string * nat)) (k k' : string) (n : nat) :
  dict_get (dict_add d k n) k' = dict_get d k' + (if String.eqb k k' then n else 0).
Proof.
  induction d as [|[k0 v0] d IH]; cbn.
  - destruct (String.eqb k k'); reflexivity.
  - destruct (String.eqb k0 k) eqn:E.
    + apply String.eqb_eq in E. subst k0. cbn.
      destruct (String.eqb k k'); lia.
    + cbn. destruct (String.eqb k0 k') eqn:E2; [| exact IH].
      apply String.eqb_eq in E2. subst k0. rewrite String.eqb_sym, E. lia.
Qed.

Lemma in_keys_add (d : list (string * nat)) (k k' : string) (n : nat) :
  In k' (map fst (dict_add d k n)) <-> k = k' \/ In k' (map fst d).
Proof.
  induction d as [|[k0 v0] d IH]; cbn; [tauto |].
  destruct (String.eqb k0 k) eqn:E; cbn.
  - apply String.eqb_eq in E. subst k0. tauto.
  - rewrite IH. tauto.
Qed.

Lemma nodup_add (d : list (string * nat)) (k : string) (n : nat) :
  List.NoDup (map fst d) -> List.NoDup (map fst (dict_add d k n)).
Proof.
  induction d as [|[k0 v0] d IH]; intros H; cbn.
  - constructor; [intros [] | constructor].
  - inversion H as [|? ? Hn Hd]; subst.
    destruct (String.eqb k0 k) eqn:E; cbn.
    + constructor; assumption.
    + constructor; [| exact (IH Hd)].
      rewrite in_keys_add. intros [-> | Hin]; [| exact (Hn Hin)].
      rewrite String.eqb_refl in E. discriminate.
Qed.

Lemma in_dict (d : list (string * nat)) (k : string) (v : nat) :
  List.NoDup (map fst d) -> In (k, v) d <-> In k (map fst d) /\ v = dict_get d k.
Proof.
  induction d as [|[k0 v0] d IH]; intros H; cbn; [tauto |].
  inversion H as [|? ? Hn Hd]; subst.
  destruct (String.eqb k0 k) eqn:E.
  - apply String.eqb_eq in E. subst k0. split.
    + intros [Heq | Hin].
      * injection Heq as <-. tauto.
      * exfalso. apply Hn. exact (in_map fst _ _ Hin).
    + intros [_ ->]. left. reflexivity.
  - rewrite (IH Hd). split.
    + intros [Heq | Hin]; [| tauto].
      injection Heq as -> _. rewrite String.eqb_refl in E. discriminate.
    + intros [[-> | Hk] Hv]; [rewrite String.eqb_refl in E; discriminate | tauto].
Qed.

Lemma sum_add (d : list (string * nat)) (k : string) (n : nat) :
  list_sum (map snd (dict_add d k n)) = list_sum (map snd d) + n.
Proof.
  unfold list_sum. induction d as [|[k0 v0] d IH]; cbn; [lia |].
  destruct (String.eqb k0 k); cbn; [lia |]. rewrite IH. lia.
Qed.

Lemma tally_from (kvs d : list (string * nat)) :
  List.NoDup (map fst d) ->
  let t := fold_left (fun d p => dict_add d (fst p) (snd p)) kvs d in
  List.NoDup (map fst t) /\
  (forall k, In k (map fst t) <-> In k (map fst d) \/ In k (map fst kvs)) /\
  (forall k, dict_get t k = dict_get d k + sum_of k kvs) /\
  list_sum (map snd t) = list_sum (map snd d) + list_sum (map snd kvs).
Proof.
  revert d. induction kvs as [|[k n] kvs IH]; intros d Hd; cbn [fold_left fst snd].
  - split; [exact Hd |]. split; [cbn; tauto |].
    split; [intros k; cbn; lia | cbn; lia].
  - destruct (IH (dict_add d k n) (nodup_add d k n Hd)) as (H1 & H2 & H3 & H4).
    split; [exact H1 |]. split; [| split].
    + intros k'. rewrite H2, in_keys_add. cbn. tauto.
    + intros k'. rewrite H3, dict_get_add. unfold sum_of, list_sum. cbn.
      destruct (String.eqb k k'); cbn; lia.
    + rewrite H4, sum_add. unfold list_sum. cbn. lia.
Qed.

Lemma insert_desc_perm (x : string * nat) (l : list (string * nat)) :
  Permutation (insert_desc x l) (x :: l).
Proof.
  induction l as [|y l IH]; cbn; [reflexivity |].
  destruct (snd x <=? snd y); [| reflexivity].
  eapply perm_trans; [apply perm_skip; exact IH | apply perm_swap].
Qed.

Lemma sort_desc_from_perm (l acc : list (string * nat)) :
  Permutation (fold_left (fun acc x => insert_desc x acc) l acc) (acc ++ l).
Proof.
  revert acc. induction l as [|x l IH]; intros acc; cbn [fold_left].
  - rewrite app_nil_r. reflexivity.
  - eapply perm_trans; [apply IH |].
    eapply perm_trans; [apply Permutation_app_tail, insert_desc_perm |].
    apply Permutation_middle.
Qed.

Lemma insert_desc_sorted (x : string * nat) (l : list (string * nat)) :
  StronglySorted (fun a b => snd b <= snd a) l ->
  StronglySorted (fun a b => snd b <= snd a) (insert_desc x l).
Proof.
  induction l as [|y l IH]; intros H; cbn.
  - constructor; constructor.
  - inversion H as [|? ? Hs Hf]; subst.
    destruct (Nat.leb_spec (snd x) (snd y)) as [Hle | Hlt].
    + constructor; [exact (IH Hs) |].
      apply List.Forall_forall. intros z Hz.
      apply (Permutation_in _ (insert_desc_perm x l)) in Hz.
      destruct Hz as [<- | Hz]; [exact Hle |].
      exact (proj1 (List.Forall_forall _ _) Hf z Hz).
    + constructor; [exact H |]. constructor; [cbv beta; lia |].
      apply List.Forall_forall. intros z Hz.
      pose proof (proj1 (List.Forall_forall _ _) Hf z Hz) as Hz'. cbv beta in *. lia.
Qed.

Lemma sort_desc_from_sorted (l acc : list (string * nat)) :
  StronglySorted (fun a b => snd b <= snd a) acc ->
  StronglySorted (fun a b => snd b <= snd a) (fold_left (fun acc x => insert_desc x acc) l acc).
Proof.
  revert acc. induction l as [|x l IH]; intros acc H; cbn [fold_left]; [exact H |].
  apply IH, insert_desc_sorted, H.
Qed.

Lemma list_sum_perm (l l' : list nat) : Permutation l l' -> list_sum l = list_sum l'.
Proof. unfold list_sum. induction 1; cbn; lia. Qed.

(** the sorted count table of a list of (key, count) pairs: by descending
    count, each key once, with the total count of that key *)
Lemma sorted_tally (kvs : list (string * nat)) :
  let r := sort_desc (tally kvs) in
  StronglySorted (fun a b => snd b <= snd a) r /\
  List.NoDup (map fst r) /\
  (forall k v, In (k, v) r <-> In k (map fst kvs) /\ v = sum_of k kvs) /\
  list_sum (map snd r) = list_sum (map snd kvs).
Proof.
  cbv zeta. unfold sort_desc, tally.
  pose proof (sort_desc_from_perm
                (fold_left (fun d p => dict_add d (fst p) (snd p)) kvs []) []) as P.
  cbn [app] in P.
  destruct (tally_from kvs [] (List.NoDup_nil _)) as (H1 & H2 & H3 & H4).
  split; [apply sort_desc_from_sorted; constructor |].
  split; [exact (Permutation_NoDup (Permutation_map fst (Permutation_sym P)) H1) |].
  split.
  - intros k v. split.
    + intros Hin. apply (Permutation_in _ P) in Hin.
      apply (in_dict _ _ _ H1) in Hin. destruct Hin as [Hk ->].
      rewrite H2 in Hk. rewrite H3. cbn in Hk |- *. tauto.
    + intros [Hk ->]. apply (Permutation_in _ (Permutation_sym P)).
      apply (in_dict _ _ _ H1). rewrite H2, H3. cbn. tauto.
  - rewrite (list_sum_perm _ _ (Permutation_map snd P)), H4. reflexivity.
Qed.

(** X6: GitChurnTool returns [] when git fails. Otherwise its rows come
    from a table sorted by descending churn, with each file once, the
    files being those named on the counted numstat lines, each with the
    sum of its added and deleted counts over those lines; the table's
    total is the total of all counted lines. *)
Theorem git_churn_table (out : string) :
  git_churn_run None = [] /\
  let entries := omap churn_line (splitlines out) in
  exists r,
    git_churn_run (Some out) = map (fun fv => (fst fv, py_str_nat (snd fv))) r /\
    StronglySorted (fun a b => snd b <= snd a) r /\
    List.NoDup (map fst r) /\
    (forall f v, In (f, v) r <-> In f (map fst entries) /\ v = sum_of f entries) /\
    list_sum (map snd r) = list_sum (map snd entries).
Proof.
  split; [reflexivity |]. cbv zeta.
  exists (sort_desc (tally (omap churn_line (splitlines out)))).
  split; [reflexivity | exact (sorted_tally _)].
Qed.

Lemma blame_ones (l : list string) : List.Forall (fun p => snd p = 1) (omap blame_line l).
Proof.
  induction l as [|x l IH]; [constructor |]. cbn. unfold blame_line.
  destruct (startswith x "author "); [constructor; [reflexivity | exact IH] | exact IH].
Qed.

Lemma sum_ones (xs : list (string * nat)) :
  List.Forall (fun p => snd p = 1) xs -> list_sum (map snd xs) = length xs.
Proof. unfold list_sum. induction 1; cbn; [reflexivity | lia]. Qed.

Lemma Forall_filter_sub (P : string * nat -> Prop) (f : string * nat -> bool) xs :
  List.Forall P xs -> List.Forall P (List.filter f xs).
Proof.
  intros H. apply List.Forall_forall. intros x Hx.
  apply filter_In in Hx. exact (proj1 (List.Forall_forall _ _) H x (proj1 Hx)).
Qed.

(** X7: GitBlameTopAuthorsTool returns [] when git fails. Otherwise its
    rows come from a table sorted by descending line count, with each
    author once, the authors being those of the "author " lines of the
    porcelain output, each with the number of those lines naming it; the
    counts add up to the number of "author " lines. *)
Theorem git_blame_table (out : string) :
  git_blame_run None = [] /\
  let entries := omap blame_line (splitlines out) in
  exists r,
    git_blame_run (Some out) = map (fun an => (fst an, py_str_nat (snd an))) r /\
    StronglySorted (fun a b => snd b <= snd a) r /\
    List.NoDup (map fst r) /\
    (forall a v, In (a, v) r <->
       In a (map fst entries) /\ v = length (List.filter (fun p => String.eqb (fst p) a) entries)) /\
    list_sum (map snd r) = length entries.
Proof.
  split; [reflexivity |]. cbv zeta.
  pose proof (blame_ones (splitlines out)) as H1.
  destruct (sorted_tally (omap blame_line (splitlines out))) as (Hs & Hn & Hi & Ht).
  exists (sort_desc (tally (omap blame_line (splitlines out)))).
  split; [reflexivity |]. split; [exact Hs |]. split; [exact Hn |]. split.
  - intros a v. rewrite Hi. unfold sum_of. rewrite sum_ones; [reflexivity |].
    apply Forall_filter_sub. exact H1.
  - rewrite Ht. apply sum_ones. exact H1.
Qed.

(* ------------------------------------------------------------------ *)
(** ** The endpoints get_job and download_artifact *)

Lemma ka_ret {A} (a : A) : keeps_artifact (ret a).
Proof. intros st. reflexivity. Qed.

Lemma ka_raise {A} (e : exn) : keeps_artifact (A := A) (raise e).
Proof. intros st. reflexivity. Qed.

Lemma ka_read_fs {A} (f : FS -> A) : keeps_artifact (read_fs f).
Proof. intros st. reflexivity. Qed.

Lemma ka_get_job : keeps_artifact get_job.
Proof. intros st. reflexivity. Qed.

Lemma ka_on_fs {A} (f : FS -> (exn + A) * FS) : keeps_artifact (on_fs f).
Proof. intros st. unfold on_fs. destruct (f (ps_fs st)). reflexivity. Qed.

Lemma ka_update (f : Job -> Job) :
  (forall j, artifact (f j) = artifact j) -> keeps_artifact (update_job f).
Proof. intros H st. exact (H (ps_job st)). Qed.

Lemma ka_bind {A B} (c : M A) (k : A -> M B) :
  keeps_artifact c -> (forall a, keeps_artifact (k a)) -> keeps_artifact (bind c k).
Proof.
  intros Hc Hk st. specialize (Hc st). unfold bind.
  destruct (c st) as [[e | a] st'] eqn:E; cbn in Hc |- *; [exact Hc |].
  rewrite Hk. exact Hc.
Qed.

Lemma ka_try {A} (c : M A) : keeps_artifact c -> keeps_artifact (try_ c).
Proof.
  intros Hc st. specialize (Hc st). unfold try_.
  destruct (c st) eqn:E. exact Hc.
Qed.

Lemma ka_makedirs (cwd p : string) : keeps_artifact (makedirs cwd p).
Proof. apply ka_on_fs. Qed.

Lemma ka_write_text (cwd p t : string) : keeps_artifact (write_text cwd p t).
Proof. apply ka_on_fs. Qed.

Ltac ka_solve :=
  repeat match goal with
  | |- keeps_artifact (bind _ _) => apply ka_bind; [| intros ?; cbv beta]
  | |- keeps_artifact (ret _) => apply ka_ret
  | |- keeps_artifact (raise _) => apply ka_raise
  | |- keeps_artifact (read_fs _) => apply ka_read_fs
  | |- keeps_artifact get_job => apply ka_get_job
  | |- keeps_artifact (on_fs _) => apply ka_on_fs
  | |- keeps_artifact (makedirs _ _) => apply ka_makedirs
  | |- keeps_artifact (write_text _ _ _) => apply ka_write_text
  | |- keeps_artifact (update_job _) => apply ka_update; intros ?; reflexivity
  | |- keeps_artifact (try_ _) => apply ka_try
  | |- keeps_artifact (match ?x with _ => _ end) => destruct x
  | |- keeps_artifact (let _ := _ in _) => cbv zeta
  end.

Lemma ka_progress_cb (pct : Z) (label msg : string) : keeps_artifact (progress_cb pct label msg).
Proof. unfold progress_cb. cbv zeta. ka_solve. Qed.

(** run_pipeline never sets the artifact: only _run_job does *)
Lemma run_pipeline_keeps_artifact (cwd base_dir : string) (x : Ext) (opts : BuildOptions) :
  keeps_artifact (run_pipeline cwd base_dir x opts).
Proof.
  unfold run_pipeline, fetch_and_scan, generate_with_policy, generation_stage, package,
    fallback_scaffold, zip_dir_fs.
  ka_solve; apply ka_progress_cb.
Qed.

(** how _run_job leaves the job: succeeded with an artifact that is a
    file, or failed without an artifact *)
Lemma run_job_end (cwd : string) (x : Ext) (opts : BuildOptions) (fs : FS) :
  let st := snd (run_job cwd x opts (init_state fs)) in
  (status (ps_job st) = "succeeded" /\
   exists zp, artifact (ps_job st) = Some zp /\ zp <> "" /\
              abspath cwd zp ∈ dom (files (ps_fs st))) \/
  (status (ps_job st) = "failed" /\ artifact (ps_job st) = None).
Proof.
  cbv zeta. unfold run_job.
  pose proof (run_pipeline_keeps_artifact cwd cwd x opts) as Hka.
  remember (run_pipeline cwd cwd x opts) as rp eqn:Hrp.
  unfold bind, try_, update_job, init_state, ret, get_job, read_fs, raise, finish_ok.
  cbn.
  match goal with |- context [rp ?s] => pose proof (Hka s) as Ha; destruct (rp s) as [[e | zp] st'] eqn:Erp end;
    cbn in Ha.
  - right. cbn. split; [reflexivity | exact Ha].
  - cbn. destruct (negb (String.eqb zp "") && bool_decide (abspath cwd zp ∈ dom (files (ps_fs st'))))
      eqn:Hok; cbn.
    + left. apply andb_true_iff in Hok as [Hne Hin].
      apply negb_true_iff, String.eqb_neq in Hne. apply bool_decide_eq_true_1 in Hin.
      split; [reflexivity |]. exists zp. auto.
    + right. split; [reflexivity | exact Ha].
Qed.

(** X8: get_job answers 404 "Job not found" for an unknown id. For a
    known one it returns the last min(200, n) of the job's n log entries,
    in order, and an artifactUrl, /api/jobs/<id>/artifact, exactly when the
    job has a non-empty artifact. *)
Theorem get_job_view (jobs : gmap string JobRec) (job_id : string) :
  (jobs !! job_id = None -> get_job_ep jobs job_id = HErr 404 "Job not found") /\
  (forall r, jobs !! job_id = Some r ->
   exists v, get_job_ep jobs job_id = HOk v /\
     (exists pre, logs (jr_job r) = (pre ++ v_logs v)%list) /\
     length (v_logs v) = Nat.min 200 (length (logs (jr_job r))) /\
     (v_artifactUrl v = Some (artifact_url job_id) <->
      exists a, artifact (jr_job r) = Some a /\ a <> "") /\
     (v_artifactUrl v = None \/ v_artifactUrl v = Some (artifact_url job_id))).
Proof.
  split.
  - intros H. unfold get_job_ep. rewrite H. reflexivity.
  - intros r H. unfold get_job_ep. rewrite H. eexists. split; [reflexivity |]. cbn [v_logs v_artifactUrl].
    split; [| split; [| split]].
    + exists (firstn (length (logs (jr_job r)) - 200) (logs (jr_job r))).
      unfold last_n. symmetry. apply firstn_skipn.
    + unfold last_n. rewrite List.length_skipn. lia.
    + unfold artifact_truthy. destruct (artifact (jr_job r)) as [a |].
      * destruct (String.eqb a "") eqn:E; cbn.
        -- apply String.eqb_eq in E. subst a. split; [discriminate | intros [a' [[= <-] Hne]]; contradiction].
        -- apply String.eqb_neq in E. split; [intros _; exists a; auto | reflexivity].
      * split; [discriminate | intros [a' [Ha _]]; discriminate].
    + destruct (artifact_truthy (artifact (jr_job r))); [right | left]; reflexivity.
Qed.

Lemma get_job_view_witness :
  exists v, get_job_ep ({[ "j1" := mkJobRec job0 "2024-01-01T00:00:00Z" None ]} : gmap string JobRec)
              "j1" = HOk v /\
            length (v_logs v) = 0.
Proof.
  destruct (proj2 (get_job_view ({[ "j1" := mkJobRec job0 "2024-01-01T00:00:00Z" None ]}
                                   : gmap string JobRec) "j1")
              (mkJobRec job0 "2024-01-01T00:00:00Z" None))
    as [v [Hv [_ [Hl _]]]]; [vm_compute; reflexivity |].
  exists v. split; [exact Hv | exact Hl].
Defined.

(** X9: once _run_job has finished and its record is in the store, a
    succeeded job's artifact downloads (named after the last component of
    its path) and get_job gives its artifactUrl; a failed job has no
    artifact, its download answers 404 "Artifact not found" and get_job
    gives no artifactUrl. *)
Theorem endpoints_after_run_job (cwd : string) (x : Ext) (opts : BuildOptions) (fs : FS)
  (jobs : gmap string JobRec) (created : string) (flags : option (list (string * bool))) :
  let st := snd (run_job cwd x opts (init_state fs)) in
  let jobs' := <[job_id opts := mkJobRec (ps_job st) created flags]> jobs in
  (status (ps_job st) = "succeeded" /\
   (exists zp, artifact (ps_job st) = Some zp /\
               download_artifact cwd (ps_fs st) jobs' (job_id opts) = HOk (zp, path_name zp)) /\
   (exists v, get_job_ep jobs' (job_id opts) = HOk v /\
              v_artifactUrl v = Some (artifact_url (job_id opts)))) \/
  (status (ps_job st) = "failed" /\ artifact (ps_job st) = None /\
   download_artifact cwd (ps_fs st) jobs' (job_id opts) = HErr 404 "Artifact not found" /\
   (exists v, get_job_ep jobs' (job_id opts) = HOk v /\ v_artifactUrl v = None)).
Proof.
  cbv zeta. unfold download_artifact, get_job_ep. rewrite lookup_insert_eq. cbn [jr_job].
  destruct (run_job_end cwd x opts fs) as [[Hs [zp [Ha [Hne Hin]]]] | [Hs Ha]];
    [left | right]; rewrite Ha; (split; [exact Hs |]).
  - apply String.eqb_neq in Hne. split.
    + exists zp. split; [reflexivity |]. rewrite Hne. cbn.
      rewrite (bool_decide_eq_true_2 _ Hin). reflexivity.
    + eexists. split; [reflexivity |]. cbn. rewrite Hne. reflexivity.
  - split; [reflexivity |]. split; [reflexivity |].
    eexists. split; reflexivity.
Qed.

(* ------------------------------------------------------------------ *)
(** ** The regex engine on literal strings and greedy character runs *)

Lemma get_app_r (a b : string) (j : nat) :
  String.get (String.length a + j) (a ++ b) = String.get j b.
Proof. induction a as [|c a IH]; [reflexivity |]. rewrite str_app_cons. exact IH. Qed.

Lemma get_app_l (a b : string) (j : nat) :
  j < String.length a -> String.get j (a ++ b) = String.get j a.
Proof.
  revert j. induction a as [|c a IH]; intros j Hj; cbn in Hj; [lia |].
  rewrite str_app_cons. destruct j as [|j]; [reflexivity |]. apply IH. lia.
Qed.

Lemma get_lt (s : string) (j : nat) (d : ascii) : String.get j s = Some d -> j < String.length s.
Proof.
  revert j. induction s as [|c s IH]; intros j H; [discriminate |].
  destruct j as [|j]; cbn; [lia |]. apply IH in H. lia.
Qed.

Lemma get_in (s : string) (j : nat) (d : ascii) :
  String.get j s = Some d -> In d (list_ascii_of_string s).
Proof.
  revert j. induction s as [|c s IH]; intros j H; [discriminate |].
  destruct j as [|j]; cbn in H |- *; [injection H as <-; left; reflexivity |].
  right. exact (IH j H).
Qed.

Lemma get_exists (s : string) (j : nat) : j < String.length s -> exists d, String.get j s = Some d.
Proof.
  revert j. induction s as [|c s IH]; intros j H; cbn in H; [lia |].
  destruct j as [|j]; [exists c; reflexivity |]. apply IH. lia.
Qed.

Lemma substring_app_r (a s : string) (i n : nat) :
  substring (String.length a + i) n (a ++ s) = substring i n s.
Proof. induction a as [|c a IH]; [reflexivity |]. rewrite str_app_cons. exact IH. Qed.

Lemma substring_prefix (b c : string) : substring 0 (String.length b) (b ++ c) = b.
Proof.
  induction b as [|x b IH]; [destruct c; reflexivity |]. rewrite str_app_cons.
  exact (f_equal (String x) IH).
Qed.

Lemma mtch_seq (inp : string) r1 r2 i cs k :
  mtch inp (RSeq r1 r2) i cs k = mtch inp r1 i cs (fun j cs' => mtch inp r2 j cs' k).
Proof. reflexivity. Qed.

Lemma mtch_group (inp : string) n r1 i cs k :
  mtch inp (RGroup n r1) i cs k = mtch inp r1 i cs (fun j cs' => k j ((n, (i, j)) :: cs')).
Proof. reflexivity. Qed.

Lemma mtch_char (inp : string) c i cs k :
  mtch inp (RChar c) i cs k =
  match String.get i inp with Some d => if Ascii.eqb c d then k (S i) cs else None | None => None end.
Proof. reflexivity. Qed.

Lemma mtch_star_eq (inp : string) g r1 i cs k :
  mtch inp (RStar g r1) i cs k = star_loop inp g r1 k (String.length inp - i + 1) i cs.
Proof. reflexivity. Qed.

Lemma mtch_rstr (inp w : string) (i : nat) cs k :
  (forall j, j < String.length w -> String.get (i + j) inp = String.get j w) ->
  mtch inp (rstr w) i cs k = k (i + String.length w) cs.
Proof.
  revert i. induction w as [|c w IH]; intros i H.
  - cbn. rewrite Nat.add_0_r. reflexivity.
  - change (rstr (String c w)) with (RSeq (RChar c) (rstr w)).
    rewrite mtch_seq, mtch_char.
    pose proof (H 0 ltac:(cbn; lia)) as H0. rewrite Nat.add_0_r in H0. rewrite H0.
    cbn [String.get]. rewrite Ascii.eqb_refl.
    rewrite IH; [cbn; f_equal; lia |].
    intros j Hj. replace (S i + j) with (i + S j) by lia. exact (H (S j) ltac:(cbn; lia)).
Qed.

Lemma star_loop_class_step (inp : string) p k f i cs :
  star_loop inp true (RClass p) k (S f) i cs =
  match String.get i inp with
  | Some d => if p d then match star_loop inp true (RClass p) k f (S i) cs with
                          | Some x => Some x | None => k i cs end
              else k i cs
  | None => k i cs
  end.
Proof.
  unfold star_loop at 1. cbn -[star_loop].
  destruct (String.get i inp) as [d |]; [| reflexivity].
  destruct (p d); [| reflexivity].
  rewrite Nat.leb_refl. reflexivity.
Qed.

(** a greedy run of a character class over exactly [n] characters hands
    the end of the run to the continuation, when no shorter run succeeds
    or the longest one does *)
Lemma star_class_run (inp : string) p k (n i f : nat) cs :
  n < f ->
  (forall m, m < n -> exists d, String.get (i + m) inp = Some d /\ p d = true) ->
  (forall d, String.get (i + n) inp = Some d -> p d = false) ->
  ((forall m, m < n -> k (i + m) cs = None) \/ (exists x, k (i + n) cs = Some x)) ->
  star_loop inp true (RClass p) k f i cs = k (i + n) cs.
Proof.
  revert i f. induction n as [|n IH]; intros i f Hf Hrun Hend Hk;
    (destruct f as [|f]; [lia |]); rewrite star_loop_class_step.
  - rewrite Nat.add_0_r in Hend |- *.
    destruct (String.get i inp) as [d |] eqn:Ed; [| reflexivity].
    rewrite (Hend d eq_refl). reflexivity.
  - destruct (Hrun 0 ltac:(lia)) as [d [Hd Hp]]. rewrite Nat.add_0_r in Hd.
    rewrite Hd, Hp.
    rewrite (IH (S i) f); [| lia | | | ].
    + replace (S i + n) with (i + S n) by lia.
      destruct (k (i + S n) cs) as [x |] eqn:Ex; [reflexivity |].
      destruct Hk as [Hk | [x Hx]]; [| congruence].
      pose proof (Hk 0 ltac:(lia)) as H0. rewrite Nat.add_0_r in H0. exact H0.
    + intros m Hm. replace (S i + m) with (i + S m) by lia. apply Hrun. lia.
    + intros d' Hd'. apply Hend. replace (i + S n) with (S i + n) by lia. exact Hd'.
    + destruct Hk as [Hk | Hk]; [left | right].
      * intros m Hm. replace (S i + m) with (i + S m) by lia. apply Hk. lia.
      * replace (S i + n) with (i + S n) by lia. exact Hk.
Qed.

Lemma mtch_plus_class (inp : string) p (n i : nat) cs k :
  1 <= n ->
  (forall m, m < n -> exists d, String.get (i + m) inp = Some d /\ p d = true) ->
  (forall d, String.get (i + n) inp = Some d -> p d = false) ->
  ((forall m, 1 <= m < n -> k (i + m) cs = None) \/ (exists x, k (i + n) cs = Some x)) ->
  mtch inp (rplus (RClass p)) i cs k = k (i + n) cs.
Proof.
  intros Hn Hrun Hend Hk. unfold rplus. rewrite mtch_seq.
  change (mtch inp (RClass p) i cs ?k') with
    (match String.get i inp with Some d => if p d then k' (S i) cs else None | None => None end).
  destruct (Hrun 0 ltac:(lia)) as [d [Hd Hp]]. rewrite Nat.add_0_r in Hd.
  rewrite Hd, Hp. rewrite mtch_star_eq.
  destruct (Hrun (n - 1) ltac:(lia)) as [d' [Hd' _]]. apply get_lt in Hd'.
  rewrite (star_class_run inp p k (n - 1) (S i)); [| lia | | | ].
  - f_equal. lia.
  - intros m Hm. replace (S i + m) with (i + S m) by lia. apply Hrun. lia.
  - intros d'' H''. apply Hend. replace (i + n) with (S i + (n - 1)) by lia. exact H''.
  - destruct Hk as [Hk | Hk]; [left | right].
    + intros m Hm. replace (S i + m) with (i + S m) by lia. apply Hk. lia.
    + replace (S i + (n - 1)) with (i + n) by lia. exact Hk.
Qed.

(* ------------------------------------------------------------------ *)
(** ** _extract_owner_repo *)

Lemma slash_free_get (s : string) (m : nat) :
  List.Forall (fun c => not_slash c = true) (list_ascii_of_string s) -> m < String.length s ->
  exists d, String.get m s = Some d /\ not_slash d = true.
Proof.
  intros H Hm. destruct (get_exists s m Hm) as [d Hd]. exists d. split; [exact Hd |].
  exact (proj1 (List.Forall_forall _ _) H d (get_in s m d Hd)).
Qed.

Lemma owner_repo_match_at (pre o r post : string) :
  o <> "" -> r <> "" ->
  List.Forall (fun c => not_slash c = true) (list_ascii_of_string o) ->
  List.Forall (fun c => not_slash c = true) (list_ascii_of_string r) ->
  (post = "" \/ exists q, post = String slash q) ->
  match_at (pre ++ "github.com/" ++ o ++ "/" ++ r ++ post) OWNER_REPO_RE (String.length pre) =
  Some (String.length pre + 11 + String.length o + 1 + String.length r,
        [(2, (String.length pre + 11 + String.length o + 1,
              String.length pre + 11 + String.length o + 1 + String.length r));
         (1, (String.length pre + 11, String.length pre + 11 + String.length o))]).
Proof.
  intros Ho Hr Fo Fr Hpost.
  set (P := String.length pre). set (O := String.length o). set (R := String.length r).
  set (inp := (pre ++ "github.com/" ++ o ++ "/" ++ r ++ post)%string).
  assert (G1 : forall j, j < 11 -> String.get (P + j) inp = String.get j "github.com/").
  { intros j Hj. unfold inp, P. rewrite get_app_r. apply get_app_l. exact Hj. }
  assert (G2 : forall m, String.get (P + 11 + m) inp = String.get m (o ++ "/" ++ r ++ post)).
  { intros m. unfold inp, P. rewrite <- Nat.add_assoc, get_app_r.
    change 11 with (String.length "github.com/"). apply get_app_r. }
  assert (Hs : String.get (P + 11 + O) inp = Some slash).
  { rewrite G2. rewrite <- (Nat.add_0_r O). unfold O. rewrite get_app_r. reflexivity. }
  assert (G3 : forall m, String.get (S (P + 11 + O) + m) inp = String.get m (r ++ post)).
  { intros m. replace (S (P + 11 + O) + m) with (P + 11 + (O + S m)) by lia.
    rewrite G2. unfold O. rewrite get_app_r. reflexivity. }
  assert (HO : 1 <= O) by (destruct o; [congruence | cbn; lia]).
  assert (HR : 1 <= R) by (destruct r; [congruence | cbn; lia]).
  unfold match_at, OWNER_REPO_RE. cbn [rseq].
  rewrite mtch_seq, mtch_rstr by (intros j Hj; apply G1; exact Hj).
  change (String.length "github.com/") with 11. cbv beta.
  rewrite mtch_seq, mtch_group.
  rewrite (mtch_plus_class inp not_slash O (P + 11)); [| exact HO | | | ].
  - cbv beta. rewrite mtch_seq, mtch_char, Hs, Ascii.eqb_refl.
    rewrite mtch_group.
    rewrite (mtch_plus_class inp not_slash R (S (P + 11 + O))); [| exact HR | | | ].
    + repeat f_equal; lia.
    + intros m Hm. rewrite G3. unfold R in Hm.
      rewrite get_app_l by exact Hm. exact (slash_free_get r m Fr Hm).
    + intros d Hd. rewrite G3 in Hd. rewrite <- (Nat.add_0_r R) in Hd. unfold R in Hd.
      rewrite get_app_r in Hd.
      destruct Hpost as [-> | [q ->]]; [discriminate |].
      injection Hd as <-. reflexivity.
    + right. eexists. reflexivity.
  - intros m Hm. rewrite G2. unfold O in Hm.
    rewrite get_app_l by exact Hm. exact (slash_free_get o m Fo Hm).
  - intros d Hd. rewrite Hs in Hd. injection Hd as <-. reflexivity.
  - left. intros m Hm. cbv beta. rewrite mtch_seq, mtch_char, G2.
    unfold O in Hm. rewrite get_app_l by lia.
    destruct (slash_free_get o m Fo ltac:(lia)) as [d [Hd Hn]]. rewrite Hd.
    unfold not_slash in Hn. rewrite Ascii.eqb_sym. apply negb_true_iff in Hn. rewrite Hn.
    reflexivity.
Qed.

Lemma owner_repo_no_match_before (pre rest : string) (pos : nat) :
  ~ In "g"%char (list_ascii_of_string pre) -> pos < String.length pre ->
  match_at (pre ++ rest) OWNER_REPO_RE pos = None.
Proof.
  intros Hg Hpos. unfold match_at, OWNER_REPO_RE. cbn [rseq]. rewrite mtch_seq.
  change (rstr "github.com/") with (RSeq (RChar "g"%char) (rstr "ithub.com/")).
  rewrite mtch_seq, mtch_char, get_app_l by exact Hpos.
  destruct (get_exists pre pos Hpos) as [d Hd]. rewrite Hd.
  destruct (Ascii.eqb "g" d) eqn:E; [| reflexivity].
  apply Ascii.eqb_eq in E. subst d. exfalso. exact (Hg (get_in pre pos _ Hd)).
Qed.

Lemma owner_repo_search (pre o r post : string) :
  ~ In "g"%char (list_ascii_of_string pre) ->
  o <> "" -> r <> "" ->
  List.Forall (fun c => not_slash c = true) (list_ascii_of_string o) ->
  List.Forall (fun c => not_slash c = true) (list_ascii_of_string r) ->
  (post = "" \/ exists q, post = String slash q) ->
  search (pre ++ "github.com/" ++ o ++ "/" ++ r ++ post) OWNER_REPO_RE =
  Some (String.length pre, String.length pre + 11 + String.length o + 1 + String.length r,
        [(2, (String.length pre + 11 + String.length o + 1,
              String.length pre + 11 + String.length o + 1 + String.length r));
         (1, (String.length pre + 11, String.length pre + 11 + String.length o))]).
Proof.
  intros Hg Ho Hr Fo Fr Hpost.
  set (inp := (pre ++ "github.com/" ++ o ++ "/" ++ r ++ post)%string).
  assert (Hlen : String.length pre <= String.length inp).
  { unfold inp. pose proof (get_app_r pre ("github.com/" ++ o ++ "/" ++ r ++ post) 0) as H.
    rewrite Nat.add_0_r in H. cbn in H. apply get_lt in H. lia. }
  assert (Hf : forall f pos, pos <= String.length pre -> String.length pre - pos < f ->
            exists rest, finditer_from inp f OWNER_REPO_RE pos =
              (String.length pre, String.length pre + 11 + String.length o + 1 + String.length r,
               [(2, (String.length pre + 11 + String.length o + 1,
                     String.length pre + 11 + String.length o + 1 + String.length r));
                (1, (String.length pre + 11, String.length pre + 11 + String.length o))]) :: rest).
  { induction f as [|f IH]; intros pos Hpos Hfuel; [lia |].
    cbn [finditer_from]. rewrite (proj2 (Nat.ltb_ge _ _)) by lia.
    destruct (Nat.eq_dec pos (String.length pre)) as [-> | Hne].
    - unfold inp. rewrite owner_repo_match_at by assumption. eexists. reflexivity.
    - unfold inp. rewrite owner_repo_no_match_before by (assumption || lia).
      apply IH; lia. }
  unfold search, finditer. destruct (Hf (String.length inp + 1) 0) as [rest ->]; [lia | lia |].
  reflexivity.
Qed.

(** X10: for a URL made of a prefix without the letter g (such as
    "https://" or "http://www."), "github.com/", a non-empty owner and a
    non-empty repository name without '/', and nothing or a '/'-led tail,
    _extract_owner_repo returns the owner and the repository name with
    every ".git" removed from it, left to right. *)
Theorem extract_owner_repo_github (pre o r post : string) :
  ~ In "g"%char (list_ascii_of_string pre) ->
  o <> "" -> r <> "" ->
  List.Forall (fun c => not_slash c = true) (list_ascii_of_string o) ->
  List.Forall (fun c => not_slash c = true) (list_ascii_of_string r) ->
  (post = "" \/ exists q, post = String slash q) ->
  extract_owner_repo (pre ++ "github.com/" ++ o ++ "/" ++ r ++ post) = Some (o, drop_git r).
Proof.
  intros Hg Ho Hr Fo Fr Hpost. unfold extract_owner_repo.
  rewrite owner_repo_search by assumption.
  unfold group. cbn [list_find].
  repeat match goal with
  | |- context [decide (?a = ?b)] =>
      destruct (decide (a = b)) as [?Hab | ?Hab]; try (exfalso; lia)
  end.
  cbn -[substring String.length].
  f_equal. f_equal; [| f_equal].
  - replace (String.length pre + 11 + String.length o - (String.length pre + 11))
      with (String.length o) by lia.
    rewrite (substring_app_r pre ("github.com/" ++ o ++ "/" ++ r ++ post)%string 11).
    change 11 with (String.length "github.com/" + 0).
    rewrite (substring_app_r "github.com/" (o ++ "/" ++ r ++ post)%string 0).
    apply substring_prefix.
  - replace (String.length pre + 11 + String.length o + 1 + String.length r -
             (String.length pre + 11 + String.length o + 1))
      with (String.length r) by lia.
    replace (String.length pre + 11 + String.length o + 1)
      with (String.length pre + (String.length "github.com/" + (String.length o + (String.length "/" + 0))))
      by (cbn; lia).
    rewrite (substring_app_r pre ("github.com/" ++ o ++ "/" ++ r ++ post)%string).
    rewrite (substring_app_r "github.com/" (o ++ "/" ++ r ++ post)%string).
    rewrite (substring_app_r o ("/" ++ r ++ post)%string).
    rewrite (substring_app_r "/" (r ++ post)%string).
    apply substring_prefix.
Qed.

Lemma extract_owner_repo_github_witness :
  extract_owner_repo "https://github.com/acme/x.github.io.git" = Some ("acme", drop_git "x.github.io.git") /\
  drop_git "x.github.io.git" = "xhub.io".
Proof.
  split; [| reflexivity].
  apply (extract_owner_repo_github "https://" "acme" "x.github.io.git" "").
  - cbv. intros H. repeat (destruct H as [H | H]; [discriminate H |]). exact H.
  - discriminate.
  - discriminate.
  - cbv. repeat constructor.
  - cbv. repeat constructor.
  - left. reflexivity.
Defined.

(* ------------------------------------------------------------------ *)
(** ** build_context_bundle *)

Lemma concat_empty_cons (x : string) (xs : list string) :
  String.concat "" (x :: xs) = (x ++ String.concat "" xs)%string.
Proof. destruct xs as [|y xs]; [symmetry; apply str_app_nil | reflexivity]. Qed.

Lemma concat_empty_app (a b : list string) :
  String.concat "" (a ++ b) = (String.concat "" a ++ String.concat "" b)%string.
Proof.
  induction a as [|x a IH]; [reflexivity |].
  change ((x :: a) ++ b)%list with (x :: (a ++ b))%list.
  rewrite !concat_empty_cons, IH, str_app_assoc. reflexivity.
Qed.

(** X11: build_context_bundle only ever extends: more summaries append
    text to the bundle of the first ones, and summaries past max_files
    change nothing. *)
Theorem context_bundle_extend (l l' : list JavaSummary) (max_files per_file_chars : nat) :
  exists t,
    build_context_bundle (l ++ l') max_files per_file_chars =
    (build_context_bundle l max_files per_file_chars ++ t)%string /\
    (max_files <= length l -> t = "").
Proof.
  exists (String.concat "" (map (bundle_entry per_file_chars) (firstn (max_files - length l) l'))).
  split.
  - unfold build_context_bundle. rewrite List.firstn_app, List.map_app, concat_empty_app.
    rewrite !str_app_assoc. reflexivity.
  - intros H. replace (max_files - length l) with 0 by lia. reflexivity.
Qed.

Lemma context_bundle_extend_witness :
  build_context_bundle [mkSummary "A.java" (Some "p") (Some "A") ["run"] "class A {}";
                        mkSummary "B.java" None (Some "B") [] ""] 1 1500 =
  build_context_bundle [mkSummary "A.java" (Some "p") (Some "A") ["run"] "class A {}"] 1 1500.
Proof.
  destruct (context_bundle_extend [mkSummary "A.java" (Some "p") (Some "A") ["run"] "class A {}"]
              [mkSummary "B.java" None (Some "B") [] ""] 1 1500) as [t [Ht H0]].
  rewrite (H0 ltac:(cbn; lia)), str_app_nil in Ht. exact Ht.
Defined.
Lemma rfind_go_app (c : ascii) (a b : string) (i : nat) (acc : option nat) :
  rfind_go c (a ++ b) i acc = rfind_go c b (i + String.length a) (rfind_go c a i acc).
Proof.
  revert i acc. induction a as [|d a IH]; intros i acc.
  - cbn. rewrite Nat.add_0_r. reflexivity.
  - rewrite str_app_cons. cbn [rfind_go String.length]. rewrite IH, Nat.add_succ_r. reflexivity.
Qed.

Lemma rfind_go_absent (c : ascii) (t : string) (i : nat) (acc : option nat) :
  ~ In c (list_ascii_of_string t) -> rfind_go c t i acc = acc.
Proof.
  revert i. induction t as [|d t IH]; intros i H; [reflexivity |]. cbn in *.
  destruct (Ascii.eqb_spec d c) as [->|Hd]; [exfalso; tauto |].
  apply IH. tauto.
Qed.

Lemma rfind_go_bound (c : ascii) (s : string) (i : nat) (acc : option nat) (k : nat) :
  rfind_go c s i acc = Some k -> acc = Some k \/ (i <= k < i + String.length s).
Proof.
  revert i acc. induction s as [|d s IH]; intros i acc H; cbn in H; [left; exact H |].
  apply IH in H. cbn. destruct H as [H|H]; [| right; lia].
  destruct (Ascii.eqb d c); [right; injection H; lia | left; exact H].
Qed.

Lemma lower_char_dot (c : ascii) : lower_char c = "."%char -> c = "."%char.
Proof.
  unfold lower_char. destruct ((65 <=? code c) && (code c <=? 90)) eqn:E; [| exact id].
  intros H. apply andb_true_iff in E as [E1 E2]. apply Nat.leb_le in E1, E2.
  apply (f_equal code) in H. unfold code in *.
  rewrite nat_ascii_embedding in H by lia.
  change (nat_of_ascii "."%char) with 46 in H. lia.
Qed.

Lemma py_lower_length (s : string) : String.length (py_lower s) = String.length s.
Proof. induction s as [|c s IH]; cbn; congruence. Qed.

Lemma lower_java_shape (e : string) :
  py_lower e = ".java" ->
  exists t, e = String "."%char t /\ String.length t = 4 /\
            ~ In "."%char (list_ascii_of_string t).
Proof.
  intros H. destruct e as [|c t]; [discriminate |]. cbn in H. injection H as Hc Ht.
  apply lower_char_dot in Hc. subst c. exists t. split; [reflexivity |].
  split; [rewrite <- (py_lower_length t), Ht; reflexivity |].
  intros Hin. assert (Hl : In "."%char (list_ascii_of_string (py_lower t))).
  { clear Ht. induction t as [|d t IH]; [contradiction |]. cbn in *.
    destruct Hin as [->|Hin]; [left; reflexivity | right; auto]. }
  rewrite Ht in Hl. cbn in Hl. repeat (destruct Hl as [Hl|Hl]; [discriminate |]). exact Hl.
Qed.

Lemma substring_all (s : string) : substring 0 (String.length s) s = s.
Proof. pose proof (substring_prefix s "") as H. rewrite str_app_nil in H. exact H. Qed.

Lemma substring_split (s : string) (i : nat) :
  i <= String.length s -> s = (substring 0 i s ++ substring i (String.length s - i) s)%string.
Proof.
  revert i. induction s as [|c s IH]; intros i H.
  - destruct i; [reflexivity | cbn in H; lia].
  - destruct i as [|i]; cbn.
    + rewrite substring_all. reflexivity.
    + rewrite str_app_cons. f_equal. apply IH. cbn in H. lia.
Qed.

Lemma str_length_app (a b : string) :
  String.length (a ++ b) = String.length a + String.length b.
Proof. induction a as [|c a IH]; [reflexivity |]. rewrite str_app_cons. cbn. lia. Qed.

Lemma substring0_length (s : string) (i : nat) :
  i <= String.length s -> String.length (substring 0 i s) = i.
Proof.
  revert i. induction s as [|c s IH]; intros i H.
  - destruct i; [reflexivity | cbn in H; lia].
  - destruct i as [|i]; [reflexivity |]. cbn in *. f_equal. apply IH. lia.
Qed.

Lemma path_suffix_java (v b e : string) :
  b <> "" -> path_name v = (b ++ e)%string -> py_lower e = ".java" -> path_suffix v = e.
Proof.
  intros Hb Hn He. destruct (lower_java_shape e He) as (t & -> & Ht & Hd).
  unfold path_suffix. rewrite Hn. unfold py_rfind.
  rewrite rfind_go_app. cbn [rfind_go]. rewrite Ascii.eqb_refl.
  rewrite rfind_go_absent by exact Hd.
  assert (Hb0 : 0 < String.length b) by (destruct b; [contradiction | cbn; lia]).
  rewrite str_length_app. cbn [String.length Nat.add]. rewrite Ht.
  rewrite (proj2 (Nat.ltb_lt 0 (String.length b)) Hb0).
  rewrite (proj2 (Nat.ltb_lt (String.length b) (String.length b + 5 - 1))) by lia.
  cbn [andb]. replace (String.length b + 5 - String.length b) with 5 by lia.
  rewrite <- (Nat.add_0_r (String.length b)) at 1. rewrite substring_app_r.
  replace 5 with (String.length (String "."%char t)) by (cbn; lia).
  apply substring_all.
Qed.

(** [JavaOutlineInput._must_be_java_file] accepts a path exactly when it
    is an existing file whose name has a non-empty stem followed by a
    suffix that lower-cases to [".java"]; a file named just [".java"] is
    refused whether or not it exists. *)
Theorem must_be_java_file_accepts (cwd : string) (fs : FS) (v : string) :
  (must_be_java_file cwd fs v = inr v <->
   abspath cwd v ∈ dom (files fs) /\
   exists b e, b <> "" /\ path_name v = (b ++ e)%string /\ py_lower e = ".java") /\
  must_be_java_file cwd fs ".java" <> inr ".java".
Proof.
  split.
  - split.
    + intros H. unfold must_be_java_file in H.
      destruct (is_file cwd fs v) eqn:Hf; [| discriminate]. cbn [negb] in H.
      destruct (String.eqb (py_lower (path_suffix v)) ".java") eqn:Hq; [| discriminate].
      split; [unfold is_file in Hf; exact (bool_decide_eq_true_1 _ Hf) |].
      apply String.eqb_eq in Hq. unfold path_suffix in Hq.
      remember (path_name v) as name eqn:Hn.
      destruct (py_rfind name "."%char) as [i|] eqn:Hr; [| discriminate].
      destruct ((0 <? i) && (i <? String.length name - 1)) eqn:Hc; [| discriminate].
      apply andb_true_iff in Hc as [H0 H1]. apply Nat.ltb_lt in H0, H1.
      exists (substring 0 i name), (substring i (String.length name - i) name).
      split; [| split; [apply substring_split; lia | exact Hq]].
      intros Hb. apply (f_equal String.length) in Hb.
      rewrite substring0_length in Hb by lia. cbn in Hb. lia.
    + intros [Hf (b & e & Hb & Hn & He)]. unfold must_be_java_file, is_file.
      rewrite (bool_decide_eq_true_2 _ Hf). cbn [negb].
      rewrite (path_suffix_java v b e Hb Hn He), He. reflexivity.
  - unfold must_be_java_file. replace (path_suffix ".java") with "" by reflexivity.
    destruct (is_file cwd fs ".java"); discriminate.
Qed.

Lemma split_on_cons_shape (sep : ascii) (s : string) : exists w ws, split_on sep s = w :: ws.
Proof.
  induction s as [|c s IH]; [eexists _, _; reflexivity |].
  destruct IH as (w & ws & Hs). cbn. rewrite Hs.
  destruct (Ascii.eqb c sep); eexists _, _; reflexivity.
Qed.

Lemma split_on_app (sep : ascii) (a b : string) :
  split_on sep (a ++ String sep b) = (split_on sep a ++ split_on sep b)%list.
Proof.
  induction a as [|c a IH].
  - change ("" ++ String sep b)%string with (String sep b). cbn [split_on]. destruct (split_on_cons_shape sep b) as (w & ws & Hs).
    rewrite Hs, Ascii.eqb_refl. reflexivity.
  - rewrite str_app_cons. cbn [split_on]. rewrite IH.
    destruct (split_on_cons_shape sep a) as (w & ws & Hs). rewrite Hs.
    destruct (Ascii.eqb c sep); reflexivity.
Qed.

Lemma path_name_slash_pom (d : string) : path_name (d ++ "/pom.xml") = "pom.xml".
Proof.
  unfold path_name. change "/pom.xml" with (String slash "pom.xml").
  rewrite split_on_app, List.filter_app.
  set (f := fun c : string => negb (String.eqb c "") && negb (String.eqb c ".")).
  replace (List.filter f (split_on slash "pom.xml")) with ["pom.xml"] by reflexivity.
  rewrite last_snoc. reflexivity.
Qed.

(** [PomInput._must_be_pom] accepts [pom.xml] and [<dir>/pom.xml] for any
    directory prefix exactly when the path is an existing file. *)
Theorem must_be_pom_any_dir (cwd : string) (fs : FS) (d : string) :
  (must_be_pom cwd fs "pom.xml" = inr "pom.xml" <-> abspath cwd "pom.xml" ∈ dom (files fs)) /\
  (must_be_pom cwd fs (d ++ "/pom.xml") = inr (d ++ "/pom.xml")%string <->
   abspath cwd (d ++ "/pom.xml") ∈ dom (files fs)).
Proof.
  unfold must_be_pom, is_file. split.
  - replace (path_name "pom.xml") with "pom.xml" by reflexivity.
    destruct (bool_decide_reflect (abspath cwd "pom.xml" ∈ dom (files fs))); cbn;
      split; (discriminate || tauto || reflexivity).
  - rewrite path_name_slash_pom.
    destruct (bool_decide_reflect (abspath cwd (d ++ "/pom.xml") ∈ dom (files fs))); cbn;
      split; (discriminate || tauto || reflexivity).
Qed.
